(** * Attendance reconciliation of the admin dashboard

    Shallow embedding of the attendance-processing effect of
    [src/app/admin/index.tsx] (component [AdminDashboard], lines 150-298):
    grouping of the raw punch records by user and local date, pairing of
    check-ins with check-outs inside each day, per-user minute totals and
    the organisation-wide dashboard figures.

    Conventions of the embedding.
    - A JavaScript time value ([new Date(x).getTime()]) is an [option Z]:
      milliseconds since the epoch, [None] for [NaN] (an invalid date).
    - Minute counts are integers; they are kept in [Z].  Fractional hours
      are IEEE doubles and are kept in the primitive type [float].
    - A plain JavaScript object used as a dictionary is the list of its
      own properties in the order of [Object.keys]: the keys that are
      array indices in ascending order, then the other keys in the order
      of their creation.  A key that the object does not own is looked
      up on [Object.prototype]; the names found there are part of the
      host state, and the grouping can add to them.
    - The interfaces imported from [../types] are not part of the file;
      the records below carry the fields the effect reads and writes. *)

From Stdlib Require Import ZArith String List Bool Lia Permutation.
From Stdlib Require Import Floats Uint63.
From Stdlib Require Import Ascii DecimalString DecimalZ Sorted.
Import ListNotations.

Set Implicit Arguments.
Open Scope Z_scope.

(** ** Host primitives *)

Module JS.

(** Time values and numbers that may be [NaN]. *)
Definition Num := option Z.

(** [a > b]; any comparison with [NaN] is false. *)
Definition gt (a b : Num) : bool :=
  match a, b with
  | Some x, Some y => y <? x
  | _, _ => false
  end.

(** [a !== b] on numbers; [NaN] differs from everything. *)
Definition neq (a b : Num) : bool :=
  match a, b with
  | Some x, Some y => negb (x =? y)
  | _, _ => true
  end.

(** [a - b]. *)
Definition sub (a b : Num) : Num :=
  match a, b with
  | Some x, Some y => Some (x - y)
  | _, _ => None
  end.

(** [Math.round (n / d)] for a positive divisor: the nearest integer,
    halves going up.  The quotient is formed exactly; this agrees with
    the double quotient as long as [n] is below 2^53 in magnitude. *)
Definition roundDiv (n d : Z) : Z := (2 * n + d) / (2 * d).

(** [Array.prototype.find]. *)
Definition find {A} (p : A -> bool) (l : list A) : option A := List.find p l.

(** Position of the first element satisfying [p]. *)
Fixpoint findIndex {A} (p : A -> bool) (l : list A) : option nat :=
  match l with
  | [] => None
  | x :: l' => if p x then Some 0%nat
               else option_map S (findIndex p l')
  end.

(** [l.splice (index, 1)]. *)
Definition splice1 {A} (index : nat) (l : list A) : list A :=
  firstn index l ++ skipn (S index) l.

(** [Array.prototype.sort] with a comparator.  The sort is stable and a
    comparator result of [NaN] counts as [+0]; insertion from the right
    realises both.  Where the comparator is not a consistent order the
    language leaves the result open; of such a sort only the fact that
    it permutes the array is used. *)
Definition sortCompare (v : Num) : Z :=
  match v with Some z => z | None => 0 end.

Fixpoint insert {A} (cmp : A -> A -> Num) (x : A) (l : list A) : list A :=
  match l with
  | [] => [x]
  | y :: l' => if sortCompare (cmp x y) <=? 0 then x :: y :: l'
               else y :: insert cmp x l'
  end.

Fixpoint sort {A} (cmp : A -> A -> Num) (l : list A) : list A :=
  match l with
  | [] => []
  | x :: l' => insert cmp x (sort cmp l')
  end.

(** Integers as doubles (exact below 2^53). *)
Definition ofZ (z : Z) : float :=
  if z <? 0 then PrimFloat.opp (PrimFloat.of_uint63 (Uint63.of_Z (- z)))
  else PrimFloat.of_uint63 (Uint63.of_Z z).

(** [Number (x.toFixed (1))].  For a finite [x] below 1e21 in magnitude
    [toFixed] picks the integer [n] with [n / 10] nearest to the exact
    value of [x], the larger one on a tie, and [Number] reads the
    decimal back as the nearest double.  Where neighbouring doubles are
    at least 1/8 apart that double is [x] itself; below, [n] is an exact
    double and so the quotient is correctly rounded.  Infinities and
    [NaN] print as themselves. *)
Definition tenths (m : positive) (e : Z) : Z :=
  (20 * Z.pos m + 2 ^ (- e)) / 2 ^ (1 - e).

Definition toFixed1 (x : float) : float :=
  if PrimFloat.leb 1e21 (PrimFloat.abs x) then x
  else
    match Prim2SF x with
    | S754_finite s m e =>
        if -3 <=? e then x
        else
          let r := PrimFloat.div (ofZ (tenths m e)) (ofZ 10) in
          if s then PrimFloat.opp r else r
    | S754_zero _ => 0%float
    | _ => x
    end.

(** An array index: the decimal numeral, without sign or leading zero,
    of an integer from 0 to 2^32 - 2. *)
Definition arrayIndex (s : string) : option Z :=
  match NilZero.int_of_string s with
  | Some d =>
      let n := Z.of_int d in
      if (0 <=? n) && (n <=? 4294967294)
         && String.eqb (NilZero.string_of_int (Z.to_int n)) s
      then Some n else None
  | None => None
  end.

(** The names under which an object literal finds a truthy value that
    it does not own: the properties of [Object.prototype]. *)
Definition Prototype := list string.

Definition inherits (proto : Prototype) (name : string) : bool :=
  existsb (String.eqb name) proto.

(** [Object.prototype] as the engine creates it. *)
Definition builtin : Prototype :=
  ["constructor"; "__defineGetter__"; "__defineSetter__"; "hasOwnProperty";
   "__lookupGetter__"; "__lookupSetter__"; "isPrototypeOf";
   "propertyIsEnumerable"; "toString"; "valueOf"; "__proto__";
   "toLocaleString"]%string.

(** The own properties of an object, in the order in which [Object.keys]
    lists them.  [index k] is the array index that the key [k] spells,
    if any. *)
Section Obj.
Variables (K V : Type) (eqb : K -> K -> bool) (index : K -> option Z).

Definition Obj := list (K * V).

Fixpoint get (k : K) (o : Obj) : option V :=
    match o with
    | [] => None
    | (k', v) :: o' => if eqb k k' then Some v else get k o'
    end.

(** Whether a new key [k] is listed before the key [k']: an array index
    before a larger one and before every other key. *)
Definition before (k k' : K) : bool :=
  match index k, index k' with
  | Some i, Some j => i <? j
  | Some _, None => true
  | None, _ => false
  end.

(** A new key takes its place in the order of [Object.keys]. *)
Fixpoint place (k : K) (v : V) (o : Obj) : Obj :=
    match o with
    | [] => [(k, v)]
    | (k', v') :: o' => if before k k' then (k, v) :: o
                        else (k', v') :: place k v o'
    end.

(** The value of an own key is overwritten where it stands. *)
Fixpoint replace (k : K) (v : V) (o : Obj) : Obj :=
    match o with
    | [] => []
    | (k', v') :: o' => if eqb k k' then (k', v) :: o'
                        else (k', v') :: replace k v o'
    end.

(** [o[k] = v] for a key that [o] owns or that nothing on the prototype
    intercepts. *)
Definition set (k : K) (v : V) (o : Obj) : Obj :=
  match get k o with
  | Some _ => replace k v o
  | None => place k v o
  end.

Definition keys (o : Obj) : list K := map fst o.
End Obj.

End JS.

(** ** Data model *)

(** The string produced by [toLocaleDateString].  A valid instant prints
    as its local calendar date, identified here by the day number that
    the host time zone assigns to it; an invalid [Date] prints as
    ["Invalid Date"]. *)
Inductive DateString :=
| InvalidDate
| LocalDate (day : Z).

Definition DateString_eqb (a b : DateString) : bool :=
  match a, b with
  | InvalidDate, InvalidDate => true
  | LocalDate x, LocalDate y => x =? y
  | _, _ => false
  end.

(** Modelled from the spec: the interface [AttendanceRecord] of
    [../types] (the PunchEvent of section 3), with the fields the effect
    reads.  [rec_type] is ['check-in'] or ['check-out']; [rec_timestamp]
    is the time value of [new Date(record.timestamp)]. *)
Record AttendanceRecord := mkRecord {
  rec_id : string;
  rec_userId : string;
  rec_type : string;
  rec_timestamp : JS.Num
}.

(** Modelled from the spec: the interface [User] of [../types], with the
    fields the effect reads; a missing name or e-mail is the empty
    string. *)
Record User := mkUser {
  user_id : string;
  user_name : string;
  user_email : string;
  user_checkedIn : bool
}.

(** Modelled from the spec: the interface [ProcessedAttendanceRecord] of
    [../types] (the Session of section 3), with the fields the effect
    writes.  [duration] is absent unless it was assigned. *)
Record ProcessedAttendanceRecord := mkProcessed {
  userId : string;
  userName : string;
  userEmail : string;
  date : DateString;
  checkIn : option AttendanceRecord;
  checkOut : option AttendanceRecord;
  duration : option Z
}.

(** Modelled from the spec: the interface [UserStats] of [../types], as
    the object literal of lines 260-267 fills it. *)
Record UserStats := mkUserStats {
  name : string;
  email : string;
  totalMinutesToday : Z;
  totalHoursToday : float;
  totalMinutesAllTime : Z;
  totalHoursAllTime : float
}.

(** Modelled from the spec: the interface [DashboardStats] of [../types]
    (the OrgStats of section 3), as lines 288-293 fill it. *)
Record DashboardStats := mkDashboardStats {
  totalUsers : Z;
  checkedInUsers : Z;
  todayAttendance : Z;
  avgHoursToday : float
}.

(** The three pieces of component state that the effect writes. *)
Record DashboardState := mkState {
  processedAttendance : list ProcessedAttendanceRecord;
  userStats : JS.Obj string UserStats;
  dashboardStats : DashboardStats
}.

(** Values of the [useState] initialisers (lines 77-84). *)
Definition initialState : DashboardState :=
  mkState [] [] (mkDashboardStats 0 0 0 0%float).

Definition isCheckIn (r : AttendanceRecord) : bool :=
  String.eqb (rec_type r) "check-in".

Definition isCheckOut (r : AttendanceRecord) : bool :=
  String.eqb (rec_type r) "check-out".

(** [new Date(r.timestamp).getTime()]. *)
Definition getTime (r : AttendanceRecord) : JS.Num := rec_timestamp r.

(** [s || 'Unknown']. *)
Definition orUnknown (s : string) : string :=
  if String.eqb s EmptyString then "Unknown"%string else s.

(** ** The attendance-processing effect (lines 151-298) *)

Section Effect.

(** Host time zone: the local calendar day (a day number) of an instant. *)
Variable localDay : Z -> Z.

(** [new Date(s).getTime()] for a string [s] that [toLocaleDateString]
    printed; what it yields depends on the host locale. *)
Variable parseLocaleDate : DateString -> JS.Num.

(** The characters of a date string.  The host prints no date as the
    name of a property that the engine itself gives to its objects,
    functions and arrays (a date string is ["Invalid Date"] or holds
    digits with separators): a date string found on [Object.prototype]
    names an array that an earlier record left, and a date string is
    never found on a function or on an array of the engine. *)
Variable dateText : DateString -> string.

(** The names on [Object.prototype] when the effect starts. *)
Variable proto : JS.Prototype.

(** [new Date(t).toLocaleDateString()]. *)
Definition toLocaleDateString (t : JS.Num) : DateString :=
  match t with
  | Some ms => LocalDate (localDay ms)
  | None => InvalidDate
  end.

Definition DayBuckets := JS.Obj DateString (list AttendanceRecord).
Definition UserBuckets := JS.Obj string DayBuckets.

Definition dateIndex (d : DateString) : option Z := JS.arrayIndex (dateText d).

Definition getUser := @JS.get string DayBuckets String.eqb.
Definition setUser := @JS.set string DayBuckets String.eqb JS.arrayIndex.
Definition getDay := @JS.get DateString (list AttendanceRecord) DateString_eqb.
Definition setDay :=
  @JS.set DateString (list AttendanceRecord) DateString_eqb dateIndex.

(** The object of line 154 together with the names on
    [Object.prototype], which the grouping can extend. *)
Record Grouping := mkGrouping {
  recordsByUserAndDate : UserBuckets;
  prototypeNames : JS.Prototype
}.

(** The user id under which [recordsByUserAndDate[userId]] is
    [Object.prototype] itself: the accessor [__proto__], where the
    prototype has it. *)
Definition namesPrototype (names : JS.Prototype) (userId : string) : bool :=
  String.eqb userId "__proto__" && JS.inherits names userId.

(** Body of the grouping [forEach] (lines 156-169).  Both tests read
    through the prototype chain:
    - [recordsByUserAndDate[userId]] is the user's own object, or else
      what [Object.prototype] holds under that name (a function of the
      engine, [Object.prototype] itself for [__proto__], an array left
      under a date string); only when there is neither is a new own
      object made (lines 160-162);
    - [...[date]] on the user's own object is the own array, or else an
      array that [Object.prototype] holds under the date string; only
      when there is neither is a new own array made (lines 164-166);
    - the record is pushed onto the array found (line 168).
    A record pushed onto an inherited array, or filed on an inherited
    value, is in no own array of [recordsByUserAndDate]; filed on
    [Object.prototype] itself it leaves its date string there. *)
Definition groupRecord (g : Grouping) (record : AttendanceRecord)
    : Grouping :=
  let userId := rec_userId record in
  let date := toLocaleDateString (getTime record) in
  let obj := recordsByUserAndDate g in
  let names := prototypeNames g in
  match getUser userId obj with
  | Some days =>
      match getDay date days with
      | Some bucket =>
          mkGrouping
            (setUser userId (setDay date (bucket ++ [record]) days) obj) names
      | None =>
          if JS.inherits names (dateText date) then g
          else mkGrouping
                 (setUser userId (setDay date [record] days) obj) names
      end
  | None =>
      if JS.inherits names userId then
        if namesPrototype names userId
           && negb (JS.inherits names (dateText date))
        then mkGrouping obj (names ++ [dateText date])
        else g
      else
        if JS.inherits names (dateText date)
        then mkGrouping (setUser userId [] obj) names
        else mkGrouping (setUser userId (setDay date [record] []) obj) names
  end.

Definition grouping (attendanceRecords : list AttendanceRecord) : Grouping :=
  fold_left groupRecord attendanceRecords (mkGrouping [] proto).

Definition groupRecords (attendanceRecords : list AttendanceRecord)
    : UserBuckets :=
  recordsByUserAndDate (grouping attendanceRecords).

(** Comparator of the per-day sort (line 188). *)
Definition compareRecords (a b : AttendanceRecord) : JS.Num :=
  JS.sub (getTime a) (getTime b).

(** Predicate of the [find] at lines 198-201. *)
Definition isMatchFor (record r : AttendanceRecord) : bool :=
  isCheckOut r && JS.gt (getTime r) (getTime record).

(** [checkOutTime - checkInTime] (line 216).  It is only evaluated for a
    check-out returned by the [find], whose test makes both time values
    numbers (lemma [isMatchFor_times]); the last branch is never taken. *)
Definition durationMs (checkInRec checkOutRec : AttendanceRecord) : Z :=
  match getTime checkOutRec, getTime checkInRec with
  | Some o, Some i => o - i
  | _, _ => 0
  end.

(** State of the two loops over one day's records. *)
Record DayLoop := mkDayLoop {
  dayRecords : list AttendanceRecord;
  checkInsAndOuts : list ProcessedAttendanceRecord;
  userTotalMinutesToday : Z;
  userTotalMinutesAllTime : Z
}.

(** One iteration of the pairing loop at a check-in (lines 196-237). *)
Definition pairCheckIn (user : User) (userId : string)
    (date today : DateString) (record : AttendanceRecord) (st : DayLoop)
    : DayLoop :=
  let matchingCheckOut := JS.find (isMatchFor record) (dayRecords st) in
  let durationMinutes :=
    option_map (fun co => JS.roundDiv (durationMs record co) (1000 * 60))
               matchingCheckOut in
  let entry := mkProcessed userId (orUnknown (user_name user))
                 (orUnknown (user_email user)) date (Some record)
                 matchingCheckOut durationMinutes in
  let allTime := match durationMinutes with
                 | Some d => userTotalMinutesAllTime st + d
                 | None => userTotalMinutesAllTime st
                 end in
  let todayMin := match durationMinutes with
                  | Some d => if DateString_eqb date today
                              then userTotalMinutesToday st + d
                              else userTotalMinutesToday st
                  | None => userTotalMinutesToday st
                  end in
  (* [dayRecords.indexOf(matchingCheckOut)] compares references; the
     object that [find] returned sits first at the position where the
     predicate first holds. *)
  let remaining := match JS.findIndex (isMatchFor record) (dayRecords st) with
                   | Some index => JS.splice1 index (dayRecords st)
                   | None => dayRecords st
                   end in
  mkDayLoop remaining (checkInsAndOuts st ++ [entry]) todayMin allTime.

(** The pairing loop [for (let i = 0; i < dayRecords.length; i++)]
    (lines 193-238); the array shrinks while it is scanned.  [fuel]
    bounds the number of tests of the loop condition. *)
Fixpoint pairLoop (user : User) (userId : string) (date today : DateString)
    (fuel : nat) (i : nat) (st : DayLoop) : option DayLoop :=
  match fuel with
  | O => None
  | S fuel' =>
      match nth_error (dayRecords st) i with
      | None => Some st
      | Some record =>
          if isCheckIn record
          then pairLoop user userId date today fuel' (S i)
                 (pairCheckIn user userId date today record st)
          else pairLoop user userId date today fuel' (S i) st
      end
  end.

(** The second loop (lines 241-253): every check-out still in the array
    becomes an entry without check-in. *)
Definition pushOrphan (user : User) (userId : string) (date : DateString)
    (acc : list ProcessedAttendanceRecord) (record : AttendanceRecord)
    : list ProcessedAttendanceRecord :=
  if isCheckOut record
  then acc ++ [mkProcessed userId (orUnknown (user_name user))
                 (orUnknown (user_email user)) date None (Some record) None]
  else acc.

(** Both loops over one day's sorted records (lines 192-253), started
    with the user's running totals. *)
Definition pairDay (user : User) (userId : string) (date today : DateString)
    (sorted : list AttendanceRecord) (mToday mAllTime : Z) : DayLoop :=
  let st0 := mkDayLoop sorted [] mToday mAllTime in
  let st1 := match pairLoop user userId date today
                     (S (length sorted)) 0 st0 with
             | Some st => st
             | None => st0
             end in
  mkDayLoop (dayRecords st1)
    (fold_left (pushOrphan user userId date)
       (dayRecords st1) (checkInsAndOuts st1))
    (userTotalMinutesToday st1) (userTotalMinutesAllTime st1).

(** Accumulators of one user's pass. *)
Record UserLoop := mkUserLoop {
  processed : list ProcessedAttendanceRecord;
  minutesToday : Z;
  minutesAllTime : Z
}.

(** Body of the per-date [forEach] (lines 186-257). *)
Definition processDate (user : User) (userId : string) (today : DateString)
    (acc : UserLoop) (entry : DateString * list AttendanceRecord)
    : UserLoop :=
  let date := fst entry in
  let sorted := JS.sort compareRecords (snd entry) in
  let st := pairDay user userId date today sorted
              (minutesToday acc) (minutesAllTime acc) in
  mkUserLoop (processed acc ++ checkInsAndOuts st)
             (userTotalMinutesToday st) (userTotalMinutesAllTime st).

(** Accumulators of the pass over all users. *)
Record Totals := mkTotals {
  allProcessed : list ProcessedAttendanceRecord;
  stats : JS.Obj string UserStats;
  totalHoursTodaySum : float;
  usersWithHoursToday : Z
}.

(** [Math.floor(m / 60) + (m % 60) / 60] (lines 264 and 266). *)
Definition hoursOfMinutes (m : Z) : float :=
  PrimFloat.add (JS.ofZ (m / 60))
                (PrimFloat.div (JS.ofZ (Z.rem m 60)) (JS.ofZ 60)).

(** Body of the per-user [forEach] (lines 179-273). *)
Definition processUser (users : list User) (today : DateString)
    (acc : Totals) (entry : string * DayBuckets) : Totals :=
  let userId := fst entry in
  match JS.find (fun u => String.eqb (user_id u) userId) users with
  | None => acc
  | Some user =>
      let r := fold_left (processDate user userId today) (snd entry)
                 (mkUserLoop (allProcessed acc) 0 0) in
      let st := mkUserStats (user_name user) (user_email user)
                  (minutesToday r) (hoursOfMinutes (minutesToday r))
                  (minutesAllTime r) (hoursOfMinutes (minutesAllTime r)) in
      let active := 0 <? minutesToday r in
      mkTotals (processed r)
        (JS.set String.eqb JS.arrayIndex userId st (stats acc))
        (if active
         then PrimFloat.add (totalHoursTodaySum acc)
                (PrimFloat.div (JS.ofZ (minutesToday r)) (JS.ofZ 60))
         else totalHoursTodaySum acc)
        (if active then usersWithHoursToday acc + 1
         else usersWithHoursToday acc)
  end.

(** Endpoint used for the order inside a date (lines 281-282). *)
Definition entryTime (a : ProcessedAttendanceRecord) : JS.Num :=
  match checkIn a with
  | Some r => getTime r
  | None => match checkOut a with
            | Some r => getTime r
            | None => None
            end
  end.

(** Comparator of the final sort (lines 276-284). *)
Definition compareProcessed (a b : ProcessedAttendanceRecord) : JS.Num :=
  let dateA := parseLocaleDate (date a) in
  let dateB := parseLocaleDate (date b) in
  if JS.neq dateA dateB then JS.sub dateB dateA
  else JS.sub (entryTime b) (entryTime a).

(** [new Set(l).size] for a list of strings. *)
Definition distinctCount (l : list string) : Z :=
  Z.of_nat (length (nodup string_dec l)).

(** The guarded block (lines 153-296) for the clock reading [now]. *)
Definition processAttendance (now : Z)
    (attendanceRecords : list AttendanceRecord) (users : list User)
    : DashboardState :=
  let recordsByUserAndDate := groupRecords attendanceRecords in
  let today := toLocaleDateString (Some now) in
  let t := fold_left (processUser users today) recordsByUserAndDate
             (mkTotals [] [] 0%float 0) in
  let sortedProcessed := JS.sort compareProcessed (allProcessed t) in
  let todayRecords :=
    filter (fun r => DateString_eqb (date r) today) sortedProcessed in
  mkState sortedProcessed (stats t)
    (mkDashboardStats
       (Z.of_nat (length users))
       (Z.of_nat (length (filter user_checkedIn users)))
       (if (0 <? Z.of_nat (length todayRecords))%Z
        then distinctCount (map userId todayRecords) else 0)
       (if 0 <? usersWithHoursToday t
        then JS.toFixed1 (PrimFloat.div (totalHoursTodaySum t)
                            (JS.ofZ (usersWithHoursToday t)))
        else 0%float)).

(** The effect itself: it runs when [attendanceRecords] or [users]
    change, and touches the state only behind the guard of line 152. *)
Definition attendanceEffect (now : Z)
    (attendanceRecords : list AttendanceRecord) (users : list User)
    (st : DashboardState) : DashboardState :=
  if (0 <? length attendanceRecords)%nat && (0 <? length users)%nat
  then processAttendance now attendanceRecords users
  else st.

(** The names on [Object.prototype] when the effect has run: what the
    next run starts from. *)
Definition prototypeAfter (attendanceRecords : list AttendanceRecord)
    (users : list User) : JS.Prototype :=
  if (0 <? length attendanceRecords)%nat && (0 <? length users)%nat
  then prototypeNames (grouping attendanceRecords)
  else proto.

End Effect.

(** A host in the UTC zone whose locale parser reads a printed date back
    as its midnight. *)
Definition utcDay (ms : Z) : Z := ms / 86400000.

Definition utcParse (d : DateString) : JS.Num :=
  match d with
  | LocalDate n => Some (n * 86400000)
  | InvalidDate => None
  end.

Definition alice : User := mkUser "alice" "Alice" "alice@example.com" true.
Definition bob : User := mkUser "bob" "Bob" "bob@example.com" false.
Definition carol : User := mkUser "carol" EmptyString "carol@example.com" false.

Definition punch (id uid ty : string) (t : Z) : AttendanceRecord :=
  mkRecord id uid ty (Some t).

(** Milliseconds of the clock time [h]:[m] on day [d]. *)
Definition at_ (d h m : Z) : Z := d * 86400000 + (h * 60 + m) * 60000.

(** Sample inputs.  The records come from the store newest first. *)

(** One working day of alice: in at 09:00, out at 17:00. *)
Definition fullDay : list AttendanceRecord :=
  [punch "e2" "alice" "check-out" (at_ 0 17 0);
   punch "e1" "alice" "check-in" (at_ 0 9 0)].


(** Alice works two hours on day 1; bob punched in on day 0 only. *)
Definition oneActiveUser : list AttendanceRecord :=
  [punch "e3" "alice" "check-out" (at_ 1 11 0);
   punch "e2" "alice" "check-in" (at_ 1 9 0);
   punch "e1" "bob" "check-in" (at_ 0 9 0)].

(** A check-in by somebody who is not on the roster. *)
Definition strangerCheckIn : list AttendanceRecord :=
  [punch "e1" "mallory" "check-in" (at_ 0 9 0)].

(** A check-in whose timestamp does not parse. *)
Definition badCheckIn : AttendanceRecord :=
  mkRecord "e1" "alice" "check-in" None.

(** Out ten seconds after in. *)
Definition shortVisit : list AttendanceRecord :=
  [punch "e2" "alice" "check-out" (at_ 0 9 0 + 10000);
   punch "e1" "alice" "check-in" (at_ 0 9 0)].

(** In at 23:50, out at 00:10 of the next day. *)
Definition overMidnight : list AttendanceRecord :=
  [punch "e2" "alice" "check-out" (at_ 1 0 10);
   punch "e1" "alice" "check-in" (at_ 0 23 50)].

(** ** Reference pairing, in the words of the specification (section 4.2)

    The day's events are scanned in order.  Each check-in looks, among
    the events not yet removed, for the earliest check-out strictly after
    it; of two candidates with the same timestamp the one met first is
    kept.  A chosen check-out is removed; the check-outs that are left at
    the end become sessions without check-in. *)

Module Reference.

Definition laterCheckOut (c r : AttendanceRecord) : bool :=
  isCheckOut r && JS.gt (getTime r) (getTime c).

(** Scan with the best candidate so far: a later candidate replaces it
    only when it is strictly earlier. *)
Fixpoint earliestFrom (c : AttendanceRecord) (l : list AttendanceRecord)
    (pos : nat) (best : option (nat * AttendanceRecord))
    : option (nat * AttendanceRecord) :=
  match l with
  | [] => best
  | r :: l' =>
      let best' :=
        if laterCheckOut c r then
          match best with
          | None => Some (pos, r)
          | Some (_, b) => if JS.gt (getTime b) (getTime r)
                           then Some (pos, r) else best
          end
        else best in
      earliestFrom c l' (S pos) best'
  end.

Definition earliest (c : AttendanceRecord) (remaining : list AttendanceRecord)
    : option (nat * AttendanceRecord) :=
  earliestFrom c remaining 0%nat None.

Fixpoint removeAt {A} (n : nat) (l : list A) : list A :=
  match l, n with
  | [], _ => []
  | _ :: l', O => l'
  | x :: l', S n' => x :: removeAt n' l'
  end.

Definition Session := (option AttendanceRecord * option AttendanceRecord)%type.

Fixpoint greedy (checkIns remaining : list AttendanceRecord)
    : list Session * list AttendanceRecord :=
  match checkIns with
  | [] => ([], remaining)
  | c :: cs =>
      match earliest c remaining with
      | Some (pos, o) =>
          let (ss, rest) := greedy cs (removeAt pos remaining) in
          ((Some c, Some o) :: ss, rest)
      | None =>
          let (ss, rest) := greedy cs remaining in
          ((Some c, None) :: ss, rest)
      end
  end.

Definition sessions (events : list AttendanceRecord) : list Session :=
  let (ss, rest) := greedy (filter isCheckIn events) events in
  ss ++ map (fun o => (None, Some o)) (filter isCheckOut rest).

End Reference.

(** ** Vocabulary of the statements *)

(** No record is strictly later than one that follows it. *)
Inductive Ascending : list AttendanceRecord -> Prop :=
| Ascending_nil : Ascending []
| Ascending_cons r l :
    Forall (fun r' => JS.gt (getTime r) (getTime r') = false) l ->
    Ascending l -> Ascending (r :: l).


(** Minutes a session adds to a total. *)
Definition entryMinutes (e : ProcessedAttendanceRecord) : Z :=
  match duration e with Some d => d | None => 0 end.

Definition sumMinutes (l : list ProcessedAttendanceRecord) : Z :=
  fold_right (fun e s => entryMinutes e + s) 0 l.

Definition checkInsOf (l : list ProcessedAttendanceRecord)
    : list AttendanceRecord :=
  flat_map (fun e => match checkIn e with Some r => [r] | None => [] end) l.

Definition checkOutsOf (l : list ProcessedAttendanceRecord)
    : list AttendanceRecord :=
  flat_map (fun e => match checkOut e with Some r => [r] | None => [] end) l.

(** The record's user is on the roster. *)
Definition onRoster (users : list User) (r : AttendanceRecord) : bool :=
  existsb (fun u => String.eqb (user_id u) (rec_userId r)) users.

Definition sessionsOf (u : string) (l : list ProcessedAttendanceRecord)
    : list ProcessedAttendanceRecord :=
  filter (fun e => String.eqb (userId e) u) l.

Definition sessionsOn (d : DateString) (l : list ProcessedAttendanceRecord)
    : list ProcessedAttendanceRecord :=
  filter (fun e => DateString_eqb (date e) d) l.

(** What every session of user [uid] on [day] looks like. *)
Definition WellFormed (uid : string) (day : DateString)
    (e : ProcessedAttendanceRecord) : Prop :=
  userId e = uid /\ date e = day /\
  match checkIn e, checkOut e with
  | Some ci, Some co =>
      isCheckIn ci = true /\ isMatchFor ci co = true /\
      duration e = Some (JS.roundDiv (durationMs ci co) 60000)
  | Some ci, None => isCheckIn ci = true /\ duration e = None
  | None, Some co => isCheckOut co = true /\ duration e = None
  | None, None => False
  end.

(** Hours that a minute total adds to the running sum of line 270. *)
Definition hoursShare (m : Z) : float :=
  PrimFloat.div (JS.ofZ m) (JS.ofZ 60).

(** The check-ins of a day handled one after the other, each by the
    loop body. *)
Definition pairAll (user : User) (uid : string) (day today : DateString)
    (checkIns : list AttendanceRecord) (st : DayLoop) : DayLoop :=
  fold_left (fun s c => pairCheckIn user uid day today c s) checkIns st.

(** The session without check-in that the second loop pushes. *)
Definition orphanEntry (user : User) (uid : string) (day : DateString)
    (r : AttendanceRecord) : ProcessedAttendanceRecord :=
  mkProcessed uid (orUnknown (user_name user)) (orUnknown (user_email user))
    day None (Some r) None.

(** All records held by the buckets of a user, and of all users. *)
Definition dayRecordsOf (days : JS.Obj DateString (list AttendanceRecord))
    : list AttendanceRecord :=
  flat_map snd days.

Definition bucketRecords
    (obj : JS.Obj string (JS.Obj DateString (list AttendanceRecord)))
    : list AttendanceRecord :=
  flat_map (fun e => dayRecordsOf (snd e)) obj.

(** Every bucket holds records of its own user and date string only. *)
Definition DaysOk (localDay : Z -> Z) (u : string)
    (days : JS.Obj DateString (list AttendanceRecord)) : Prop :=
  Forall (fun b => Forall (fun r =>
            rec_userId r = u /\
            toLocaleDateString localDay (getTime r) = fst b) (snd b)) days.

Definition BucketsOk (localDay : Z -> Z)
    (obj : JS.Obj string (JS.Obj DateString (list AttendanceRecord))) : Prop :=
  Forall (fun e => DaysOk localDay (fst e) (snd e) /\
                   Forall (fun b => snd b <> []) (snd e)) obj.

(** The keys stand in the order of [Object.keys]: none is listed after
    a key that it comes before. *)
Definition KeyOrdered {K V} (index : K -> option Z) (o : JS.Obj K V) : Prop :=
  StronglySorted (fun a b => JS.before index b a = false) (JS.keys o).

(** Whether the body of the grouping puts the record into an own array
    of the object of line 154: the user's object and the date's array
    are there already, or no name on the prototype stands in for
    them. *)
Definition filed (localDay : Z -> Z) (dateText : DateString -> string)
    (g : Grouping) (r : AttendanceRecord) : bool :=
  let date := toLocaleDateString localDay (getTime r) in
  match getUser (rec_userId r) (recordsByUserAndDate g) with
  | Some days =>
      match getDay date days with
      | Some _ => true
      | None => negb (JS.inherits (prototypeNames g) (dateText date))
      end
  | None =>
      negb (JS.inherits (prototypeNames g) (rec_userId r))
      && negb (JS.inherits (prototypeNames g) (dateText date))
  end.

(** The records that the grouping files, in the order of the input. *)
Fixpoint filedRecords (localDay : Z -> Z) (dateText : DateString -> string)
    (g : Grouping) (records : list AttendanceRecord)
    : list AttendanceRecord :=
  match records with
  | [] => []
  | r :: rest =>
      (if filed localDay dateText g r then [r] else [])
      ++ filedRecords localDay dateText
           (groupRecord localDay dateText g r) rest
  end.

(** Neither the record's user id nor its date string is a name on the
    prototype. *)
Definition plainKeys (localDay : Z -> Z) (dateText : DateString -> string)
    (proto : JS.Prototype) (r : AttendanceRecord) : bool :=
  negb (JS.inherits proto (rec_userId r))
  && negb (JS.inherits proto
             (dateText (toLocaleDateString localDay (getTime r)))).

Definition PlainKeys (localDay : Z -> Z) (dateText : DateString -> string)
    (proto : JS.Prototype) (records : list AttendanceRecord) : Prop :=
  Forall (fun r => plainKeys localDay dateText proto r = true) records.

(** The key is no array index. *)
Definition notIndex (u : string) : bool :=
  match JS.arrayIndex u with Some _ => false | None => true end.

(** No record is filed on [Object.prototype] itself. *)
Definition Unpolluted (proto : JS.Prototype)
    (records : list AttendanceRecord) : Prop :=
  Forall (fun r => namesPrototype proto (rec_userId r) = false) records.

(** The shape of the object of line 154 at every moment of the grouping. *)
Definition GroupingOk (localDay : Z -> Z) (dateText : DateString -> string)
    (obj : JS.Obj string (JS.Obj DateString (list AttendanceRecord))) : Prop :=
  NoDup (JS.keys obj) /\ KeyOrdered JS.arrayIndex obj /\
  BucketsOk localDay obj /\
  Forall (fun e => NoDup (JS.keys (snd e)) /\
                   KeyOrdered (dateIndex dateText) (snd e)) obj.

(** The roster lookup of line 180. *)
Definition findUser (users : list User) (uid : string) : option User :=
  JS.find (fun u => String.eqb (user_id u) uid) users.

(** One user's pass started from empty accumulators. *)
Definition userLoop (user : User) (uid : string) (today : DateString)
    (days : DayBuckets) : UserLoop :=
  fold_left (processDate user uid today) days (mkUserLoop [] 0 0).

(** Sessions and statistics entry that one key of the buckets yields. *)
Definition userSessions (users : list User) (today : DateString)
    (entry : string * DayBuckets) : list ProcessedAttendanceRecord :=
  match findUser users (fst entry) with
  | Some user => processed (userLoop user (fst entry) today (snd entry))
  | None => []
  end.

Definition userStatsOf (users : list User) (today : DateString)
    (entry : string * DayBuckets) : list (string * UserStats) :=
  match findUser users (fst entry) with
  | Some user =>
      let r := userLoop user (fst entry) today (snd entry) in
      [(fst entry,
        mkUserStats (user_name user) (user_email user)
          (minutesToday r) (hoursOfMinutes (minutesToday r))
          (minutesAllTime r) (hoursOfMinutes (minutesAllTime r)))]
  | None => []
  end.

(** Users counted in the average: those with minutes today. *)
Definition activeToday (st : UserStats) : bool := 0 <? totalMinutesToday st.

(** The average in the words of the claim: the mean of the fields
    [totalHoursToday] of the users with minutes today, rounded to one
    decimal, and 0 when there is no such user. *)
Definition meanOfHoursToday (stats : JS.Obj string UserStats) : float :=
  match filter activeToday (map snd stats) with
  | [] => 0%float
  | active =>
      JS.toFixed1
        (PrimFloat.div
           (fold_left (fun a st => PrimFloat.add a (totalHoursToday st))
                      active 0%float)
           (JS.ofZ (Z.of_nat (length active))))
  end.

(** The endpoints of a session carry its user and its date string. *)
Definition FromBucket (localDay : Z -> Z) (e : ProcessedAttendanceRecord)
    : Prop :=
  forall r, checkIn e = Some r \/ checkOut e = Some r ->
            rec_userId r = userId e /\
            toLocaleDateString localDay (getTime r) = date e.

(** Lines 269-272 for one statistics entry. *)
Definition addShare (acc : float) (st : UserStats) : float :=
  if activeToday st
  then PrimFloat.add acc (hoursShare (totalMinutesToday st))
  else acc.


(** ** The screens that read the state (lines 420-760) *)

(** [String(n)] for an integer [n] below 1e21 in magnitude: its decimal
    digits, with a minus sign when negative. *)
Definition numberToString (n : Z) : string :=
  NilZero.string_of_int (Z.to_int n).

(** The sample host prints a local day by its number. *)
Definition utcText (d : DateString) : string :=
  match d with
  | LocalDate n => String.append "day " (numberToString n)
  | InvalidDate => "Invalid Date"
  end.

(** [formatDuration] (lines 421-434).  [None] stands for the values that
    the first test turns into ['N/A']: [undefined], [null] and [NaN]. *)
Definition formatDuration (minutes : option Z) : string :=
  match minutes with
  | None => "N/A"
  | Some m =>
      let hours := m / 60 in
      let mins := Z.rem m 60 in
      if hours =? 0 then String.append (numberToString mins) " min"
      else if mins =? 0 then String.append (numberToString hours) " hr"
      else String.append (numberToString hours)
             (String.append " hr "
                (String.append (numberToString mins) " min"))
  end.

(** The em dash of the table cells, as its three bytes. *)
Definition dash : string :=
  String (ascii_of_nat 226) (String (ascii_of_nat 128)
    (String (ascii_of_nat 148) EmptyString)).

(** The duration cell of a row (lines 524 and 734):
    [record.duration ? formatDuration(record.duration) : dash]. *)
Definition durationCell (record : ProcessedAttendanceRecord) : string :=
  match duration record with
  | Some d => if d =? 0 then dash else formatDuration (Some d)
  | None => dash
  end.

(** Rows of the card "Today's Attendance" (lines 487-499), drawn when
    the clock reads [renderNow]. *)
Definition todayRows (localDay : Z -> Z) (renderNow : Z)
    (st : DashboardState) : list ProcessedAttendanceRecord :=
  filter (fun record =>
            DateString_eqb (date record)
              (toLocaleDateString localDay (Some renderNow)))
         (processedAttendance st).

(** Card "User Productivity (Today)" (lines 542-552): whether it has
    rows, and its rows. *)
Definition productivityShown (st : DashboardState) : bool :=
  existsb (fun user => 0 <? totalMinutesToday user) (map snd (userStats st)).

Definition compareProductivity (a b : string * UserStats) : JS.Num :=
  Some (totalMinutesToday (snd b) - totalMinutesToday (snd a)).

Definition productivityRows (st : DashboardState)
    : list (string * UserStats) :=
  JS.sort compareProductivity
    (filter (fun kv => 0 <? totalMinutesToday (snd kv)) (userStats st)).

(** [Array.from(new Set(l))]: the distinct values in the order of their
    first occurrence. *)
Definition setValues {A} (eqb : A -> A -> bool) (l : list A) : list A :=
  fold_left (fun seen x => if existsb (eqb x) seen then seen else seen ++ [x])
            l [].

(** The detail screen of [selectedUser] (lines 580-684): the user's
    sessions, the dates that head the groups, the rows of a group and
    the total shown in its header. *)
Definition userAttendance (st : DashboardState) (selectedUser : string)
    : list ProcessedAttendanceRecord :=
  filter (fun record => String.eqb (userId record) selectedUser)
         (processedAttendance st).

Definition dateGroups (parseLocaleDate : DateString -> JS.Num)
    (attendance : list ProcessedAttendanceRecord) : list DateString :=
  JS.sort (fun a b => JS.sub (parseLocaleDate b) (parseLocaleDate a))
          (setValues DateString_eqb (map date attendance)).

Definition groupRows (attendance : list ProcessedAttendanceRecord)
    (d : DateString) : list ProcessedAttendanceRecord :=
  filter (fun record => DateString_eqb (date record) d) attendance.

Definition dayTotalMinutes (rows : list ProcessedAttendanceRecord) : Z :=
  fold_left (fun total record =>
               total + match duration record with
                       | Some d => d
                       | None => 0
                       end)
            rows 0.

(** ** Vocabulary of the further properties *)

(** The session carries the id of [user] and the name and e-mail shown
    for [user]. *)
Definition NamedAfter (user : User) (e : ProcessedAttendanceRecord) : Prop :=
  userId e = user_id user /\
  userName e = orUnknown (user_name user) /\
  userEmail e = orUnknown (user_email user).

(** Newest first: a later local day first, and on one day the later
    endpoint first. *)
Definition newerFirst (a b : ProcessedAttendanceRecord) : Prop :=
  match date a, date b, entryTime a, entryTime b with
  | LocalDate da, LocalDate db, Some ta, Some tb =>
      db < da \/ (da = db /\ tb <= ta)
  | _, _, _, _ => False
  end.

(** The host reads its own date strings back in the order of the days. *)
Definition parsesInOrder (parseLocaleDate : DateString -> JS.Num) : Prop :=
  forall m n, m < n ->
    exists x y, parseLocaleDate (LocalDate m) = Some x /\
                parseLocaleDate (LocalDate n) = Some y /\ x < y.

(** The bucket of a user and a date string, empty when a key is missing. *)
Definition bucketOf (obj : UserBuckets) (u : string) (d : DateString)
    : list AttendanceRecord :=
  match getUser u obj with
  | Some days => match getDay d days with
                 | Some b => b
                 | None => []
                 end
  | None => []
  end.

Definition sumZ (l : list Z) : Z := fold_right Z.add 0 l.

(** The day of [fullDay] with a punch under the user id [__proto__]
    after alice's. *)
Definition protoPunch : list AttendanceRecord :=
  fullDay ++ [punch "e3" "__proto__" "check-in" (at_ 0 12 0)].

(** Alice stays one minute and bob two hours and 41 minutes, both on
    day 0. *)
Definition unevenDay : list AttendanceRecord :=
  [punch "e4" "bob" "check-out" (at_ 0 11 41);
   punch "e3" "bob" "check-in" (at_ 0 9 0);
   punch "e2" "alice" "check-out" (at_ 0 9 1);
   punch "e1" "alice" "check-in" (at_ 0 9 0)].

(** Three users punch in on day 0: [bob] first, then the users with the
    ids [10] and [9]. *)
Definition ten : User := mkUser "10" "Ten" "ten@example.com" false.
Definition nine : User := mkUser "9" "Nine" "nine@example.com" false.

Definition numberedUsers : list AttendanceRecord :=
  [punch "e1" "bob" "check-in" (at_ 0 9 0);
   punch "e2" "10" "check-in" (at_ 0 9 5);
   punch "e3" "9" "check-in" (at_ 0 9 10)].

(** A roster member whose id is the name of a builtin property, with a
    full day of punches. *)
Definition connie : User :=
  mkUser "constructor" "Connie" "connie@example.com" false.

Definition connieDay : list AttendanceRecord :=
  [punch "e2" "constructor" "check-out" (at_ 0 17 0);
   punch "e1" "constructor" "check-in" (at_ 0 9 0)].

(** Further samples: the session and the statistics of [fullDay], and a
    day on which alice checked out before she checked in. *)
Definition fullDaySession : ProcessedAttendanceRecord :=
  mkProcessed "alice" "Alice" "alice@example.com" (LocalDate 0)
    (Some (punch "e1" "alice" "check-in" (at_ 0 9 0)))
    (Some (punch "e2" "alice" "check-out" (at_ 0 17 0)))
    (Some 480).

Definition fullDayStats : UserStats :=
  mkUserStats "Alice" "alice@example.com" 480 8%float 480 8%float.

Definition outBeforeIn : list AttendanceRecord :=
  [punch "e2" "alice" "check-in" (at_ 0 9 0);
   punch "e1" "alice" "check-out" (at_ 0 8 0)].

Definition openSession : ProcessedAttendanceRecord :=
  mkProcessed "alice" "Alice" "alice@example.com" (LocalDate 0)
    (Some (punch "e2" "alice" "check-in" (at_ 0 9 0))) None None.

Definition strayCheckOut : ProcessedAttendanceRecord :=
  mkProcessed "alice" "Alice" "alice@example.com" (LocalDate 0)
    None (Some (punch "e1" "alice" "check-out" (at_ 0 8 0))) None.

(** ** Lists and dictionaries *)

Lemma DateString_eqb_eq a b : DateString_eqb a b = true <-> a = b.
Proof.
  destruct a, b; simpl; split; intro H; try discriminate; auto.
  - apply Z.eqb_eq in H. now subst.
  - injection H as ->. apply Z.eqb_refl.
Qed.

Lemma DateString_eqb_refl a : DateString_eqb a a = true.
Proof. now apply DateString_eqb_eq. Qed.

Lemma checkIn_not_checkOut r : isCheckIn r = true -> isCheckOut r = false.
Proof.
  unfold isCheckIn, isCheckOut. intro H. apply String.eqb_eq in H.
  now rewrite H.
Qed.

Section ListFacts.
Variable A : Type.
Implicit Types (p : A -> bool) (l : list A).

Lemma findIndex_none p l :
  JS.findIndex p l = None ->
  JS.find p l = None /\ Forall (fun x => p x = false) l.
Proof.
  induction l as [|x l IH]; simpl; intro H; [now split|].
  unfold JS.find in *. simpl. destruct (p x) eqn:E; [discriminate|].
  destruct (JS.findIndex p l); [discriminate|].
  destruct (IH eq_refl) as [H1 H2]. split; [exact H1|now constructor].
Qed.

Lemma findIndex_some p l i :
  JS.findIndex p l = Some i ->
  exists l1 x l2,
    l = l1 ++ x :: l2 /\ length l1 = i /\ p x = true /\
    Forall (fun y => p y = false) l1 /\
    JS.find p l = Some x /\ JS.splice1 i l = l1 ++ l2.
Proof.
  revert i. induction l as [|x l IH]; simpl; intros i H; [discriminate|].
  unfold JS.find in *. simpl. destruct (p x) eqn:E.
  - injection H as <-. exists [], x, l. now repeat split.
  - destruct (JS.findIndex p l) as [j|] eqn:F; [|discriminate].
    injection H as <-. destruct (IH j eq_refl) as (l1 & y & l2 & -> & Hl & Hy & Hf & Hfind & Hs).
    exists (x :: l1), y, l2. subst j.
    split; [reflexivity|]. split; [reflexivity|]. split; [exact Hy|].
    split; [now constructor|]. split; [exact Hfind|].
    rewrite <- app_comm_cons, <- Hs. reflexivity.
Qed.

Lemma findIndex_app_skip p l1 l2 :
  Forall (fun x => p x = false) l1 ->
  JS.findIndex p (l1 ++ l2)
  = option_map (fun k => (length l1 + k)%nat) (JS.findIndex p l2).
Proof.
  induction 1 as [|x l1 Hx _ IH]; simpl.
  - now destruct (JS.findIndex p l2).
  - rewrite Hx, IH. now destruct (JS.findIndex p l2).
Qed.


Lemma splice1_app l1 l2 k :
  JS.splice1 (length l1 + k) (l1 ++ l2) = l1 ++ JS.splice1 k l2.
Proof.
  induction l1 as [|x l1 IH]; [reflexivity|].
  change (JS.splice1 (length (x :: l1) + k) ((x :: l1) ++ l2))
    with (x :: JS.splice1 (length l1 + k) (l1 ++ l2)).
  now rewrite IH.
Qed.


Lemma Permutation_filter p l l' :
  Permutation l l' -> Permutation (filter p l) (filter p l').
Proof.
  induction 1; simpl.
  - constructor.
  - destruct (p x); auto.
  - destruct (p x), (p y); auto. constructor.
  - etransitivity; eauto.
Qed.

Lemma filter_all_false p l :
  Forall (fun x => p x = false) l -> filter p l = [].
Proof.
  induction 1 as [|x l Hx _ IH]; simpl; [easy|]. now rewrite Hx.
Qed.

Lemma insert_perm (cmp : A -> A -> JS.Num) x l :
  Permutation (JS.insert cmp x l) (x :: l).
Proof.
  induction l as [|y l IH]; simpl; [auto|].
  destruct (JS.sortCompare (cmp x y) <=? 0); [auto|].
  rewrite IH. apply perm_swap.
Qed.

Lemma sort_perm (cmp : A -> A -> JS.Num) l :
  Permutation (JS.sort cmp l) l.
Proof.
  induction l as [|x l IH]; simpl; [auto|].
  rewrite insert_perm. now constructor.
Qed.

End ListFacts.

(** ** Ascending days *)

Lemma Ascending_app_inv l1 l2 :
  Ascending (l1 ++ l2) ->
  Ascending l1 /\ Ascending l2 /\
  Forall (fun a => Forall (fun b => JS.gt (getTime a) (getTime b) = false) l2) l1.
Proof.
  induction l1 as [|x l1 IH]; simpl; intro H.
  - repeat split; [constructor|exact H|constructor].
  - inversion H as [|? ? Hx Hl]; subst.
    destruct (IH Hl) as (H1 & H2 & H3).
    apply Forall_app in Hx as [Hx1 Hx2].
    repeat split; [now constructor|exact H2|now constructor].
Qed.

Lemma Ascending_app l1 l2 :
  Ascending l1 -> Ascending l2 ->
  Forall (fun a => Forall (fun b => JS.gt (getTime a) (getTime b) = false) l2) l1 ->
  Ascending (l1 ++ l2).
Proof.
  induction 1 as [|x l1 Hx Hl IH]; simpl; intros H2 H; [exact H2|].
  inversion H; subst. constructor; [|now apply IH].
  apply Forall_app. now split.
Qed.

Lemma Ascending_remove l1 x l2 :
  Ascending (l1 ++ x :: l2) -> Ascending (l1 ++ l2).
Proof.
  intro H. apply Ascending_app_inv in H as (H1 & H2 & H3).
  inversion H2; subst. apply Ascending_app; auto.
  eapply Forall_impl; [|exact H3]. intros a Ha. now inversion Ha.
Qed.

Lemma Ascending_before l1 x l2 :
  Ascending (l1 ++ x :: l2) ->
  Forall (fun a => JS.gt (getTime a) (getTime x) = false) l1.
Proof.
  intro H. apply Ascending_app_inv in H as (_ & _ & H3).
  eapply Forall_impl; [|exact H3]. intros a Ha. now inversion Ha.
Qed.

Lemma gt_valid a b : JS.gt a b = true -> exists x y, a = Some x /\ b = Some y /\ y < x.
Proof.
  destruct a as [x|], b as [y|]; simpl; try discriminate.
  intro H. apply Z.ltb_lt in H. eauto.
Qed.

(** The test of the [find] makes both time values numbers. *)
Lemma isMatchFor_times c o :
  isMatchFor c o = true ->
  isCheckOut o = true /\
  exists ti to, getTime c = Some ti /\ getTime o = Some to /\ ti < to /\
                durationMs c o = to - ti.
Proof.
  unfold isMatchFor. intro H. apply andb_true_iff in H as [H1 H2].
  split; [exact H1|]. apply gt_valid in H2 as (x & y & Hx & Hy & Hlt).
  exists y, x. unfold durationMs. rewrite Hx, Hy. auto.
Qed.

(** Insertion keeps a day of valid timestamps ascending. *)
Lemma insert_ascending x l :
  getTime x <> None -> Forall (fun r => getTime r <> None) l ->
  Ascending l -> Ascending (JS.insert compareRecords x l).
Proof.
  intros Hx Hall Hasc. induction Hasc as [|y l Hy Hl IH]; simpl.
  - repeat constructor.
  - inversion Hall as [|? ? Hyv Hlv]; subst.
    unfold compareRecords at 1.
    destruct (getTime x) as [tx|] eqn:Ex; [|congruence].
    destruct (getTime y) as [ty|] eqn:Ey; [|congruence].
    simpl. destruct (tx - ty <=? 0) eqn:E.
    + apply Z.leb_le in E. constructor;
        [|constructor; [now rewrite Ey|exact Hl]].
      constructor.
      * rewrite Ex, Ey. simpl. apply Z.ltb_ge. lia.
      * eapply Forall_impl; [|exact Hy]. intros r Hr. rewrite Ex.
        cbv beta in Hr.
        destruct (getTime r) as [tr|]; simpl in *; [|easy].
        apply Z.ltb_ge. apply Z.ltb_ge in Hr. lia.
    + apply Z.leb_gt in E. constructor; [|now apply IH].
      assert (Hperm := insert_perm compareRecords x l).
      apply Forall_forall. intros r Hr.
      apply (Permutation_in _ Hperm) in Hr. destruct Hr as [<-|Hr].
      * rewrite Ex, Ey. simpl. apply Z.ltb_ge. lia.
      * rewrite Forall_forall in Hy. rewrite Ey. now apply Hy.
Qed.

Lemma sort_ascending_valid l :
  Forall (fun r => getTime r <> None) l -> Ascending (JS.sort compareRecords l).
Proof.
  induction 1 as [|x l Hx Hl IH]; simpl; [constructor|].
  apply insert_ascending; auto.
  apply Forall_forall. intros r Hr.
  apply (Permutation_in _ (sort_perm compareRecords l)) in Hr.
  rewrite Forall_forall in Hl. now apply Hl.
Qed.

Lemma ascending_invalid l :
  Forall (fun r => getTime r = None) l -> Ascending l.
Proof.
  induction 1 as [|x l Hx Hl IH]; constructor; auto.
  rewrite Hx. apply Forall_forall. now intros.
Qed.

(** A bucket holds records of one date string, so its sort is ascending. *)
Lemma sort_bucket_ascending (localDay : Z -> Z) d l :
  Forall (fun r => toLocaleDateString localDay (getTime r) = d) l ->
  Ascending (JS.sort compareRecords l).
Proof.
  intro H. destruct d as [|n].
  - apply ascending_invalid. apply Forall_forall. intros r Hr.
    apply (Permutation_in _ (sort_perm compareRecords l)) in Hr.
    rewrite Forall_forall in H. specialize (H r Hr).
    destruct (getTime r); [discriminate|reflexivity].
  - apply sort_ascending_valid. eapply Forall_impl; [|exact H].
    intros r Hr E. cbv beta in Hr. rewrite E in Hr. discriminate.
Qed.

(** ** The pairing loop *)

Section Pairing.
Variables (user : User) (uid : string) (day today : DateString).

Let step := pairCheckIn user uid day today.
Let openEntry (c : AttendanceRecord) :=
  mkProcessed uid (orUnknown (user_name user)) (orUnknown (user_email user))
    day (Some c) None None.
Let matchedEntry (c co : AttendanceRecord) :=
  mkProcessed uid (orUnknown (user_name user)) (orUnknown (user_email user))
    day (Some c) (Some co) (Some (JS.roundDiv (durationMs c co) 60000)).

(** The two outcomes of the loop body at a check-in. *)
Lemma pairCheckIn_cases c st :
  (JS.findIndex (isMatchFor c) (dayRecords st) = None /\
   step c st = mkDayLoop (dayRecords st) (checkInsAndOuts st ++ [openEntry c])
                 (userTotalMinutesToday st) (userTotalMinutesAllTime st))
  \/
  (exists l1 co l2,
     dayRecords st = l1 ++ co :: l2 /\
     Forall (fun y => isMatchFor c y = false) l1 /\
     isMatchFor c co = true /\
     step c st = mkDayLoop (l1 ++ l2)
                   (checkInsAndOuts st ++ [matchedEntry c co])
                   (if DateString_eqb day today
                    then userTotalMinutesToday st
                         + JS.roundDiv (durationMs c co) 60000
                    else userTotalMinutesToday st)
                   (userTotalMinutesAllTime st
                    + JS.roundDiv (durationMs c co) 60000)).
Proof.
  unfold step, pairCheckIn.
  destruct (JS.findIndex (isMatchFor c) (dayRecords st)) as [i|] eqn:E.
  - right. apply findIndex_some in E
      as (l1 & co & l2 & Hd & Hlen & Hco & Hl1 & Hfind & Hsplice).
    exists l1, co, l2. rewrite Hfind, Hsplice. simpl. auto.
  - left. apply findIndex_none in E as [Hfind _]. rewrite Hfind. simpl. auto.
Qed.



(** On an ascending day the matched check-out always lies after the
    index of the loop, so no record is skipped: the loop handles the
    check-ins of the day one after the other. *)
Lemma pairLoop_ascending fuel : forall done todo st,
  dayRecords st = done ++ todo ->
  Ascending (done ++ todo) ->
  (length todo < fuel)%nat ->
  pairLoop user uid day today fuel (length done) st
  = Some (pairAll user uid day today (filter isCheckIn todo) st).
Proof.
  induction fuel as [|fuel IH]; intros done todo st Hd Hasc Hfuel; [lia|].
  simpl. rewrite Hd, nth_error_app2, Nat.sub_diag by lia.
  destruct todo as [|r todo]; simpl; [reflexivity|].
  destruct (isCheckIn r) eqn:Er.
  - simpl. fold step.
    assert (Hbefore : Forall (fun y => isMatchFor r y = false) (done ++ [r])).
    { apply Forall_app. split.
      - eapply Forall_impl; [|exact (Ascending_before _ _ _ Hasc)].
        intros a Ha. unfold isMatchFor. cbv beta in Ha. rewrite Ha.
        apply andb_false_r.
      - constructor; [|constructor]. unfold isMatchFor.
        now rewrite (checkIn_not_checkOut _ Er). }
    assert (Hd' : dayRecords st = (done ++ [r]) ++ todo)
      by now rewrite <- app_assoc.
    destruct (pairCheckIn_cases r st)
      as [[Hnone Hst]|(l1 & co & l2 & Hsplit & Hl1 & Hco & Hst)].
    + replace (S (length done)) with (length (done ++ [r]))
        by (rewrite length_app; simpl; lia).
      apply IH.
      * fold step. rewrite Hst. exact Hd'.
      * now rewrite <- app_assoc.
      * simpl in Hfuel. lia.
    + (* the match sits in [todo] *)
      assert (Hidx := findIndex_app_skip (isMatchFor r) todo Hbefore).
      rewrite <- Hd' in Hidx.
      destruct (JS.findIndex (isMatchFor r) todo) as [k|] eqn:Ek.
      * apply findIndex_some in Ek
          as (t1 & co' & t2 & Htodo & Hk & Hco' & Ht1 & _ & _).
        assert (Hst' : dayRecords (step r st) = (done ++ [r]) ++ t1 ++ t2).
        { unfold step, pairCheckIn. cbv zeta. rewrite Hidx. simpl.
          rewrite Hd', splice1_app. f_equal.
          rewrite Htodo, <- Hk.
          replace (length t1) with (length t1 + 0)%nat by lia.
          now rewrite splice1_app. }
        replace (S (length done)) with (length (done ++ [r]))
          by (rewrite length_app; simpl; lia).
        replace (filter isCheckIn todo) with (filter isCheckIn (t1 ++ t2)).
        -- apply IH.
           ++ exact Hst'.
           ++ rewrite <- app_assoc. simpl. subst todo.
              replace (done ++ r :: t1 ++ t2) with ((done ++ r :: t1) ++ t2)
                by now rewrite <- app_assoc.
              apply (Ascending_remove (done ++ r :: t1) co' t2).
              now rewrite <- app_assoc.
           ++ subst todo. simpl in Hfuel. rewrite length_app in *.
              simpl in Hfuel. lia.
        -- subst todo. rewrite !filter_app. simpl.
           apply andb_true_iff in Hco' as [Hco' _].
           destruct (isCheckIn co') eqn:Eco; [|reflexivity].
           apply checkIn_not_checkOut in Eco. congruence.
      * (* impossible: [find] succeeded *)
        simpl in Hidx.
        assert (Hf := findIndex_none _ _ Hidx).
        destruct Hf as [_ Hf]. rewrite Hsplit in Hf.
        apply Forall_app in Hf as [_ Hf]. inversion Hf; congruence.
  - replace (S (length done)) with (length (done ++ [r]))
      by (rewrite length_app; simpl; lia).
    apply IH.
    + now rewrite <- app_assoc.
    + now rewrite <- app_assoc.
    + simpl in Hfuel. lia.
Qed.

End Pairing.

(** ** Sessions of one day *)

Lemma sumMinutes_app l1 l2 :
  sumMinutes (l1 ++ l2) = sumMinutes l1 + sumMinutes l2.
Proof.
  unfold sumMinutes. induction l1 as [|e l1 IH]; simpl; [reflexivity|].
  rewrite IH. lia.
Qed.

Lemma sumMinutes_cons e l :
  sumMinutes (e :: l) = entryMinutes e + sumMinutes l.
Proof. reflexivity. Qed.

Lemma checkOutsOf_app l1 l2 :
  checkOutsOf (l1 ++ l2) = checkOutsOf l1 ++ checkOutsOf l2.
Proof. apply flat_map_app. Qed.

Lemma checkInsOf_app l1 l2 :
  checkInsOf (l1 ++ l2) = checkInsOf l1 ++ checkInsOf l2.
Proof. apply flat_map_app. Qed.

Lemma checkInsOf_map_Some es : forall cs,
  map checkIn es = map Some cs -> checkInsOf es = cs.
Proof.
  induction es as [|e es IH]; intros [|c cs] H; try discriminate; auto.
  simpl in *. injection H as He Hes. rewrite He. simpl. f_equal. now apply IH.
Qed.

Lemma WellFormed_checkOuts uid day es :
  Forall (WellFormed uid day) es ->
  Forall (fun r => isCheckOut r = true) (checkOutsOf es).
Proof.
  induction 1 as [|e es He _ IH]; simpl; [constructor|].
  destruct He as (_ & _ & He).
  destruct (checkOut e) as [co|]; simpl; [|exact IH].
  constructor; [|exact IH].
  destruct (checkIn e) as [ci|].
  - destruct He as (_ & Hm & _). now apply isMatchFor_times in Hm.
  - tauto.
Qed.


Lemma filter_all_true {A} (p : A -> bool) l :
  Forall (fun x => p x = true) l -> filter p l = l.
Proof.
  induction 1 as [|x l Hx _ IH]; simpl; [easy|]. now rewrite Hx, IH.
Qed.

Section Day.
Variables (user : User) (uid : string) (day today : DateString).

Lemma pairAll_facts cs :
  Forall (fun c => isCheckIn c = true) cs ->
  forall st, exists news,
    checkInsAndOuts (pairAll user uid day today cs st)
    = checkInsAndOuts st ++ news /\
    map checkIn news = map Some cs /\
    Permutation (dayRecords st)
      (checkOutsOf news ++ dayRecords (pairAll user uid day today cs st)) /\
    Forall (WellFormed uid day) news /\
    userTotalMinutesAllTime (pairAll user uid day today cs st)
    = userTotalMinutesAllTime st + sumMinutes news /\
    userTotalMinutesToday (pairAll user uid day today cs st)
    = userTotalMinutesToday st
      + (if DateString_eqb day today then sumMinutes news else 0).
Proof.
  induction 1 as [|c cs Hc _ IH]; intro st.
  - exists []. simpl. rewrite app_nil_r.
    repeat split; auto. + lia. + destruct (DateString_eqb day today); lia.
  - simpl.
    destruct (IH (pairCheckIn user uid day today c st))
      as (news & Hn & Hci & Hperm & Hwf & Hall & Htoday).
    destruct (pairCheckIn_cases user uid day today c st)
      as [[_ Hst]|(l1 & co & l2 & Hsplit & _ & Hco & Hst)].
    + rewrite Hst in *. simpl in *.
      eexists (_ :: news). rewrite <- app_assoc in Hn. simpl in Hn.
      split; [exact Hn|]. split; [simpl; now rewrite Hci|].
      split; [exact Hperm|]. split.
      * constructor; [|exact Hwf]. repeat split; auto.
      * rewrite sumMinutes_cons. cbn [entryMinutes duration].
        split; [lia|]. destruct (DateString_eqb day today); lia.
    + rewrite Hst in *. simpl in *.
      eexists (_ :: news). rewrite <- app_assoc in Hn. simpl in Hn.
      split; [exact Hn|]. split; [simpl; now rewrite Hci|].
      split.
      * simpl. rewrite Hsplit. rewrite <- Permutation_middle.
        now constructor.
      * split.
        -- constructor; [|exact Hwf]. repeat split; auto.
        -- rewrite sumMinutes_cons. cbn [entryMinutes duration].
           split; [lia|]. destruct (DateString_eqb day today); lia.
Qed.

Lemma fold_pushOrphan l : forall acc,
  fold_left (pushOrphan user uid day) l acc
  = acc ++ map (orphanEntry user uid day) (filter isCheckOut l).
Proof.
  induction l as [|r l IH]; intro acc; simpl; [now rewrite app_nil_r|].
  rewrite IH. unfold pushOrphan. destruct (isCheckOut r); [|reflexivity].
  now rewrite <- app_assoc.
Qed.

Lemma orphans_facts l :
  Forall (fun r => isCheckOut r = true) l ->
  checkInsOf (map (orphanEntry user uid day) l) = [] /\
  checkOutsOf (map (orphanEntry user uid day) l) = l /\
  Forall (WellFormed uid day) (map (orphanEntry user uid day) l) /\
  sumMinutes (map (orphanEntry user uid day) l) = 0.
Proof.
  induction 1 as [|r l Hr _ (H1 & H2 & H3 & H4)]; simpl.
  - repeat split; constructor.
  - split; [exact H1|]. split; [now rewrite H2|].
    split; [constructor; [repeat split; auto|exact H3]|].
    unfold sumMinutes in *. simpl. now rewrite H4.
Qed.

(** The state after the first loop of [pairDay] on an ascending day. *)
Lemma pairDay_loop d a b :
  Ascending d ->
  pairLoop user uid day today (S (length d)) 0 (mkDayLoop d [] a b)
  = Some (pairAll user uid day today (filter isCheckIn d)
            (mkDayLoop d [] a b)).
Proof.
  intro H.
  apply (@pairLoop_ascending user uid day today (S (length d)) [] d);
    simpl; auto.
Qed.

Lemma pairDay_entries d a b :
  Ascending d ->
  let st := pairAll user uid day today (filter isCheckIn d)
              (mkDayLoop d [] a b) in
  pairDay user uid day today d a b
  = mkDayLoop (dayRecords st)
      (checkInsAndOuts st
       ++ map (orphanEntry user uid day) (filter isCheckOut (dayRecords st)))
      (userTotalMinutesToday st) (userTotalMinutesAllTime st).
Proof.
  intros H st. unfold pairDay. rewrite (pairDay_loop a b H).
  fold st. now rewrite fold_pushOrphan.
Qed.

(** Everything the later proofs need to know about one day. *)
Lemma pairDay_facts d a b :
  Ascending d ->
  let r := pairDay user uid day today d a b in
  checkInsOf (checkInsAndOuts r) = filter isCheckIn d /\
  Permutation (checkOutsOf (checkInsAndOuts r)) (filter isCheckOut d) /\
  Forall (WellFormed uid day) (checkInsAndOuts r) /\
  userTotalMinutesAllTime r = b + sumMinutes (checkInsAndOuts r) /\
  userTotalMinutesToday r
  = a + (if DateString_eqb day today
         then sumMinutes (checkInsAndOuts r) else 0).
Proof.
  intros H r. unfold r. rewrite (pairDay_entries a b H). simpl.
  set (st0 := mkDayLoop d [] a b).
  assert (Hcs : Forall (fun c => isCheckIn c = true) (filter isCheckIn d)).
  { apply Forall_forall. intros c Hc. now apply filter_In in Hc. }
  destruct (pairAll_facts Hcs st0)
    as (news & Hn & Hci & Hperm & Hwf & Hall & Htoday).
  simpl in Hn, Hperm, Hall, Htoday. rewrite Hn.
  set (rest := dayRecords (pairAll user uid day today (filter isCheckIn d) st0)) in *.
  assert (Hout : Forall (fun r => isCheckOut r = true) (filter isCheckOut rest)).
  { apply Forall_forall. intros c Hc. now apply filter_In in Hc. }
  destruct (orphans_facts Hout) as (O1 & O2 & O3 & O4).
  rewrite checkInsOf_app, checkOutsOf_app, sumMinutes_app, O1, O2, O4.
  rewrite (checkInsOf_map_Some _ _ Hci), app_nil_r.
  repeat split.
  - apply (Permutation_filter isCheckOut) in Hperm. rewrite Hperm.
    rewrite filter_app.
    now rewrite (filter_all_true _ (WellFormed_checkOuts Hwf)).
  - apply Forall_app. now split.
  - rewrite Hall. lia.
  - rewrite Htoday. destruct (DateString_eqb day today); lia.
Qed.

End Day.

(** ** The loop against the reference pairing *)







(** ** Dictionaries *)

Section ObjFacts.
Variables (K V : Type) (eqb : K -> K -> bool).
Hypothesis eqb_eq : forall a b, eqb a b = true <-> a = b.

Lemma eqb_neq a b : eqb a b = false <-> a <> b.
Proof.
  split.
  - intros H E. apply eqb_eq in E. congruence.
  - intro H. destruct (eqb a b) eqn:E; [|reflexivity].
    now apply eqb_eq in E.
Qed.

Lemma get_none k (o : JS.Obj K V) :
  JS.get eqb k o = None -> ~ In k (JS.keys o).
Proof.
  induction o as [|[k' v] o IH]; simpl; [tauto|].
  destruct (eqb k k') eqn:E; [discriminate|].
  intros H [H1|H1]; [|now apply IH].
  apply eqb_neq in E. congruence.
Qed.

Lemma get_some k v (o : JS.Obj K V) :
  JS.get eqb k o = Some v ->
  exists l1 l2, o = l1 ++ (k, v) :: l2 /\ ~ In k (JS.keys l1).
Proof.
  induction o as [|[k' v'] o IH]; simpl; [discriminate|].
  destruct (eqb k k') eqn:E.
  - intro H. injection H as ->. apply eqb_eq in E as ->.
    exists [], o. simpl. tauto.
  - intro H. destruct (IH H) as (l1 & l2 & -> & Hn).
    exists ((k', v') :: l1), l2. split; [reflexivity|].
    simpl. intros [H1|H1]; [|tauto]. apply eqb_neq in E. congruence.
Qed.

Lemma get_at k v (l1 l2 : JS.Obj K V) :
  ~ In k (JS.keys l1) -> JS.get eqb k (l1 ++ (k, v) :: l2) = Some v.
Proof.
  induction l1 as [|[k' w] l1 IH]; simpl; intro H.
  - now rewrite (proj2 (eqb_eq k k) eq_refl).
  - destruct (eqb k k') eqn:E.
    + apply eqb_eq in E. subst. tauto.
    + apply IH. tauto.
Qed.

Lemma get_in k v (o : JS.Obj K V) :
  JS.get eqb k o = Some v -> In (k, v) o.
Proof.
  intro H. destruct (get_some _ _ H) as (l1 & l2 & -> & _).
  apply in_elt.
Qed.

Lemma get_notin k (o : JS.Obj K V) :
  ~ In k (JS.keys o) -> JS.get eqb k o = None.
Proof.
  induction o as [|[k' v] o IH]; simpl; intro H; [reflexivity|].
  destruct (eqb k k') eqn:E.
  - apply eqb_eq in E. subst. tauto.
  - apply IH. tauto.
Qed.

End ObjFacts.

Section ObjOrder.
Variables (K V : Type) (eqb : K -> K -> bool) (index : K -> option Z).
Hypothesis eqb_eq : forall a b, eqb a b = true <-> a = b.

(** An own key keeps its place when its value is overwritten. *)
Lemma set_at k v v' (l1 l2 : JS.Obj K V) :
  ~ In k (JS.keys l1) ->
  JS.set eqb index k v' (l1 ++ (k, v) :: l2) = l1 ++ (k, v') :: l2.
Proof.
  intro H. unfold JS.set. rewrite (get_at _ eqb_eq _ v _ l2 H).
  induction l1 as [|[k' w] l1 IH]; simpl.
  - now rewrite (proj2 (eqb_eq k k) eq_refl).
  - simpl in H. destruct (eqb k k') eqn:E.
    + apply eqb_eq in E. subst. tauto.
    + rewrite IH; tauto.
Qed.

(** A new key is put between the keys listed before it and those listed
    after it. *)
Lemma place_split k v (o : JS.Obj K V) :
  exists l1 l2,
    o = l1 ++ l2 /\ JS.place index k v o = l1 ++ (k, v) :: l2 /\
    Forall (fun k' => JS.before index k k' = false) (JS.keys l1).
Proof.
  induction o as [|[k' v'] o (l1 & l2 & H1 & H2 & H3)]; simpl.
  - exists [], []. repeat split. constructor.
  - destruct (JS.before index k k') eqn:E.
    + exists [], ((k', v') :: o). repeat split. constructor.
    + exists ((k', v') :: l1), l2. rewrite H2. subst o.
      repeat split. simpl. now constructor.
Qed.

Lemma set_fresh k v (o : JS.Obj K V) :
  ~ In k (JS.keys o) -> JS.set eqb index k v o = JS.place index k v o.
Proof.
  intro H. unfold JS.set. now rewrite (get_notin _ eqb_eq _ _ H).
Qed.

(** A key that comes before none of the keys present goes last. *)
Lemma place_last k v (o : JS.Obj K V) :
  Forall (fun k' => JS.before index k k' = false) (JS.keys o) ->
  JS.place index k v o = o ++ [(k, v)].
Proof.
  induction o as [|[k' v'] o IH]; simpl; intro H; [reflexivity|].
  inversion H as [|? ? Hk Ho]; subst. rewrite Hk, IH; auto.
Qed.

Lemma before_trans a b c :
  JS.before index a b = true -> JS.before index c b = false ->
  JS.before index c a = false.
Proof.
  unfold JS.before.
  destruct (index a) as [i|], (index b) as [j|], (index c) as [l|];
    try discriminate; try reflexivity; intros H1 H2.
  apply Z.ltb_lt in H1. apply Z.ltb_ge in H2. apply Z.ltb_ge. lia.
Qed.

Lemma before_asym a b :
  JS.before index a b = true -> JS.before index b a = false.
Proof.
  unfold JS.before.
  destruct (index a) as [i|], (index b) as [j|];
    try discriminate; try reflexivity; intros H1.
  apply Z.ltb_lt in H1. apply Z.ltb_ge. lia.
Qed.

Lemma place_ordered k v (o : JS.Obj K V) :
  KeyOrdered index o -> KeyOrdered index (JS.place index k v o).
Proof.
  unfold KeyOrdered. induction o as [|[k' v'] o IH]; simpl; intro H.
  - repeat constructor.
  - inversion H as [|? ? Ho Hk]; subst.
    destruct (JS.before index k k') eqn:E; simpl.
    + constructor; [exact H|]. constructor; [now apply before_asym|].
      eapply Forall_impl; [|exact Hk]. intros c Hc. cbv beta in Hc.
      exact (@before_trans k k' c E Hc).
    + constructor; [now apply IH|].
      destruct (place_split k v o) as (l1 & l2 & H1 & H2 & _).
      rewrite H2. subst o. unfold JS.keys in *. rewrite map_app in *.
      simpl. rewrite Forall_app in *. destruct Hk as [Hk1 Hk2].
      split; [exact Hk1|]. constructor; [exact E|exact Hk2].
Qed.

End ObjOrder.

(** ** Grouping *)

Section Grouping.
Variables (localDay : Z -> Z) (dateText : DateString -> string).

Let dateOf (r : AttendanceRecord) := toLocaleDateString localDay (getTime r).
Let step := groupRecord localDay dateText.
Let dateIdx := dateIndex dateText.

(** The ways a record passes the body of the [forEach]: it is filed as
    the first record of its user, as the first of its date, or in an
    existing array; or it misses the own arrays because the user id or
    the date string is found on the prototype. *)
Lemma groupRecord_cases g r :
  let obj := recordsByUserAndDate g in
  let names := prototypeNames g in
  let uid := rec_userId r in
  let d := dateOf r in
  (~ In uid (JS.keys obj) /\ JS.inherits names uid = false /\
   JS.inherits names (dateText d) = false /\
   step g r = mkGrouping (JS.place JS.arrayIndex uid [(d, [r])] obj) names)
  \/
  (~ In uid (JS.keys obj) /\ JS.inherits names uid = false /\
   JS.inherits names (dateText d) = true /\
   step g r = mkGrouping (JS.place JS.arrayIndex uid [] obj) names)
  \/
  (~ In uid (JS.keys obj) /\ JS.inherits names uid = true /\
   recordsByUserAndDate (step g r) = obj /\
   (prototypeNames (step g r) = names \/
    namesPrototype names uid = true /\
    prototypeNames (step g r) = names ++ [dateText d]))
  \/
  (exists l1 days l2,
     obj = l1 ++ (uid, days) :: l2 /\ ~ In uid (JS.keys l1) /\
     ((~ In d (JS.keys days) /\ JS.inherits names (dateText d) = false /\
       step g r
       = mkGrouping (l1 ++ (uid, JS.place dateIdx d [r] days) :: l2) names)
      \/
      (~ In d (JS.keys days) /\ JS.inherits names (dateText d) = true /\
       step g r = g)
      \/
      (exists d1 b d2,
         days = d1 ++ (d, b) :: d2 /\ ~ In d (JS.keys d1) /\
         step g r
         = mkGrouping (l1 ++ (uid, d1 ++ (d, b ++ [r]) :: d2) :: l2) names))).
Proof.
  intros obj names uid d. unfold step, groupRecord. fold (dateOf r).
  fold obj names uid d. unfold getUser, setUser, getDay, setDay.
  fold dateIdx.
  destruct (JS.get String.eqb uid obj) as [days|] eqn:Eu.
  - right. right. right.
    destruct (get_some _ String.eqb_eq _ _ Eu) as (l1 & l2 & Hobj & Hn).
    exists l1, days, l2. split; [exact Hobj|]. split; [exact Hn|].
    destruct (JS.get DateString_eqb d days) as [b|] eqn:Ed.
    + right. right.
      destruct (get_some _ DateString_eqb_eq _ _ Ed) as (d1 & d2 & -> & Hd).
      exists d1, b, d2. split; [reflexivity|]. split; [exact Hd|].
      rewrite (set_at _ dateIdx DateString_eqb_eq _ _ _ _ _ Hd), Hobj.
      now rewrite (set_at _ JS.arrayIndex String.eqb_eq _ _ _ _ _ Hn).
    + apply (get_none _ DateString_eqb_eq) in Ed.
      destruct (JS.inherits names (dateText d)) eqn:Ei.
      * right. left. repeat split; auto.
      * left. repeat split; auto.
        rewrite (set_fresh _ dateIdx DateString_eqb_eq _ _ _ Ed), Hobj.
        now rewrite (set_at _ JS.arrayIndex String.eqb_eq _ _ _ _ _ Hn).
  - apply (get_none _ String.eqb_eq) in Eu.
    destruct (JS.inherits names uid) eqn:Ei.
    + right. right. left. split; [exact Eu|]. split; [reflexivity|].
      destruct (namesPrototype names uid) eqn:Ep;
        [destruct (JS.inherits names (dateText d)) eqn:Ed|]; cbn.
      * split; [reflexivity|now left].
      * split; [reflexivity|]. right. auto.
      * split; [reflexivity|now left].
    + destruct (JS.inherits names (dateText d)) eqn:Ed.
      * right. left. repeat split; auto.
        now rewrite (set_fresh _ JS.arrayIndex String.eqb_eq _ _ _ Eu).
      * left. repeat split; auto.
        now rewrite (set_fresh _ JS.arrayIndex String.eqb_eq _ _ _ Eu).
Qed.

Lemma bucketRecords_app o1 o2 :
  bucketRecords (o1 ++ o2) = bucketRecords o1 ++ bucketRecords o2.
Proof. apply flat_map_app. Qed.

Lemma dayRecordsOf_app d1 d2 :
  dayRecordsOf (d1 ++ d2) = dayRecordsOf d1 ++ dayRecordsOf d2.
Proof. apply flat_map_app. Qed.

Lemma keys_app {K V} (o1 o2 : JS.Obj K V) :
  JS.keys (o1 ++ o2) = JS.keys o1 ++ JS.keys o2.
Proof. apply map_app. Qed.

(** What the grouping keeps true of the object of line 154: the user
    keys and the date keys of a user are distinct and stand in the order
    of [Object.keys], every own array is non-empty and holds records of
    its user and date string only. *)
Lemma GroupingOk_place obj uid days :
  GroupingOk localDay dateText obj -> ~ In uid (JS.keys obj) ->
  DaysOk localDay uid days -> Forall (fun b => snd b <> []) days ->
  NoDup (JS.keys days) -> KeyOrdered dateIdx days ->
  GroupingOk localDay dateText (JS.place JS.arrayIndex uid days obj).
Proof.
  intros (Hnd & Hord & Hok & Hin) Hfresh Hd Hne Hdn Hdo.
  destruct (place_split JS.arrayIndex uid days obj)
    as (l1 & l2 & Hobj & Hp & _).
  split; [|split; [|split]].
  - rewrite Hp. subst obj. rewrite keys_app in *. simpl.
    apply NoDup_Add with (a := uid) (l := JS.keys l1 ++ JS.keys l2);
      [apply Add_app|]. split; assumption.
  - now apply place_ordered.
  - rewrite Hp. subst obj. unfold BucketsOk in *. rewrite Forall_app in *.
    destruct Hok as [H1 H2]. split; [exact H1|]. constructor; [|exact H2].
    now split.
  - rewrite Hp. subst obj. rewrite Forall_app in *.
    destruct Hin as [H1 H2]. split; [exact H1|]. constructor; [|exact H2].
    now split.
Qed.

Lemma GroupingOk_update l1 l2 uid days days' :
  GroupingOk localDay dateText (l1 ++ (uid, days) :: l2) ->
  DaysOk localDay uid days' -> Forall (fun b => snd b <> []) days' ->
  NoDup (JS.keys days') -> KeyOrdered dateIdx days' ->
  GroupingOk localDay dateText (l1 ++ (uid, days') :: l2).
Proof.
  intros (Hnd & Hord & Hok & Hin) Hd Hne Hdn Hdo.
  split; [|split; [|split]].
  - rewrite keys_app in *. exact Hnd.
  - unfold KeyOrdered in *. rewrite keys_app in *. exact Hord.
  - unfold BucketsOk in *. rewrite Forall_app in *.
    destruct Hok as [H1 H2]. split; [exact H1|].
    inversion H2; subst. constructor; [now split|assumption].
  - rewrite Forall_app in *. destruct Hin as [H1 H2]. split; [exact H1|].
    inversion H2; subst. constructor; [now split|assumption].
Qed.

(** One more record keeps the object well formed; the record is added
    to the own arrays exactly when it is filed. *)
Lemma groupRecord_invariant g r :
  GroupingOk localDay dateText (recordsByUserAndDate g) ->
  GroupingOk localDay dateText (recordsByUserAndDate (step g r)) /\
  Permutation (bucketRecords (recordsByUserAndDate (step g r)))
    (bucketRecords (recordsByUserAndDate g)
     ++ (if filed localDay dateText g r then [r] else [])) /\
  incl (JS.keys (recordsByUserAndDate (step g r)))
       (rec_userId r :: JS.keys (recordsByUserAndDate g)).
Proof.
  intro Hok. unfold filed. fold (dateOf r). unfold getUser, getDay.
  destruct (groupRecord_cases g r)
    as [(Hfresh & Hi & Hj & ->)|[(Hfresh & Hi & Hj & ->)|
        [(Hfresh & Hi & -> & _)|
        (l1 & days & l2 & Hobj & Hn &
         [(Hd & Hj & ->)|[(Hd & Hj & ->)|(d1 & b & d2 & -> & Hd & ->)]])]]];
    cbn [recordsByUserAndDate].
  - rewrite (get_notin _ String.eqb_eq _ _ Hfresh), Hi, Hj. cbn [negb andb].
    split; [|split].
    + apply GroupingOk_place; auto.
      * repeat constructor.
      * repeat constructor. discriminate.
      * repeat constructor. simpl. tauto.
      * repeat constructor.
    + destruct (place_split JS.arrayIndex (rec_userId r) [(dateOf r, [r])]
                  (recordsByUserAndDate g)) as (l1 & l2 & Hobj & -> & _).
      rewrite Hobj, !bucketRecords_app. simpl.
      rewrite <- app_assoc. apply Permutation_app_head.
      change (r :: bucketRecords l2) with ([r] ++ bucketRecords l2).
      apply Permutation_app_comm.
    + destruct (place_split JS.arrayIndex (rec_userId r) [(dateOf r, [r])]
                  (recordsByUserAndDate g)) as (l1 & l2 & Hobj & -> & _).
      rewrite Hobj, !keys_app. simpl. intros k Hk.
      apply in_app_or in Hk as [Hk|[Hk|Hk]];
        [right|now left|right]; apply in_or_app; auto.
  - rewrite (get_notin _ String.eqb_eq _ _ Hfresh), Hi, Hj. cbn [negb andb].
    rewrite app_nil_r. split; [|split].
    + apply GroupingOk_place; auto; constructor.
    + destruct (place_split JS.arrayIndex (rec_userId r)
                  (@nil (DateString * list AttendanceRecord))
                  (recordsByUserAndDate g)) as (l1 & l2 & Hobj & -> & _).
      rewrite Hobj, !bucketRecords_app. reflexivity.
    + destruct (place_split JS.arrayIndex (rec_userId r)
                  (@nil (DateString * list AttendanceRecord))
                  (recordsByUserAndDate g)) as (l1 & l2 & Hobj & -> & _).
      rewrite Hobj, !keys_app. simpl. intros k Hk.
      apply in_app_or in Hk as [Hk|[Hk|Hk]];
        [right|now left|right]; apply in_or_app; auto.
  - rewrite (get_notin _ String.eqb_eq _ _ Hfresh), Hi. cbn [negb andb].
    rewrite app_nil_r.
    split; [exact Hok|]. split; [reflexivity|]. intros k Hk. now right.
  - rewrite Hobj in *.
    rewrite (get_at _ String.eqb_eq _ _ _ _ Hn),
      (get_notin _ DateString_eqb_eq _ _ Hd), Hj. cbn [negb].
    assert (Hold := Hok). destruct Hold as (_ & _ & Hb & Hin).
    unfold BucketsOk in Hb. rewrite Forall_app in Hb, Hin.
    destruct Hb as [_ Hb]. destruct Hin as [_ Hin].
    inversion Hb as [|? ? [Hdays Hne] _]; subst.
    inversion Hin as [|? ? [Hdn Hdo] _]; subst. cbn [fst snd] in *.
    destruct (place_split dateIdx (dateOf r) [r] days)
      as (d1 & d2 & Hdays' & Hp & _).
    split; [|split].
    + apply (@GroupingOk_update l1 l2 (rec_userId r) days _ Hok).
      * rewrite Hp. subst days. unfold DaysOk in *. rewrite Forall_app in *.
        destruct Hdays as [H1 H2]. split; [exact H1|].
        constructor; [|exact H2]. repeat constructor.
      * rewrite Hp. subst days. rewrite Forall_app in *.
        destruct Hne as [H1 H2]. split; [exact H1|].
        constructor; [discriminate|exact H2].
      * rewrite Hp. subst days. rewrite keys_app in *. simpl.
        apply NoDup_Add with (a := dateOf r) (l := JS.keys d1 ++ JS.keys d2);
          [apply Add_app|]. split; assumption.
      * now apply place_ordered.
    + rewrite Hp. subst days.
      rewrite !bucketRecords_app. simpl. rewrite !dayRecordsOf_app. simpl.
      rewrite <- !app_assoc. apply Permutation_app_head.
      apply Permutation_app_head. simpl.
      change (r :: dayRecordsOf d2 ++ bucketRecords l2 ++ [r])
        with ([r] ++ dayRecordsOf d2 ++ bucketRecords l2 ++ [r]).
      rewrite !app_assoc. apply Permutation_cons_append.
    + rewrite !keys_app. simpl. intros k Hk. now right.
  - rewrite Hobj.
    rewrite (get_at _ String.eqb_eq _ _ _ _ Hn),
      (get_notin _ DateString_eqb_eq _ _ Hd), Hj. cbn [negb].
    rewrite app_nil_r. rewrite <- Hobj.
    split; [exact Hok|]. split; [reflexivity|]. intros k Hk. now right.
  - rewrite Hobj in *.
    rewrite (get_at _ String.eqb_eq _ _ _ _ Hn),
      (get_at _ DateString_eqb_eq _ _ _ _ Hd).
    assert (Hold := Hok). destruct Hold as (_ & _ & Hb & Hin).
    unfold BucketsOk in Hb. rewrite Forall_app in Hb, Hin.
    destruct Hb as [_ Hb]. destruct Hin as [_ Hin].
    inversion Hb as [|? ? [Hdays Hne] _]; subst.
    inversion Hin as [|? ? [Hdn Hdo] _]; subst. cbn [fst snd] in *.
    split; [|split].
    + apply (@GroupingOk_update l1 l2 (rec_userId r) _ _ Hok).
      * unfold DaysOk in *. rewrite Forall_app in *.
        destruct Hdays as [H1 H2]. split; [exact H1|].
        inversion H2 as [|? ? Hb' H3]; subst. constructor; [|exact H3].
        cbn [fst snd] in *. apply Forall_app. split; [exact Hb'|].
        repeat constructor.
      * rewrite Forall_app in *. destruct Hne as [H1 H2].
        split; [exact H1|]. inversion H2; subst.
        constructor; [|assumption]. cbn [snd]. intro E.
        apply app_eq_nil in E as [_ E]. discriminate.
      * rewrite keys_app in *. exact Hdn.
      * unfold KeyOrdered in *. rewrite keys_app in *. exact Hdo.
    + rewrite !bucketRecords_app. simpl. rewrite !dayRecordsOf_app.
      simpl. rewrite <- !app_assoc. apply Permutation_app_head.
      apply Permutation_app_head. apply Permutation_app_head. simpl.
      rewrite app_assoc. apply Permutation_cons_append.
    + rewrite !keys_app. simpl. intros k Hk. now right.
Qed.

Lemma grouping_from recs : forall g,
  GroupingOk localDay dateText (recordsByUserAndDate g) ->
  let g' := fold_left step recs g in
  GroupingOk localDay dateText (recordsByUserAndDate g') /\
  Permutation (bucketRecords (recordsByUserAndDate g'))
    (bucketRecords (recordsByUserAndDate g)
     ++ filedRecords localDay dateText g recs) /\
  incl (JS.keys (recordsByUserAndDate g'))
       (map rec_userId recs ++ JS.keys (recordsByUserAndDate g)).
Proof.
  induction recs as [|r recs IH]; intros g Hok; cbn [fold_left filedRecords].
  - split; [exact Hok|]. split; [now rewrite app_nil_r|].
    intros k Hk. exact Hk.
  - destruct (@groupRecord_invariant g r Hok) as (H1 & H2 & H3).
    destruct (IH _ H1) as (H4 & H5 & H6).
    split; [exact H4|]. split.
    + rewrite H5. fold step. rewrite H2, <- app_assoc. reflexivity.
    + intros k Hk. apply H6 in Hk. cbn [map].
      apply in_app_or in Hk as [Hk|Hk].
      * right. apply in_or_app. now left.
      * apply H3 in Hk as [Hk|Hk]; [now left|].
        right. apply in_or_app. now right.
Qed.

(** The filed records are records of the input, each taken once. *)
Lemma filedRecords_sub recs : forall g,
  exists dropped,
    Permutation recs (filedRecords localDay dateText g recs ++ dropped).
Proof.
  induction recs as [|r recs IH]; intro g; cbn [filedRecords].
  - now exists [].
  - destruct (IH (groupRecord localDay dateText g r)) as (dropped & H).
    destruct (filed localDay dateText g r).
    + exists dropped. simpl. now constructor.
    + exists (r :: dropped). simpl. rewrite <- Permutation_middle.
      now constructor.
Qed.

(** The user keys after one more record: the same, or one more key put
    in its place. *)
Lemma groupRecord_keys g r :
  ((In (rec_userId r) (JS.keys (recordsByUserAndDate g)) \/
    JS.inherits (prototypeNames g) (rec_userId r) = true) /\
   JS.keys (recordsByUserAndDate (step g r))
   = JS.keys (recordsByUserAndDate g))
  \/
  (~ In (rec_userId r) (JS.keys (recordsByUserAndDate g)) /\
   JS.inherits (prototypeNames g) (rec_userId r) = false /\
   exists days,
     recordsByUserAndDate (step g r)
     = JS.place JS.arrayIndex (rec_userId r) days (recordsByUserAndDate g)).
Proof.
  destruct (groupRecord_cases g r)
    as [(Hfresh & Hi & Hj & ->)|[(Hfresh & Hi & Hj & ->)|
        [(Hfresh & Hi & -> & _)|
        (l1 & days & l2 & Hobj & Hn &
         [(Hd & Hj & ->)|[(Hd & Hj & ->)|(d1 & b & d2 & -> & Hd & ->)]])]]];
    cbn [recordsByUserAndDate].
  - right. eauto.
  - right. eauto.
  - left. auto.
  - left. rewrite Hobj, !keys_app. cbn [JS.keys map fst]. split; [|reflexivity].
    left. apply in_or_app. right. now left.
  - left. split; [|reflexivity]. left. rewrite Hobj, keys_app.
    apply in_or_app. right. now left.
  - left. rewrite Hobj, !keys_app. cbn [JS.keys map fst]. split; [|reflexivity].
    left. apply in_or_app. right. now left.
Qed.

(** A new key that is no array index goes last; one that is an array
    index goes among the array indices. *)
Lemma notIndex_place V k (v : V) (o : JS.Obj string V) :
  filter notIndex (JS.keys (JS.place JS.arrayIndex k v o))
  = filter notIndex (JS.keys o) ++ (if notIndex k then [k] else []).
Proof.
  destruct (notIndex k) eqn:E.
  - rewrite place_last.
    + rewrite keys_app, filter_app. cbn [JS.keys map fst filter].
      now rewrite E.
    + apply Forall_forall. intros k' _. unfold JS.before.
      unfold notIndex in E. now destruct (JS.arrayIndex k).
  - destruct (place_split JS.arrayIndex k v o) as (l1 & l2 & -> & -> & _).
    rewrite !keys_app, !filter_app. cbn [JS.keys map fst filter].
    now rewrite E, app_nil_r.
Qed.

(** The grouping only adds names to the prototype, and each added name
    is the date string of a record with the user id [__proto__]. *)
Lemma grouping_names recs : forall g,
  exists added,
    prototypeNames (fold_left step recs g) = prototypeNames g ++ added /\
    Forall (fun n => exists r, In r recs /\
                       rec_userId r = "__proto__"%string /\
                       n = dateText (dateOf r)) added.
Proof.
  induction recs as [|r recs IH]; intro g; cbn [fold_left].
  - exists []. now rewrite app_nil_r.
  - destruct (IH (step g r)) as (added & H1 & H2).
    assert (Hmore : Forall (fun n => exists r0, In r0 (r :: recs) /\
                              rec_userId r0 = "__proto__"%string /\
                              n = dateText (dateOf r0)) added).
    { eapply Forall_impl; [|exact H2]. intros n (r0 & H & H').
      exists r0. split; [now right|exact H']. }
    destruct (groupRecord_cases g r)
      as [(_ & _ & _ & E)|[(_ & _ & _ & E)|[(_ & _ & _ & [E|[Hp E]])|
          (l1 & days & l2 & _ & _ &
           [(_ & _ & E)|[(_ & _ & E)|(d1 & b & d2 & _ & _ & E)]])]]];
      try (exists added; rewrite H1, E; split; [reflexivity|exact Hmore]).
    exists (dateText (dateOf r) :: added). rewrite H1, E, <- app_assoc.
    split; [reflexivity|]. constructor; [|exact Hmore].
    exists r. split; [now left|]. split; [|reflexivity].
    unfold namesPrototype in Hp. apply andb_prop in Hp as [Hp _].
    now apply String.eqb_eq in Hp.
Qed.

(** A name that was on the prototype at the start never becomes a user
    key. *)
Lemma grouping_keys_plain (proto0 : JS.Prototype) recs : forall g,
  (forall n, JS.inherits proto0 n = true ->
             JS.inherits (prototypeNames g) n = true) ->
  Forall (fun k => JS.inherits proto0 k = false)
         (JS.keys (recordsByUserAndDate g)) ->
  Forall (fun k => JS.inherits proto0 k = false)
         (JS.keys (recordsByUserAndDate (fold_left step recs g))).
Proof.
  induction recs as [|r recs IH]; intros g Hn Hk; cbn [fold_left];
    [exact Hk|].
  apply IH.
  - intros n Hi. specialize (Hn n Hi).
    destruct (grouping_names [r] g) as (added & E & _).
    cbn [fold_left] in E. rewrite E. unfold JS.inherits in *.
    rewrite existsb_app, Hn. reflexivity.
  - destruct (groupRecord_keys g r) as [[_ ->]|(_ & Hi & days & ->)];
      [exact Hk|].
    destruct (place_split JS.arrayIndex (rec_userId r) days
                (recordsByUserAndDate g)) as (l1 & l2 & Hobj & -> & _).
    rewrite Hobj in Hk. rewrite keys_app in *. cbn [JS.keys map fst].
    rewrite Forall_app in *. destruct Hk as [H1 H2].
    split; [exact H1|]. constructor; [|exact H2].
    destruct (JS.inherits proto0 (rec_userId r)) eqn:E; [|reflexivity].
    apply Hn in E. congruence.
Qed.

(** *** Runs that do not write on the prototype *)

Section Static.
Variable proto : JS.Prototype.

(** The names on the prototype are those of the start, and no key of
    the object is among them. *)
Let Clean (g : Grouping) : Prop :=
  prototypeNames g = proto /\
  Forall (fun e =>
            JS.inherits proto (fst e) = false /\
            Forall (fun d => JS.inherits proto (dateText d) = false)
                   (JS.keys (snd e)))
         (recordsByUserAndDate g).

Lemma groupRecord_static g r :
  Clean g -> namesPrototype proto (rec_userId r) = false ->
  Clean (step g r) /\
  filed localDay dateText g r = plainKeys localDay dateText proto r /\
  (forall k, In k (JS.keys (recordsByUserAndDate (step g r))) <->
             In k (JS.keys (recordsByUserAndDate g)) \/
             (k = rec_userId r /\ JS.inherits proto k = false)).
Proof.
  intros [Hnames Hkeys] Hp. unfold Clean, filed, plainKeys. fold (dateOf r).
  unfold getUser, getDay.
  destruct (groupRecord_cases g r)
    as [(Hfresh & Hi & Hj & ->)|[(Hfresh & Hi & Hj & ->)|
        [(Hfresh & Hi & Hobj & Hn)|
        (l1 & days & l2 & Hobj & Hn &
         [(Hd & Hj & ->)|[(Hd & Hj & ->)|(d1 & b & d2 & -> & Hd & ->)]])]]];
    rewrite ?Hnames in *; cbn [recordsByUserAndDate prototypeNames].
  - rewrite (get_notin _ String.eqb_eq _ _ Hfresh), Hi, Hj.
    destruct (place_split JS.arrayIndex (rec_userId r) [(dateOf r, [r])]
                (recordsByUserAndDate g)) as (l1 & l2 & Hobj & -> & _).
    rewrite Hobj in *. cbn [recordsByUserAndDate prototypeNames].
    split; [|split; [reflexivity|]].
    + split; [reflexivity|]. rewrite Forall_app in *.
      destruct Hkeys as [H1 H2]. split; [exact H1|].
      constructor; [|exact H2]. cbn. split; [exact Hi|].
      repeat constructor. exact Hj.
    + intro k. rewrite !keys_app. cbn [JS.keys map fst].
      rewrite !in_app_iff. cbn [In]. intuition congruence.
  - rewrite (get_notin _ String.eqb_eq _ _ Hfresh), Hi, Hj.
    destruct (place_split JS.arrayIndex (rec_userId r)
                (@nil (DateString * list AttendanceRecord))
                (recordsByUserAndDate g)) as (l1 & l2 & Hobj & -> & _).
    rewrite Hobj in *. cbn [recordsByUserAndDate prototypeNames].
    split; [|split; [reflexivity|]].
    + split; [reflexivity|]. rewrite Forall_app in *.
      destruct Hkeys as [H1 H2]. split; [exact H1|].
      constructor; [|exact H2]. cbn. split; [exact Hi|constructor].
    + intro k. rewrite !keys_app. cbn [JS.keys map fst].
      rewrite !in_app_iff. cbn [In]. intuition congruence.
  - rewrite (get_notin _ String.eqb_eq _ _ Hfresh), Hi.
    destruct Hn as [Hn|[Hn _]]; [|congruence].
    split; [|split; [reflexivity|]].
    + split; [congruence|]. now rewrite Hobj.
    + intro k. rewrite Hobj. intuition congruence.
  - rewrite Hobj in *.
    rewrite (get_at _ String.eqb_eq _ _ _ _ Hn),
      (get_notin _ DateString_eqb_eq _ _ Hd), Hj.
    rewrite Forall_app in Hkeys. destruct Hkeys as [H1 H2].
    inversion H2 as [|? ? [Hu Hds] H3]; subst. cbn [fst snd] in *.
    rewrite Hu. split; [|split; [reflexivity|]].
    + split; [reflexivity|]. apply Forall_app. split; [exact H1|].
      constructor; [|exact H3]. cbn [fst snd]. split; [exact Hu|].
      destruct (place_split dateIdx (dateOf r) [r] days)
        as (d1 & d2 & Hdays & -> & _).
      subst days. rewrite keys_app in *. cbn [JS.keys map fst].
      rewrite Forall_app in *. destruct Hds as [Hd1 Hd2].
      split; [exact Hd1|]. constructor; [exact Hj|exact Hd2].
    + intro k. rewrite !keys_app. cbn [JS.keys map fst].
      rewrite !in_app_iff. cbn [In]. intuition congruence.
  - rewrite Hobj in *.
    rewrite (get_at _ String.eqb_eq _ _ _ _ Hn),
      (get_notin _ DateString_eqb_eq _ _ Hd), Hj.
    rewrite andb_false_r. split; [|split; [reflexivity|]].
    + split; [reflexivity|exact Hkeys].
    + intro k. rewrite !keys_app. cbn [JS.keys map fst].
      rewrite !in_app_iff. cbn [In].
      rewrite Forall_app in Hkeys. destruct Hkeys as [_ H2].
      inversion H2 as [|? ? [Hu _] _]; subst. cbn [fst] in Hu.
      intuition congruence.
  - rewrite Hobj in *.
    rewrite (get_at _ String.eqb_eq _ _ _ _ Hn),
      (get_at _ DateString_eqb_eq _ _ _ _ Hd).
    rewrite Forall_app in Hkeys. destruct Hkeys as [H1 H2].
    inversion H2 as [|? ? [Hu Hds] H3]; subst. cbn [fst snd] in *.
    rewrite keys_app in Hds. cbn [JS.keys map fst] in Hds.
    rewrite Forall_app in Hds. destruct Hds as [Hd1 Hd2].
    inversion Hd2 as [|? ? Hdd Hd3]; subst. rewrite Hu, Hdd.
    split; [|split; [reflexivity|]].
    + split; [reflexivity|]. apply Forall_app. split; [exact H1|].
      constructor; [|exact H3]. cbn [fst snd]. split; [exact Hu|].
      rewrite keys_app. cbn [JS.keys map fst]. apply Forall_app.
      split; [exact Hd1|]. now constructor.
    + intro k. rewrite !keys_app. cbn [JS.keys map fst].
      rewrite !in_app_iff. cbn [In]. intuition congruence.
Qed.

Lemma grouping_static recs : forall g,
  Clean g -> Unpolluted proto recs ->
  let g' := fold_left step recs g in
  prototypeNames g' = proto /\
  filedRecords localDay dateText g recs
  = filter (plainKeys localDay dateText proto) recs /\
  (forall k, In k (JS.keys (recordsByUserAndDate g')) <->
             In k (JS.keys (recordsByUserAndDate g)) \/
             (JS.inherits proto k = false /\
              exists r, In r recs /\ rec_userId r = k)).
Proof.
  induction recs as [|r recs IH]; intros g Hc Hu;
    cbn [fold_left filedRecords filter].
  - split; [exact (proj1 Hc)|]. split; [reflexivity|].
    intro k. split; [now left|]. intros [H|(_ & r & [] & _)]. exact H.
  - inversion Hu as [|? ? Hr Hu']; subst.
    destruct (@groupRecord_static g r Hc Hr) as (H1 & H2 & H3).
    destruct (IH _ H1 Hu') as (H4 & H5 & H6).
    split; [exact H4|]. split.
    + fold step. rewrite H5, H2.
      now destruct (plainKeys localDay dateText proto r).
    + intro k. rewrite H6, H3. split.
      * intros [[H|[-> H]]|(H & r' & Hr' & <-)]; auto.
        -- right. split; [exact H|]. exists r. split; [now left|reflexivity].
        -- right. split; [exact H|]. exists r'. split; [now right|reflexivity].
      * intros [H|(H & r' & [<-|Hr'] & <-)]; auto.
        right. split; [exact H|]. eauto.
Qed.

(** The user keys that are no array indices stand in the order in which
    the user ids first occur in the input. *)
Lemma grouping_first_come recs : forall g seen,
  Clean g -> Unpolluted proto recs ->
  filter notIndex (JS.keys (recordsByUserAndDate g))
  = filter (fun u => negb (JS.inherits proto u) && notIndex u) seen ->
  (forall u, JS.inherits proto u = false ->
             (In u (JS.keys (recordsByUserAndDate g)) <-> In u seen)) ->
  filter notIndex (JS.keys (recordsByUserAndDate (fold_left step recs g)))
  = filter (fun u => negb (JS.inherits proto u) && notIndex u)
      (fold_left (fun seen x => if existsb (String.eqb x) seen then seen
                                else seen ++ [x])
         (map rec_userId recs) seen).
Proof.
  induction recs as [|r recs IH]; intros g seen Hc Hu Heq Hmem;
    cbn [fold_left map]; [exact Heq|].
  inversion Hu as [|? ? Hr Hu']; subst.
  destruct (@groupRecord_static g r Hc Hr) as (Hc' & _ & Hkeys).
  assert (Hnames : prototypeNames g = proto) by exact (proj1 Hc).
  assert (Hseen : forall l, existsb (String.eqb (rec_userId r)) l = true <->
                            In (rec_userId r) l).
  { intro l. rewrite existsb_exists. split.
    - intros (x & Hx & E). apply String.eqb_eq in E. now subst.
    - intro H. exists (rec_userId r). split; [exact H|apply String.eqb_refl]. }
  apply IH; [exact Hc'|exact Hu'| |].
  - destruct (groupRecord_keys g r) as [[Hold ->]|(Hfresh & Hi & days & ->)].
    + rewrite Heq.
      destruct (existsb (String.eqb (rec_userId r)) seen) eqn:E;
        [reflexivity|].
      rewrite filter_app. cbn [filter].
      destruct (JS.inherits proto (rec_userId r)) eqn:Ei;
        [cbn [negb andb]; now rewrite app_nil_r|].
      exfalso. destruct Hold as [Hold|Hold]; [|congruence].
      apply (Hmem _ Ei) in Hold. apply (Hseen seen) in Hold. congruence.
    + rewrite notIndex_place, Heq. rewrite Hnames in Hi.
      destruct (existsb (String.eqb (rec_userId r)) seen) eqn:E.
      * exfalso. apply Hfresh. apply (Hmem _ Hi). now apply (Hseen seen).
      * rewrite filter_app. cbn [filter]. rewrite Hi. cbn [negb andb].
        now destruct (notIndex (rec_userId r)).
  - intros u Hi. rewrite Hkeys, (Hmem u Hi).
    destruct (existsb (String.eqb (rec_userId r)) seen) eqn:E.
    + apply (Hseen seen) in E. split; [intros [H|[-> _]]; auto|auto].
    + rewrite in_app_iff. cbn [In]. split.
      * intros [H|[-> _]]; auto.
      * intros [H|[<-|[]]]; auto.
Qed.

End Static.

End Grouping.

Section Grouped.
Variables (localDay : Z -> Z) (dateText : DateString -> string).
Variables (proto : JS.Prototype) (recs : list AttendanceRecord).

Let obj := groupRecords localDay dateText proto recs.

Lemma GroupingOk_nil : GroupingOk localDay dateText [].
Proof. repeat split; constructor. Qed.

(** The own arrays hold records of the input, each at most once: the
    user keys are distinct, every array is homogeneous, and the records
    of the input are those of the arrays and the ones that missed
    them. *)
Lemma groupRecords_invariant :
  NoDup (JS.keys obj) /\ BucketsOk localDay obj /\
  exists dropped, Permutation recs (bucketRecords obj ++ dropped).
Proof.
  destruct (@grouping_from localDay dateText recs (mkGrouping [] proto)
              GroupingOk_nil) as ((H1 & _ & H2 & _) & H3 & _).
  split; [exact H1|]. split; [exact H2|].
  destruct (filedRecords_sub localDay dateText recs (mkGrouping [] proto))
    as (dropped & H).
  exists dropped. unfold obj, groupRecords, grouping. rewrite H3. exact H.
Qed.

Lemma groupRecords_ok : GroupingOk localDay dateText obj.
Proof.
  exact (proj1 (@grouping_from localDay dateText recs (mkGrouping [] proto)
                  GroupingOk_nil)).
Qed.

Lemma groupRecords_incl : incl (bucketRecords obj) recs.
Proof.
  destruct groupRecords_invariant as (_ & _ & dropped & H).
  intros r Hr. apply (Permutation_in _ (Permutation_sym H)).
  apply in_or_app. now left.
Qed.

(** Every user key is the user id of a record. *)
Lemma groupRecords_keys u :
  In u (JS.keys obj) -> exists r, In r recs /\ rec_userId r = u.
Proof.
  intro Hu.
  destruct (@grouping_from localDay dateText recs (mkGrouping [] proto)
              GroupingOk_nil) as (_ & _ & H).
  apply H in Hu. cbn [recordsByUserAndDate JS.keys map] in Hu.
  rewrite app_nil_r in Hu. apply in_map_iff in Hu as (r & <- & Hr). eauto.
Qed.

(** When no record is filed on the prototype, the names there stay what
    they were, the own arrays hold exactly the records whose user id
    and date string are no such names, and the user keys are the user
    ids of the records that are no such names. *)
Lemma groupRecords_static :
  Unpolluted proto recs ->
  prototypeNames (grouping localDay dateText proto recs) = proto /\
  Permutation (bucketRecords obj)
    (filter (plainKeys localDay dateText proto) recs) /\
  (forall u, In u (JS.keys obj) <->
             JS.inherits proto u = false /\
             exists r, In r recs /\ rec_userId r = u).
Proof.
  intro Hu.
  assert (Hc : prototypeNames (mkGrouping [] proto) = proto /\
               Forall (fun e : string * DayBuckets =>
                 JS.inherits proto (fst e) = false /\
                 Forall (fun d => JS.inherits proto (dateText d) = false)
                        (JS.keys (snd e)))
                 (recordsByUserAndDate (mkGrouping [] proto))).
  { split; [reflexivity|constructor]. }
  destruct (@grouping_static localDay dateText proto recs _ Hc Hu)
    as (H1 & H2 & H3).
  destruct (@grouping_from localDay dateText recs (mkGrouping [] proto)
              GroupingOk_nil) as (_ & H4 & _).
  split; [exact H1|]. split.
  - unfold obj, groupRecords, grouping. rewrite H4, H2. reflexivity.
  - intro u. unfold obj, groupRecords, grouping. rewrite H3.
    cbn [recordsByUserAndDate JS.keys map In]. tauto.
Qed.

(** With plain keys throughout, every record is filed. *)
Lemma groupRecords_plain :
  Forall (fun r => plainKeys localDay dateText proto r = true) recs ->
  prototypeNames (grouping localDay dateText proto recs) = proto /\
  Permutation (bucketRecords obj) recs.
Proof.
  intro Hp.
  assert (Hu : Unpolluted proto recs).
  { eapply Forall_impl; [|exact Hp]. intros r Hr. unfold plainKeys in Hr.
    apply andb_prop in Hr as [Hr _]. unfold namesPrototype.
    apply negb_true_iff in Hr. rewrite Hr. apply andb_false_r. }
  destruct (groupRecords_static Hu) as (H1 & H2 & _).
  split; [exact H1|]. rewrite H2.
  rewrite filter_all_true; [reflexivity|exact Hp].
Qed.

End Grouped.



(** *** C1 *)


(** ** One user *)

Arguments pairDay : simpl never.
Arguments pairLoop : simpl never.
Arguments JS.sort : simpl never.

Lemma in_checkInsOf e r es :
  In e es -> checkIn e = Some r -> In r (checkInsOf es).
Proof.
  intros He Hr. unfold checkInsOf. apply in_flat_map. exists e.
  rewrite Hr. simpl. auto.
Qed.

Lemma in_checkOutsOf e r es :
  In e es -> checkOut e = Some r -> In r (checkOutsOf es).
Proof.
  intros He Hr. unfold checkOutsOf. apply in_flat_map. exists e.
  rewrite Hr. simpl. auto.
Qed.

Lemma sessionsOn_app d l1 l2 :
  sessionsOn d (l1 ++ l2) = sessionsOn d l1 ++ sessionsOn d l2.
Proof. apply filter_app. Qed.

Lemma sessionsOf_app u l1 l2 :
  sessionsOf u (l1 ++ l2) = sessionsOf u l1 ++ sessionsOf u l2.
Proof. apply filter_app. Qed.

Lemma sessionsOn_day uid d today es :
  Forall (WellFormed uid d) es ->
  sumMinutes (sessionsOn today es)
  = if DateString_eqb d today then sumMinutes es else 0.
Proof.
  intro H. unfold sessionsOn. destruct (DateString_eqb d today) eqn:E.
  - rewrite filter_all_true; [reflexivity|].
    eapply Forall_impl; [|exact H]. intros e (_ & -> & _). exact E.
  - rewrite filter_all_false; [reflexivity|].
    eapply Forall_impl; [|exact H]. intros e (_ & -> & _). exact E.
Qed.

Section OneUser.
Variables (localDay : Z -> Z) (user : User) (uid : string) (today : DateString).

Lemma processDate_shape p a b e :
  processDate user uid today (mkUserLoop p a b) e
  = let st := pairDay user uid (fst e) today
                (JS.sort compareRecords (snd e)) a b in
    mkUserLoop (p ++ checkInsAndOuts st)
      (userTotalMinutesToday st) (userTotalMinutesAllTime st).
Proof. reflexivity. Qed.

Lemma processDate_acc days : forall p a b,
  fold_left (processDate user uid today) days (mkUserLoop p a b)
  = let r := fold_left (processDate user uid today) days
               (mkUserLoop [] a b) in
    mkUserLoop (p ++ processed r) (minutesToday r) (minutesAllTime r).
Proof.
  induction days as [|e days IH]; intros p a b; cbn [fold_left].
  - cbv zeta. cbn [processed minutesToday minutesAllTime].
    now rewrite app_nil_r.
  - rewrite (processDate_shape p), (processDate_shape []). cbv zeta.
    rewrite IH. rewrite (IH ([] ++ _)). cbv zeta.
    cbn [processed minutesToday minutesAllTime app]. now rewrite app_assoc.
Qed.

(** What one date of a user contributes. *)
Lemma processDate_facts d bucket a b :
  Forall (fun r => rec_userId r = uid /\
                   toLocaleDateString localDay (getTime r) = d) bucket ->
  let r := processDate user uid today (mkUserLoop [] a b) (d, bucket) in
  Permutation (checkInsOf (processed r)) (filter isCheckIn bucket) /\
  Permutation (checkOutsOf (processed r)) (filter isCheckOut bucket) /\
  Forall (fun e => WellFormed uid (date e) e /\ FromBucket localDay e)
         (processed r) /\
  minutesAllTime r = b + sumMinutes (processed r) /\
  minutesToday r = a + sumMinutes (sessionsOn today (processed r)).
Proof.
  intros Hb r. unfold r. rewrite processDate_shape. cbv zeta.
  cbn [processed minutesToday minutesAllTime fst snd app].
  assert (Hasc : Ascending (JS.sort compareRecords bucket)).
  { apply (@sort_bucket_ascending localDay d).
    eapply Forall_impl; [|exact Hb]. now intros r0 [_ H]. }
  destruct (pairDay_facts user uid d today a b Hasc)
    as (Hci & Hco & Hwf & Hall & Htoday).
  set (es := checkInsAndOuts
               (pairDay user uid d today (JS.sort compareRecords bucket) a b))
    in *.
  assert (Hsort := sort_perm compareRecords bucket).
  split; [|split; [|split; [|split]]].
  - rewrite Hci. now apply Permutation_filter.
  - rewrite Hco. now apply Permutation_filter.
  - apply Forall_forall. intros e He.
    rewrite Forall_forall in Hwf. pose proof (Hwf e He) as (Hu & Hd & Hshape).
    split; [rewrite Hd; now apply Hwf|].
    intros x Hx. rewrite Hu, Hd. rewrite Forall_forall in Hb. apply Hb.
    destruct Hx as [Hx|Hx].
    + apply (in_checkInsOf _ _ He) in Hx. rewrite Hci in Hx.
      apply filter_In in Hx as [Hx _].
      now apply (Permutation_in _ Hsort).
    + apply (in_checkOutsOf _ _ He) in Hx.
      apply (Permutation_in _ Hco) in Hx.
      apply filter_In in Hx as [Hx _].
      now apply (Permutation_in _ Hsort).
  - exact Hall.
  - rewrite Htoday. now rewrite (sessionsOn_day today Hwf).
Qed.

(** What all the dates of a user contribute. *)
Lemma userLoop_facts days : forall a b,
  DaysOk localDay uid days ->
  let r := fold_left (processDate user uid today) days (mkUserLoop [] a b) in
  Permutation (checkInsOf (processed r)) (filter isCheckIn (dayRecordsOf days)) /\
  Permutation (checkOutsOf (processed r))
              (filter isCheckOut (dayRecordsOf days)) /\
  Forall (fun e => WellFormed uid (date e) e /\ FromBucket localDay e)
         (processed r) /\
  minutesAllTime r = b + sumMinutes (processed r) /\
  minutesToday r = a + sumMinutes (sessionsOn today (processed r)).
Proof.
  induction days as [|[d bucket] days IH]; intros a b Hok.
  - simpl. repeat split; auto; lia.
  - inversion Hok as [|? ? Hb Hrest]; subst. simpl in Hb.
    destruct (processDate_facts a b Hb) as (F1 & F2 & F3 & F4 & F5).
    cbv zeta. cbn [fold_left].
    set (r1 := processDate user uid today (mkUserLoop [] a b) (d, bucket)) in *.
    clearbody r1. destruct r1 as [p1 t1 a1].
    cbn [processed minutesToday minutesAllTime] in *.
    rewrite processDate_acc. cbv zeta.
    cbn [processed minutesToday minutesAllTime].
    destruct (IH t1 a1 Hrest) as (G1 & G2 & G3 & G4 & G5).
    set (r2 := fold_left (processDate user uid today) days
                 (mkUserLoop [] t1 a1)) in *.
    clearbody r2.
    unfold dayRecordsOf in *. cbn [flat_map snd].
    rewrite checkInsOf_app, checkOutsOf_app, sumMinutes_app, sessionsOn_app,
      sumMinutes_app, !filter_app.
    split; [now apply Permutation_app|].
    split; [now apply Permutation_app|].
    split; [apply Forall_app; now split|].
    split; lia.
Qed.

End OneUser.

(** ** All users *)

Lemma findUser_onRoster users u :
  (exists user, findUser users u = Some user) <->
  (forall r, rec_userId r = u -> onRoster users r = true).
Proof.
  unfold findUser, JS.find, onRoster. split.
  - intros [user H] r <-. apply find_some in H as [H1 H2].
    apply existsb_exists. eauto.
  - intro H. specialize (H (mkRecord EmptyString u EmptyString None) eq_refl). simpl in H.
    apply existsb_exists in H as (user & H1 & H2).
    destruct (find (fun u0 => (user_id u0 =? u)%string) users) eqn:E; [eauto|].
    apply find_none with (x := user) in E; [congruence|exact H1].
Qed.

Lemma findUser_none users u r :
  findUser users u = None -> rec_userId r = u -> onRoster users r = false.
Proof.
  intros H <-. destruct (onRoster users r) eqn:E; [|reflexivity].
  unfold onRoster in E. apply existsb_exists in E as (user & H1 & H2).
  unfold findUser, JS.find in H.
  apply find_none with (x := user) in H; [congruence|exact H1].
Qed.


Section AllUsers.
Variables (localDay : Z -> Z) (users : list User) (today : DateString).

Let sessionsFor := userSessions users today.
Let statsFor := userStatsOf users today.

(** The body of the per-user loop, through what the key yields, for a
    key that is new to the statistics and is listed after their keys. *)
Lemma processUser_shape t e :
  ~ In (fst e) (JS.keys (stats t)) ->
  Forall (fun k => JS.before JS.arrayIndex (fst e) k = false)
         (JS.keys (stats t)) ->
  processUser users today t e
  = mkTotals (allProcessed t ++ sessionsFor e)
      (stats t ++ statsFor e)
      (fold_left addShare (map snd (statsFor e)) (totalHoursTodaySum t))
      (usersWithHoursToday t
       + Z.of_nat (length (filter activeToday (map snd (statsFor e))))).
Proof.
  intros Hfresh Hlast. unfold processUser, sessionsFor, statsFor, userSessions,
    userStatsOf, userLoop. fold (findUser users (fst e)).
  destruct (findUser users (fst e)) as [user|].
  - rewrite processDate_acc. cbv zeta.
    cbn [processed minutesToday minutesAllTime map snd fold_left filter].
    rewrite (set_fresh _ JS.arrayIndex String.eqb_eq _ _ _ Hfresh).
    rewrite (place_last JS.arrayIndex _ _ _ Hlast).
    unfold addShare, activeToday, hoursShare. cbn [totalMinutesToday].
    destruct (0 <? _); cbn [length]; f_equal; lia.
  - destruct t. simpl. rewrite !app_nil_r. f_equal. lia.
Qed.

Lemma keys_statsFor e k : In k (JS.keys (statsFor e)) -> k = fst e.
Proof.
  unfold statsFor, userStatsOf.
  destruct (findUser users (fst e)); simpl;
    [intros [H|[]]; now symmetry|intros []].
Qed.

(** Closed form of the whole loop over the user keys, which come in the
    order of [Object.keys]: each statistics entry is appended. *)
Lemma processUsers_closed obj : forall t,
  NoDup (JS.keys obj) -> KeyOrdered JS.arrayIndex obj ->
  (forall k, In k (JS.keys obj) ->
     ~ In k (JS.keys (stats t)) /\
     Forall (fun k' => JS.before JS.arrayIndex k k' = false)
            (JS.keys (stats t))) ->
  fold_left (processUser users today) obj t
  = mkTotals (allProcessed t ++ flat_map sessionsFor obj)
      (stats t ++ flat_map statsFor obj)
      (fold_left addShare (map snd (flat_map statsFor obj))
         (totalHoursTodaySum t))
      (usersWithHoursToday t
       + Z.of_nat (length (filter activeToday
                             (map snd (flat_map statsFor obj))))).
Proof.
  induction obj as [|e obj IH]; intros t Hnd Hord Hfresh.
  - destruct t. simpl. rewrite !app_nil_r. f_equal. lia.
  - cbn [fold_left]. simpl in Hnd. inversion Hnd as [|? ? Hk Hnd']; subst.
    unfold KeyOrdered in Hord. simpl in Hord.
    inversion Hord as [|? ? Hord' Hafter]; subst.
    destruct (Hfresh (fst e) (or_introl eq_refl)) as [Hf Hl].
    rewrite (@processUser_shape t e Hf Hl).
    rewrite IH; [|exact Hnd'|exact Hord'|].
    + cbn [allProcessed stats totalHoursTodaySum usersWithHoursToday flat_map].
      rewrite !map_app, !filter_app, !length_app, fold_left_app, <- !app_assoc.
      f_equal. lia.
    + intros k Hin. cbn [stats]. rewrite keys_app.
      destruct (Hfresh k (or_intror Hin)) as [Hf' Hl']. split.
      * intro H. apply in_app_or in H as [H|H]; [tauto|].
        apply keys_statsFor in H. subst. tauto.
      * apply Forall_app. split; [exact Hl'|].
        apply Forall_forall. intros k' Hk'. apply keys_statsFor in Hk'.
        subst k'. rewrite Forall_forall in Hafter. now apply Hafter.
Qed.

End AllUsers.

(** ** The whole computation *)

Section Pipeline.
Variables (localDay : Z -> Z) (parseLocaleDate : DateString -> JS.Num)
    (dateText : DateString -> string) (proto : JS.Prototype).
Variables (users : list User) (today : DateString).

Let sessionsFor := userSessions users today.
Let statsFor := userStatsOf users today.

Lemma sessionsFor_facts u days :
  DaysOk localDay u days ->
  Permutation (checkInsOf (sessionsFor (u, days)))
    (filter (fun r => isCheckIn r && onRoster users r) (dayRecordsOf days)) /\
  Permutation (checkOutsOf (sessionsFor (u, days)))
    (filter (fun r => isCheckOut r && onRoster users r) (dayRecordsOf days)) /\
  Forall (fun e => WellFormed u (date e) e /\ FromBucket localDay e)
         (sessionsFor (u, days)).
Proof.
  intro Hok. unfold sessionsFor, userSessions. cbn [fst snd].
  assert (Hu : Forall (fun r => rec_userId r = u) (dayRecordsOf days)).
  { unfold dayRecordsOf. apply Forall_forall. intros r Hr.
    apply in_flat_map in Hr as (b & Hb & Hr).
    unfold DaysOk in Hok. rewrite Forall_forall in Hok.
    specialize (Hok b Hb). rewrite Forall_forall in Hok.
    now apply Hok. }
  destruct (findUser users u) as [user|] eqn:E.
  - destruct (userLoop_facts user today 0 0 Hok)
      as (H1 & H2 & H3 & _).
    assert (Hr : forall p, filter (fun r => p r && onRoster users r)
                             (dayRecordsOf days)
                           = filter p (dayRecordsOf days)).
    { intro p. apply filter_ext_in. intros r Hr.
      rewrite Forall_forall in Hu.
      rewrite (proj1 (findUser_onRoster users u) (ex_intro _ user E) r (Hu r Hr)).
      apply andb_true_r. }
    rewrite !Hr. auto.
  - assert (Hr : forall p, filter (fun r => p r && onRoster users r)
                             (dayRecordsOf days) = []).
    { intro p. apply filter_all_false. eapply Forall_impl; [|exact Hu].
      intros r Hr. cbv beta. rewrite (findUser_none users r E Hr).
      apply andb_false_r. }
    rewrite !Hr. simpl. repeat split; constructor.
Qed.

(** The sessions of all buckets: every roster check-in and every roster
    check-out is an endpoint exactly once. *)
Lemma sessions_facts obj :
  BucketsOk localDay obj ->
  Permutation (checkInsOf (flat_map sessionsFor obj))
    (filter (fun r => isCheckIn r && onRoster users r) (bucketRecords obj)) /\
  Permutation (checkOutsOf (flat_map sessionsFor obj))
    (filter (fun r => isCheckOut r && onRoster users r) (bucketRecords obj)) /\
  Forall (fun e => WellFormed (userId e) (date e) e /\ FromBucket localDay e)
         (flat_map sessionsFor obj).
Proof.
  induction 1 as [|[u days] obj [Hd _] _ (I1 & I2 & I3)]; simpl.
  - repeat split; constructor.
  - cbn [fst snd] in Hd.
    destruct (sessionsFor_facts Hd) as (H1 & H2 & H3).
    rewrite checkInsOf_app, checkOutsOf_app, !filter_app.
    split; [now apply Permutation_app|].
    split; [now apply Permutation_app|].
    apply Forall_app. split; [|exact I3].
    eapply Forall_impl; [|exact H3].
    intros e [Hw Hf]. split; [|exact Hf].
    destruct Hw as (Hu & Hw). now rewrite Hu.
Qed.

Lemma sessionsOf_other u u' days :
  DaysOk localDay u' days -> u <> u' ->
  sessionsOf u (sessionsFor (u', days)) = [].
Proof.
  intros Hd Hne. destruct (sessionsFor_facts Hd) as (_ & _ & H).
  apply filter_all_false. eapply Forall_impl; [|exact H].
  intros e [(Hu & _) _]. cbv beta. rewrite Hu.
  apply (eqb_neq _ String.eqb_eq). congruence.
Qed.

Lemma sessionsOf_same u days :
  DaysOk localDay u days ->
  sessionsOf u (sessionsFor (u, days)) = sessionsFor (u, days).
Proof.
  intros Hd. destruct (sessionsFor_facts Hd) as (_ & _ & H).
  apply filter_all_true. eapply Forall_impl; [|exact H].
  intros e [(Hu & _) _]. cbv beta. rewrite Hu. apply String.eqb_refl.
Qed.

Lemma sessionsOf_absent obj u :
  BucketsOk localDay obj -> ~ In u (JS.keys obj) ->
  sessionsOf u (flat_map sessionsFor obj) = [].
Proof.
  induction 1 as [|[u' days'] obj [Hd _] Hok IH]; intro Hk; [reflexivity|].
  cbn [fst snd] in Hd. simpl in Hk.
  cbn [flat_map]. rewrite sessionsOf_app, (sessionsOf_other Hd), IH; auto.
Qed.

(** With distinct keys the sessions of a user are those of its key. *)
Lemma sessionsOf_own obj u days :
  BucketsOk localDay obj -> NoDup (JS.keys obj) -> In (u, days) obj ->
  sessionsOf u (flat_map sessionsFor obj) = sessionsFor (u, days).
Proof.
  induction 1 as [|[u' days'] obj [Hd _] Hok IH]; intros Hnd Hin;
    [destruct Hin|].
  cbn [fst snd] in Hd. simpl in Hnd. inversion Hnd as [|? ? Hk Hnd']; subst.
  cbn [flat_map]. rewrite sessionsOf_app.
  destruct Hin as [Heq|Hin].
  - injection Heq as -> ->. rewrite (sessionsOf_same Hd).
    now rewrite (@sessionsOf_absent obj u Hok Hk), app_nil_r.
  - rewrite (sessionsOf_other Hd).
    + now apply IH.
    + intros ->. apply Hk. apply in_map_iff. exists (u', days). auto.
Qed.

(** Every statistics entry totals the minutes of its user's sessions. *)
Lemma stats_facts obj u st :
  BucketsOk localDay obj -> NoDup (JS.keys obj) ->
  In (u, st) (flat_map statsFor obj) ->
  exists user days,
    In (u, days) obj /\ findUser users u = Some user /\
    name st = user_name user /\ email st = user_email user /\
    totalMinutesAllTime st
    = sumMinutes (sessionsOf u (flat_map sessionsFor obj)) /\
    totalMinutesToday st
    = sumMinutes (sessionsOn today (sessionsOf u (flat_map sessionsFor obj))) /\
    totalHoursToday st = hoursOfMinutes (totalMinutesToday st) /\
    totalHoursAllTime st = hoursOfMinutes (totalMinutesAllTime st).
Proof.
  intros Hok Hnd Hin. apply in_flat_map in Hin as ([u' days] & He & Hin).
  unfold statsFor, userStatsOf in Hin. cbn [fst snd] in Hin.
  destruct (findUser users u') as [user|] eqn:E; [|destruct Hin].
  destruct Hin as [Hin|[]]. injection Hin as <- <-.
  exists user, days. rewrite (@sessionsOf_own obj u' days Hok Hnd He).
  unfold sessionsFor, userSessions. cbn [fst snd]. rewrite E.
  unfold BucketsOk in Hok. rewrite Forall_forall in Hok.
  destruct (Hok _ He) as [Hd _]. cbn [fst snd] in Hd.
  destruct (userLoop_facts user today 0 0 Hd)
    as (_ & _ & _ & H4 & H5).
  fold (userLoop user u' today days) in H4, H5.
  cbn [name email totalMinutesAllTime totalMinutesToday totalHoursToday
       totalHoursAllTime].
  repeat split; auto; lia.
Qed.

Lemma get_stats obj u :
  NoDup (JS.keys obj) ->
  JS.get String.eqb u (flat_map statsFor obj)
  = match JS.get String.eqb u obj with
    | Some days => option_map snd (hd_error (statsFor (u, days)))
    | None => None
    end.
Proof.
  induction obj as [|[u' days] obj IH]; intro Hnd; [reflexivity|].
  simpl in Hnd. inversion Hnd as [|? ? Hk Hnd']; subst.
  cbn [flat_map JS.get]. unfold statsFor at 1, userStatsOf. cbn [fst snd].
  destruct (String.eqb u u') eqn:E.
  - apply String.eqb_eq in E as ->.
    unfold statsFor, userStatsOf. cbn [fst snd].
    destruct (findUser users u') as [user|].
    + simpl. now rewrite String.eqb_refl.
    + simpl. apply (get_notin _ String.eqb_eq).
      intro H. apply Hk. unfold JS.keys in H.
      apply in_map_iff in H as ([k v] & Hk1 & Hk2). simpl in Hk1. subst k.
      apply in_flat_map in Hk2 as (e & He & Hk2).
      apply in_map_iff. exists e. split; [|exact He].
      symmetry. apply (keys_statsFor users today e).
      apply in_map_iff. exists (u', v). auto.
  - destruct (findUser users u') as [user|]; simpl.
    + rewrite E. now apply IH.
    + now apply IH.
Qed.

End Pipeline.

(** ** The output of the guarded block *)

Lemma sumMinutes_perm l l' :
  Permutation l l' -> sumMinutes l = sumMinutes l'.
Proof.
  induction 1; rewrite ?sumMinutes_cons; lia.
Qed.

Lemma Forall_perm {A} (P : A -> Prop) l l' :
  Permutation l l' -> Forall P l -> Forall P l'.
Proof.
  intros Hp H. apply Forall_forall. intros x Hx.
  rewrite Forall_forall in H. apply H.
  apply (Permutation_in _ (Permutation_sym Hp) Hx).
Qed.

Lemma checkInsOf_perm l l' :
  Permutation l l' -> Permutation (checkInsOf l) (checkInsOf l').
Proof. apply Permutation_flat_map. Qed.

Lemma checkOutsOf_perm l l' :
  Permutation l l' -> Permutation (checkOutsOf l) (checkOutsOf l').
Proof. apply Permutation_flat_map. Qed.

Section Output.
Variables (localDay : Z -> Z) (parseLocaleDate : DateString -> JS.Num)
    (dateText : DateString -> string) (proto : JS.Prototype).
Variables (now : Z) (records : list AttendanceRecord) (users : list User).

Let s := processAttendance localDay parseLocaleDate dateText proto now records users.
Let today := toLocaleDateString localDay (Some now).
Let obj := groupRecords localDay dateText proto records.

Lemma output_closed :
  processedAttendance s
  = JS.sort (compareProcessed parseLocaleDate)
      (flat_map (userSessions users today) obj) /\
  userStats s = flat_map (userStatsOf users today) obj /\
  avgHoursToday (dashboardStats s)
  = (if 0 <? Z.of_nat (length (filter activeToday (map snd (userStats s))))
     then JS.toFixed1
            (PrimFloat.div
               (fold_left addShare (map snd (userStats s)) 0%float)
               (JS.ofZ (Z.of_nat (length (filter activeToday
                                            (map snd (userStats s)))))))
     else 0%float).
Proof.
  unfold s, processAttendance. fold today. fold obj.
  destruct (groupRecords_ok localDay dateText proto records) as (Hnd & Hord & _).
  fold obj in Hnd, Hord.
  rewrite (@processUsers_closed users today obj (mkTotals [] [] 0%float 0)
             Hnd Hord)
    by (intros k _; split; [intros []|constructor]).
  cbn [allProcessed stats totalHoursTodaySum usersWithHoursToday
       processedAttendance userStats dashboardStats avgHoursToday app].
  rewrite Z.add_0_l. auto.
Qed.

Lemma output_perm :
  Permutation (processedAttendance s)
    (flat_map (userSessions users today) obj).
Proof.
  destruct output_closed as [-> _]. apply sort_perm.
Qed.

(** Every session is well formed and made of records of its own user
    and date string. *)
Lemma output_sessions :
  Forall (fun e => WellFormed (userId e) (date e) e /\ FromBucket localDay e)
         (processedAttendance s).
Proof.
  destruct (groupRecords_invariant localDay dateText proto records) as (_ & Hok & _).
  destruct (sessions_facts users today Hok) as (_ & _ & H).
  exact (Forall_perm (Permutation_sym output_perm) H).
Qed.

(** The check-ins (check-outs) that appear in sessions are the roster
    check-ins (check-outs) that the grouping filed, each once. *)
Lemma output_endpoints :
  Permutation (checkInsOf (processedAttendance s))
    (filter (fun r => isCheckIn r && onRoster users r) (bucketRecords obj)) /\
  Permutation (checkOutsOf (processedAttendance s))
    (filter (fun r => isCheckOut r && onRoster users r) (bucketRecords obj)).
Proof.
  destruct (groupRecords_invariant localDay dateText proto records)
    as (_ & Hok & _).
  destruct (sessions_facts users today Hok) as (H1 & H2 & _).
  fold obj in H1, H2. split.
  - now rewrite (checkInsOf_perm output_perm), H1.
  - now rewrite (checkOutsOf_perm output_perm), H2.
Qed.

(** Every endpoint of a session is a record of the input. *)
Lemma output_from_input e r :
  In e (processedAttendance s) ->
  checkIn e = Some r \/ checkOut e = Some r -> In r records.
Proof.
  intros He Hr. destruct output_endpoints as [Hin Hout].
  apply (groupRecords_incl localDay dateText proto records). fold obj.
  destruct Hr as [Hr|Hr].
  - apply (in_checkInsOf _ _ He) in Hr.
    apply (Permutation_in _ Hin) in Hr. now apply filter_In in Hr.
  - apply (in_checkOutsOf _ _ He) in Hr.
    apply (Permutation_in _ Hout) in Hr. now apply filter_In in Hr.
Qed.

(** A user has a statistics entry exactly when the roster knows the user
    and the grouping made a key for the user's id, which some record
    carries; the entry totals the minutes of the user's sessions. *)
Lemma output_stats u :
  match JS.get String.eqb u (userStats s) with
  | Some st =>
      (exists user, findUser users u = Some user /\
                    name st = user_name user /\ email st = user_email user) /\
      (In u (JS.keys obj) /\ exists r, In r records /\ rec_userId r = u) /\
      totalMinutesAllTime st = sumMinutes (sessionsOf u (processedAttendance s)) /\
      totalMinutesToday st
      = sumMinutes (sessionsOn today (sessionsOf u (processedAttendance s))) /\
      totalHoursToday st = hoursOfMinutes (totalMinutesToday st) /\
      totalHoursAllTime st = hoursOfMinutes (totalMinutesAllTime st)
  | None =>
      findUser users u = None \/ ~ In u (JS.keys obj)
  end.
Proof.
  destruct (groupRecords_invariant localDay dateText proto records)
    as (Hnd & Hok & _).
  fold obj in Hnd, Hok.
  destruct output_closed as (_ & Hstats & _). rewrite Hstats.
  rewrite (@get_stats users today obj u Hnd).
  destruct (JS.get String.eqb u obj) as [days|] eqn:Eg.
  - apply (get_in _ String.eqb_eq) in Eg.
    unfold userStatsOf at 1. cbn [fst snd].
    destruct (findUser users u) as [user|] eqn:Eu; cbn [hd_error option_map snd];
      [|now left].
    assert (Hin : In (u, snd (u, (mkUserStats (user_name user) (user_email user)
        (minutesToday (userLoop user u today days))
        (hoursOfMinutes (minutesToday (userLoop user u today days)))
        (minutesAllTime (userLoop user u today days))
        (hoursOfMinutes (minutesAllTime (userLoop user u today days))))))
      (flat_map (userStatsOf users today) obj)).
    { apply in_flat_map. exists (u, days). split; [exact Eg|].
      unfold userStatsOf. cbn [fst snd]. rewrite Eu. now left. }
    destruct (@stats_facts localDay users today obj u _ Hok Hnd Hin)
      as (user' & days' & _ & Hu' & Hn & He & Hall & Htoday & Hh1 & Hh2).
    cbn [snd] in *.
    split; [exists user; repeat split; auto|].
    assert (Hkey : In u (JS.keys obj)).
    { apply in_map_iff. exists (u, days). auto. }
    split.
    + split; [exact Hkey|].
      exact (groupRecords_keys localDay dateText proto records u Hkey).
    + assert (Hp := Permutation_filter (fun e => String.eqb (userId e) u)
                      output_perm).
      fold (sessionsOf u (processedAttendance s)) in Hp.
      fold (sessionsOf u (flat_map (userSessions users today) obj)) in Hp.
      rewrite (sumMinutes_perm Hp). unfold sessionsOn in *.
      rewrite (sumMinutes_perm
                 (Permutation_filter (fun e => DateString_eqb (date e) today) Hp)).
      auto.
  - right. now apply (get_none _ String.eqb_eq) in Eg.
Qed.

(** A user that has no key has no session. *)
Lemma output_absent u :
  ~ In u (JS.keys obj) -> sessionsOf u (processedAttendance s) = [].
Proof.
  intro Hk.
  destruct (groupRecords_invariant localDay dateText proto records)
    as (_ & Hok & _).
  fold obj in Hok.
  pose proof (Permutation_filter (fun e => String.eqb (userId e) u)
                output_perm) as Hp.
  fold (sessionsOf u (processedAttendance s)) in Hp.
  fold (sessionsOf u (flat_map (userSessions users today) obj)) in Hp.
  rewrite (@sessionsOf_absent localDay users today obj u Hok Hk) in Hp.
  apply Permutation_sym in Hp. now apply Permutation_nil in Hp.
Qed.

End Output.

(** ** Durations *)

(** [roundDiv n d] is the integer nearest to [n / d], halves going up. *)
Lemma roundDiv_nearest n d :
  0 < d ->
  2 * n - d < 2 * d * JS.roundDiv n d <= 2 * n + d.
Proof.
  intro Hd. unfold JS.roundDiv.
  pose proof (Z.div_mod (2 * n + d) (2 * d) ltac:(lia)) as H.
  pose proof (Z.mod_pos_bound (2 * n + d) (2 * d) ltac:(lia)) as Hm.
  lia.
Qed.

Lemma roundDiv_nonneg n d : 0 < d -> 0 <= n -> 0 <= JS.roundDiv n d.
Proof. intros Hd Hn. unfold JS.roundDiv. apply Z.div_pos; lia. Qed.

Lemma roundDiv_small n : 0 <= n < 30000 -> JS.roundDiv n 60000 = 0.
Proof. intro H. unfold JS.roundDiv. apply Z.div_small. lia. Qed.

(** The shape of a session with both endpoints. *)
Lemma WellFormed_matched uid day e ci co :
  WellFormed uid day e -> checkIn e = Some ci -> checkOut e = Some co ->
  exists ti to,
    getTime ci = Some ti /\ getTime co = Some to /\ ti < to /\
    duration e = Some (JS.roundDiv (to - ti) 60000).
Proof.
  intros (_ & _ & H) Hci Hco. rewrite Hci, Hco in H.
  destruct H as (_ & Hm & Hd).
  apply isMatchFor_times in Hm as (_ & ti & to & H1 & H2 & H3 & H4).
  exists ti, to. rewrite Hd, H4. auto.
Qed.

Lemma WellFormed_duration uid day e :
  WellFormed uid day e ->
  (duration e <> None <-> checkIn e <> None /\ checkOut e <> None).
Proof.
  intros (_ & _ & H).
  destruct (checkIn e) as [ci|], (checkOut e) as [co|].
  - destruct H as (_ & _ & ->). split; [split|]; discriminate.
  - destruct H as (_ & ->). split; [congruence|tauto].
  - destruct H as (_ & ->). split; [congruence|tauto].
  - destruct H.
Qed.

(** *** C2 *)

(** C2: in every session produced with both endpoints the check-out is
    strictly later than the check-in and [duration] is the difference in
    milliseconds divided by 60000 and rounded to the nearest integer
    (halves up), hence never negative; [duration] is present exactly
    when both endpoints are; a session that lacks an endpoint counts for
    zero minutes, and each user's totals are the sums of the minutes of
    that user's sessions (of today's sessions, for the total of
    today). *)
Theorem C2_duration_and_totals
    (localDay : Z -> Z) (parseLocaleDate : DateString -> JS.Num)
    (dateText : DateString -> string) (proto : JS.Prototype)
    (now : Z) (records : list AttendanceRecord) (users : list User) :
  let s := processAttendance localDay parseLocaleDate dateText proto now records users in
  let today := toLocaleDateString localDay (Some now) in
  (forall e, In e (processedAttendance s) ->
     (forall ci co, checkIn e = Some ci -> checkOut e = Some co ->
        exists ti to m,
          getTime ci = Some ti /\ getTime co = Some to /\ ti < to /\
          duration e = Some m /\ m = JS.roundDiv (to - ti) 60000 /\
          2 * (to - ti) - 60000 < 2 * 60000 * m <= 2 * (to - ti) + 60000 /\
          0 <= m) /\
     (duration e <> None <-> checkIn e <> None /\ checkOut e <> None) /\
     (checkIn e = None \/ checkOut e = None -> entryMinutes e = 0)) /\
  (forall u st, JS.get String.eqb u (userStats s) = Some st ->
     totalMinutesAllTime st
     = sumMinutes (sessionsOf u (processedAttendance s)) /\
     totalMinutesToday st
     = sumMinutes (sessionsOn today (sessionsOf u (processedAttendance s)))).
Proof.
  intros s today. split.
  - intros e He.
    pose proof (output_sessions localDay parseLocaleDate dateText proto now records users)
      as Hall.
    rewrite Forall_forall in Hall. destruct (Hall e He) as [Hwf _].
    split; [|split].
    + intros ci co Hci Hco.
      destruct (WellFormed_matched Hwf Hci Hco) as (ti & to & H1 & H2 & H3 & H4).
      exists ti, to, (JS.roundDiv (to - ti) 60000).
      repeat split; auto.
      * apply roundDiv_nearest. lia.
      * apply roundDiv_nearest. lia.
      * apply roundDiv_nonneg; lia.
    + exact (WellFormed_duration Hwf).
    + intro H. unfold entryMinutes.
      destruct (duration e) as [d|] eqn:Ed; [|reflexivity].
      assert (Hd : duration e <> None) by congruence.
      apply (WellFormed_duration Hwf) in Hd. tauto.
  - intros u st Hget.
    pose proof (output_stats localDay parseLocaleDate dateText proto now records users u) as H.
    fold s in H. rewrite Hget in H. tauto.
Qed.

(** *** C10 *)

(** C10: a session whose check-out follows its check-in by less than 30
    seconds has [duration] 0: it is a matched session (its check-out is
    not null) that counts for zero minutes, whereas a session without
    check-out has no [duration] at all.  Such sessions occur: a visit of
    ten seconds yields one, and the totals of its user stay 0. *)
Theorem C10_short_gap_rounds_to_zero :
  (forall (localDay : Z -> Z) (parseLocaleDate : DateString -> JS.Num)
    (dateText : DateString -> string) (proto : JS.Prototype)
          (now : Z) (records : list AttendanceRecord) (users : list User)
          e ci co ti to,
     In e (processedAttendance
             (processAttendance localDay parseLocaleDate dateText proto now records users)) ->
     checkIn e = Some ci -> checkOut e = Some co ->
     getTime ci = Some ti -> getTime co = Some to ->
     to - ti < 30000 ->
     ti < to /\ duration e = Some 0 /\ entryMinutes e = 0)
  /\
  (forall (localDay : Z -> Z) (parseLocaleDate : DateString -> JS.Num)
    (dateText : DateString -> string) (proto : JS.Prototype)
          (now : Z) (records : list AttendanceRecord) (users : list User) e,
     In e (processedAttendance
             (processAttendance localDay parseLocaleDate dateText proto now records users)) ->
     checkOut e = None -> duration e = None)
  /\
  (let s := processAttendance utcDay utcParse utcText JS.builtin (at_ 0 12 0) shortVisit [alice] in
   exists e st,
     processedAttendance s = [e] /\
     checkIn e <> None /\ checkOut e <> None /\ duration e = Some 0 /\
     userStats s = [("alice"%string, st)] /\
     totalMinutesToday st = 0 /\ totalMinutesAllTime st = 0).
Proof.
  split; [|split].
  - intros localDay parseLocaleDate dateText proto now records users e ci co ti to
      He Hci Hco Hti Hto Hgap.
    pose proof (output_sessions localDay parseLocaleDate dateText proto now records users)
      as Hall.
    rewrite Forall_forall in Hall. destruct (Hall e He) as [Hwf _].
    destruct (WellFormed_matched Hwf Hci Hco) as (ti' & to' & H1 & H2 & H3 & H4).
    assert (ti' = ti) by congruence. assert (to' = to) by congruence. subst.
    unfold entryMinutes. rewrite H4, roundDiv_small by lia. auto.
  - intros localDay parseLocaleDate dateText proto now records users e He Hco.
    pose proof (output_sessions localDay parseLocaleDate dateText proto now records users)
      as Hall.
    rewrite Forall_forall in Hall. destruct (Hall e He) as [Hwf _].
    destruct (duration e) eqn:Ed; [|reflexivity].
    assert (Hd : duration e <> None) by congruence.
    apply (WellFormed_duration Hwf) in Hd. tauto.
  - vm_compute. eexists. eexists.
    repeat split; try reflexivity; discriminate.
Qed.

(** ** Conservation of punches *)

Lemma length_checkInsOf l :
  length (checkInsOf l)
  = length (filter (fun e => match checkIn e with
                              | Some _ => true | None => false end) l).
Proof.
  induction l as [|e l IH]; simpl; [reflexivity|].
  destruct (checkIn e); simpl; now rewrite IH.
Qed.

Lemma NoDup_map_filter {A B} (f : A -> B) (p : A -> bool) l :
  NoDup (map f l) -> NoDup (map f (filter p l)).
Proof.
  induction l as [|x l IH]; simpl; intro H; [constructor|].
  inversion H as [|? ? Hx Hl]; subst.
  destruct (p x); [|now apply IH]. simpl. constructor; [|now apply IH].
  intro Hin. apply Hx. apply in_map_iff in Hin as (y & Hy & Hin).
  apply filter_In in Hin as [Hin _]. apply in_map_iff. eauto.
Qed.

(** *** C5 *)

(** C5 (as amended): when no user id and no date string of an event
    is a name on [Object.prototype], then, counting the events whose
    user is on the roster, the sessions with a check-in are as many as
    the check-in events, the check-ins of the sessions are exactly those
    events, and the check-outs of the sessions are exactly the check-out
    events; when the event ids are unique, no id occurs twice among the
    check-ins of the sessions nor among their check-outs, and every such
    check-out event is the check-out of exactly one session. *)
Theorem C5_conservation_on_roster
    (localDay : Z -> Z) (parseLocaleDate : DateString -> JS.Num)
    (dateText : DateString -> string) (proto : JS.Prototype)
    (now : Z) (records : list AttendanceRecord) (users : list User) :
  NoDup (map rec_id records) ->
  PlainKeys localDay dateText proto records ->
  let sessions :=
    processedAttendance
      (processAttendance localDay parseLocaleDate dateText proto now records users) in
  let rosterIns := filter (fun r => isCheckIn r && onRoster users r) records in
  let rosterOuts := filter (fun r => isCheckOut r && onRoster users r) records in
  length (filter (fun e => match checkIn e with
                           | Some _ => true | None => false end) sessions)
  = length rosterIns /\
  Permutation (checkInsOf sessions) rosterIns /\
  Permutation (checkOutsOf sessions) rosterOuts /\
  NoDup (map rec_id (checkInsOf sessions)) /\
  NoDup (map rec_id (checkOutsOf sessions)) /\
  (forall r, In r rosterOuts ->
     count_occ string_dec (map rec_id (checkOutsOf sessions)) (rec_id r) = 1%nat).
Proof.
  intros Hids Hplain sessions rosterIns rosterOuts.
  destruct (output_endpoints localDay parseLocaleDate dateText proto now records users)
    as [Hin Hout].
  destruct (@groupRecords_plain localDay dateText proto records Hplain)
    as [_ Hall].
  rewrite (Permutation_filter (fun r => isCheckIn r && onRoster users r) Hall)
    in Hin.
  rewrite (Permutation_filter (fun r => isCheckOut r && onRoster users r) Hall)
    in Hout.
  fold sessions rosterIns rosterOuts in Hin, Hout.
  assert (Hnd_in : NoDup (map rec_id (checkInsOf sessions))).
  { apply (Permutation_NoDup (Permutation_sym (Permutation_map rec_id Hin))).
    now apply NoDup_map_filter. }
  assert (Hnd_out : NoDup (map rec_id (checkOutsOf sessions))).
  { apply (Permutation_NoDup (Permutation_sym (Permutation_map rec_id Hout))).
    now apply NoDup_map_filter. }
  split; [|split; [|split; [|split; [|split]]]]; auto.
  - rewrite <- length_checkInsOf. now apply Permutation_length.
  - intros r Hr.
    apply (proj1 (NoDup_count_occ' string_dec _) Hnd_out).
    apply (Permutation_in _ (Permutation_sym (Permutation_map rec_id Hout))).
    now apply in_map.
Qed.

(** ** Records without a valid timestamp *)

(** *** C7 *)

(** C7 (as amended): a record whose timestamp does not parse does not
    stop the computation.  If its user is on the roster, and neither its
    user id nor the date string of an invalid date is a name on
    [Object.prototype], where no record is filed, it is kept under the
    date string of an invalid date and is never paired with another
    record: a check-in gives a session with a null check-out and no
    duration, a check-out gives a session with a null check-in. *)
Theorem C7_invalid_timestamp_kept_unpaired
    (localDay : Z -> Z) (parseLocaleDate : DateString -> JS.Num)
    (dateText : DateString -> string) (proto : JS.Prototype)
    (now : Z) (records : list AttendanceRecord) (users : list User) r :
  In r records -> getTime r = None -> onRoster users r = true ->
  Unpolluted proto records -> plainKeys localDay dateText proto r = true ->
  let sessions :=
    processedAttendance
      (processAttendance localDay parseLocaleDate dateText proto now records users) in
  (isCheckIn r = true ->
   exists e, In e sessions /\ checkIn e = Some r /\ checkOut e = None /\
             duration e = None /\ date e = InvalidDate) /\
  (isCheckOut r = true ->
   exists e, In e sessions /\ checkOut e = Some r /\ checkIn e = None /\
             duration e = None /\ date e = InvalidDate) /\
  (forall e, In e sessions ->
     checkIn e = Some r \/ checkOut e = Some r ->
     checkIn e = None \/ checkOut e = None).
Proof.
  intros Hr Ht Hroster Hclean Hplain sessions.
  assert (Hfiled : In r (bucketRecords
                           (groupRecords localDay dateText proto records))).
  { destruct (@groupRecords_static localDay dateText proto records Hclean)
      as (_ & Hp & _).
    apply (Permutation_in _ (Permutation_sym Hp)). apply filter_In. auto. }
  destruct (output_endpoints localDay parseLocaleDate dateText proto now records users)
    as [Hin Hout].
  pose proof (output_sessions localDay parseLocaleDate dateText proto now records users)
    as Hall.
  fold sessions in Hin, Hout, Hall. rewrite Forall_forall in Hall.
  assert (Hunpaired : forall e, In e sessions ->
            checkIn e = Some r \/ checkOut e = Some r ->
            checkIn e = None \/ checkOut e = None).
  { intros e He Hend. destruct (Hall e He) as [Hwf _].
    destruct (checkIn e) as [ci|] eqn:Eci; [|now left].
    destruct (checkOut e) as [co|] eqn:Eco; [|now right].
    destruct (WellFormed_matched Hwf Eci Eco) as (ti & to & H1 & H2 & _).
    destruct Hend as [Hend|Hend]; injection Hend as ->; congruence. }
  assert (Hdate : forall e, In e sessions ->
            checkIn e = Some r \/ checkOut e = Some r -> date e = InvalidDate).
  { intros e He Hend. destruct (Hall e He) as [_ Hfrom].
    destruct (Hfrom r Hend) as [_ <-]. now rewrite Ht. }
  split; [|split; [|exact Hunpaired]].
  - intro Htype.
    assert (Hmem : In r (checkInsOf sessions)).
    { apply (Permutation_in _ (Permutation_sym Hin)). apply filter_In.
      split; [exact Hfiled|]. now rewrite Htype, Hroster. }
    unfold checkInsOf in Hmem. apply in_flat_map in Hmem as (e & He & Hmem).
    destruct (checkIn e) as [ci|] eqn:Eci; [|destruct Hmem].
    destruct Hmem as [->|[]]. exists e.
    destruct (Hunpaired e He (or_introl Eci)) as [H|H]; [congruence|].
    destruct (Hall e He) as [Hwf _].
    split; [exact He|]. split; [exact Eci|]. split; [exact H|]. split.
    + destruct (duration e) eqn:Ed; [|reflexivity].
      assert (Hd : duration e <> None) by congruence.
      apply (WellFormed_duration Hwf) in Hd. tauto.
    + apply Hdate; auto.
  - intro Htype.
    assert (Hmem : In r (checkOutsOf sessions)).
    { apply (Permutation_in _ (Permutation_sym Hout)). apply filter_In.
      split; [exact Hfiled|]. now rewrite Htype, Hroster. }
    unfold checkOutsOf in Hmem. apply in_flat_map in Hmem as (e & He & Hmem).
    destruct (checkOut e) as [co|] eqn:Eco; [|destruct Hmem].
    destruct Hmem as [->|[]]. exists e.
    destruct (Hunpaired e He (or_intror Eco)) as [H|H]; [|congruence].
    destruct (Hall e He) as [Hwf _].
    split; [exact He|]. split; [exact Eco|]. split; [exact H|]. split.
    + destruct (duration e) eqn:Ed; [|reflexivity].
      assert (Hd : duration e <> None) by congruence.
      apply (WellFormed_duration Hwf) in Hd. tauto.
    + apply Hdate; auto.
Qed.

(** ** Days do not mix *)

(** One check-in and one check-out of different date strings make two
    sessions. *)
Lemma two_sessions localDay P ci co :
  Forall (fun e => WellFormed (userId e) (date e) e /\ FromBucket localDay e) P ->
  checkInsOf P = [ci] -> checkOutsOf P = [co] ->
  toLocaleDateString localDay (getTime ci)
  <> toLocaleDateString localDay (getTime co) ->
  exists e1 e2,
    Permutation P [e1; e2] /\
    checkIn e1 = Some ci /\ checkOut e1 = None /\ duration e1 = None /\
    date e1 = toLocaleDateString localDay (getTime ci) /\
    checkIn e2 = None /\ checkOut e2 = Some co /\ duration e2 = None /\
    date e2 = toLocaleDateString localDay (getTime co).
Proof.
  intros Hall Hin Hout Hdiff.
  assert (Hnil : forall Q,
            Forall (fun e => WellFormed (userId e) (date e) e /\
                             FromBucket localDay e) Q ->
            checkInsOf Q = [] -> checkOutsOf Q = [] -> Q = []).
  { intros Q HQ H1 H2. destruct Q as [|e Q]; [reflexivity|].
    inversion HQ as [|? ? [(_ & _ & Hshape) _] _]; subst. simpl in H1, H2.
    destruct (checkIn e); [discriminate|].
    destruct (checkOut e); [discriminate|]. destruct Hshape. }
  destruct P as [|e P]; [discriminate|].
  inversion Hall as [|? ? [Hwf Hfrom] Hall']; subst.
  simpl in Hin, Hout.
  destruct (checkIn e) as [x|] eqn:Ex, (checkOut e) as [y|] eqn:Ey.
  - (* both endpoints: they would share a date string *)
    injection Hin as -> _. injection Hout as -> _.
    destruct (Hfrom ci (or_introl Ex)) as [_ H1].
    destruct (Hfrom co (or_intror Ey)) as [_ H2]. congruence.
  - injection Hin as -> Hin. simpl in Hout.
    destruct P as [|e2 P]; [discriminate|].
    inversion Hall' as [|? ? [Hwf2 Hfrom2] Hall'']; subst.
    simpl in Hin, Hout.
    destruct (checkIn e2) as [x2|] eqn:Ex2; [discriminate|].
    destruct (checkOut e2) as [y2|] eqn:Ey2.
    + injection Hout as -> Hout. simpl in Hin.
      rewrite (Hnil P Hall'' Hin Hout).
      exists e, e2. split; [reflexivity|].
      destruct Hwf as (_ & _ & Hs). rewrite Ex, Ey in Hs.
      destruct Hwf2 as (_ & _ & Hs2). rewrite Ex2, Ey2 in Hs2.
      destruct (Hfrom ci (or_introl Ex)) as [_ H1].
      destruct (Hfrom2 co (or_intror Ey2)) as [_ H2].
      repeat split; auto; tauto.
    + destruct Hwf2 as (_ & _ & Hs2). rewrite Ex2, Ey2 in Hs2. destruct Hs2.
  - injection Hout as -> Hout. simpl in Hin.
    destruct P as [|e2 P]; [discriminate|].
    inversion Hall' as [|? ? [Hwf2 Hfrom2] Hall'']; subst.
    simpl in Hin, Hout.
    destruct (checkOut e2) as [y2|] eqn:Ey2; [discriminate|].
    destruct (checkIn e2) as [x2|] eqn:Ex2.
    + injection Hin as -> Hin. simpl in Hout.
      rewrite (Hnil P Hall'' Hin Hout).
      exists e2, e. split; [apply perm_swap|].
      destruct Hwf as (_ & _ & Hs). rewrite Ex, Ey in Hs.
      destruct Hwf2 as (_ & _ & Hs2). rewrite Ex2, Ey2 in Hs2.
      destruct (Hfrom co (or_intror Ey)) as [_ H1].
      destruct (Hfrom2 ci (or_introl Ex2)) as [_ H2].
      repeat split; auto; tauto.
    + destruct Hwf2 as (_ & _ & Hs2). rewrite Ex2, Ey2 in Hs2. destruct Hs2.
  - destruct Hwf as (_ & _ & Hs). rewrite Ex, Ey in Hs. destruct Hs.
Qed.

(** *** C9 *)

(** C9 (as amended): a bucket holds only records whose timestamp prints
    as the bucket's date string, so two records of different local dates
    never share a bucket, and the two endpoints of a session always
    print as the same date.  A check-in and a check-out of one user on
    different local dates, however close in time, give an open session
    on the first date and a session without check-in on the second when
    the user is on the roster and neither the user id nor the two date
    strings are names on [Object.prototype]; so do 23:50 and 00:10 of
    the next day. *)
Theorem C9_no_pairing_across_dates :
  (forall (localDay : Z -> Z) (dateText : DateString -> string)
          (proto : JS.Prototype) (records : list AttendanceRecord)
          u days d b r,
     In (u, days) (groupRecords localDay dateText proto records) -> In (d, b) days -> In r b ->
     rec_userId r = u /\ toLocaleDateString localDay (getTime r) = d)
  /\
  (forall (localDay : Z -> Z) (parseLocaleDate : DateString -> JS.Num)
    (dateText : DateString -> string) (proto : JS.Prototype)
          (now : Z) (records : list AttendanceRecord) (users : list User)
          e ci co,
     In e (processedAttendance
             (processAttendance localDay parseLocaleDate dateText proto now records users)) ->
     checkIn e = Some ci -> checkOut e = Some co ->
     toLocaleDateString localDay (getTime ci)
     = toLocaleDateString localDay (getTime co))
  /\
  (forall (localDay : Z -> Z) (parseLocaleDate : DateString -> JS.Num)
    (dateText : DateString -> string) (proto : JS.Prototype)
          (now : Z) (records : list AttendanceRecord) (users : list User)
          ida idb uid t1 t2,
     let ci := punch ida uid "check-in" t1 in
     let co := punch idb uid "check-out" t2 in
     Permutation records [ci; co] ->
     onRoster users ci = true ->
     PlainKeys localDay dateText proto records ->
     localDay t1 <> localDay t2 ->
     exists e1 e2,
       Permutation
         (processedAttendance
            (processAttendance localDay parseLocaleDate dateText proto now records users))
         [e1; e2] /\
       checkIn e1 = Some ci /\ checkOut e1 = None /\ duration e1 = None /\
       date e1 = LocalDate (localDay t1) /\
       checkIn e2 = None /\ checkOut e2 = Some co /\ duration e2 = None /\
       date e2 = LocalDate (localDay t2))
  /\
  processedAttendance
    (processAttendance utcDay utcParse utcText JS.builtin (at_ 1 8 0) overMidnight [alice])
  = [mkProcessed "alice" "Alice" "alice@example.com" (LocalDate 1) None
       (Some (punch "e2" "alice" "check-out" (at_ 1 0 10))) None;
     mkProcessed "alice" "Alice" "alice@example.com" (LocalDate 0)
       (Some (punch "e1" "alice" "check-in" (at_ 0 23 50))) None None].
Proof.
  split; [|split; [|split]].
  - intros localDay dateText proto records u days d b r Hu Hd Hr.
    destruct (groupRecords_invariant localDay dateText proto records) as (_ & Hok & _).
    unfold BucketsOk in Hok. rewrite Forall_forall in Hok.
    destruct (Hok _ Hu) as [Hdays _]. cbn [fst snd] in Hdays.
    unfold DaysOk in Hdays. rewrite Forall_forall in Hdays.
    specialize (Hdays _ Hd). rewrite Forall_forall in Hdays.
    exact (Hdays r Hr).
  - intros localDay parseLocaleDate dateText proto now records users e ci co He Hci Hco.
    pose proof (output_sessions localDay parseLocaleDate dateText proto now records users)
      as Hall.
    rewrite Forall_forall in Hall. destruct (Hall e He) as [_ Hfrom].
    destruct (Hfrom ci (or_introl Hci)) as [_ H1].
    destruct (Hfrom co (or_intror Hco)) as [_ H2]. congruence.
  - intros localDay parseLocaleDate dateText proto now records users ida idb uid t1 t2
      ci co Hperm Hroster Hplain Hdiff.
    destruct (output_endpoints localDay parseLocaleDate dateText proto now records users)
      as [Hin Hout].
    destruct (@groupRecords_plain localDay dateText proto records Hplain)
      as [_ Hall'].
    rewrite (Permutation_filter
               (fun r => isCheckIn r && onRoster users r) Hall') in Hin.
    rewrite (Permutation_filter
               (fun r => isCheckOut r && onRoster users r) Hall') in Hout.
    pose proof (output_sessions localDay parseLocaleDate dateText proto now records users)
      as Hall.
    assert (Hroster' : onRoster users co = true) by exact Hroster.
    rewrite (Permutation_filter
               (fun r => isCheckIn r && onRoster users r) Hperm) in Hin.
    rewrite (Permutation_filter
               (fun r => isCheckOut r && onRoster users r) Hperm) in Hout.
    cbn [filter] in Hin, Hout. rewrite Hroster, Hroster' in Hin, Hout.
    cbn in Hin, Hout.
    apply Permutation_sym, Permutation_length_1_inv in Hin.
    apply Permutation_sym, Permutation_length_1_inv in Hout.
    apply (two_sessions Hall Hin Hout).
    simpl. congruence.
  - vm_compute. reflexivity.
Qed.

(** ** The dashboard average *)

Lemma fold_addShare l : forall acc,
  fold_left addShare l acc
  = fold_left (fun a st => PrimFloat.add a (hoursShare (totalMinutesToday st)))
      (filter activeToday l) acc.
Proof.
  induction l as [|st l IH]; intro acc; simpl; [reflexivity|].
  unfold addShare at 2. destruct (activeToday st); simpl; apply IH.
Qed.

(** *** C6 *)

(** C6 (as amended): [avgHoursToday] is taken over the users with
    [totalMinutesToday > 0] only: it is the sum of their minutes of
    today, each divided by 60 as line 270 adds them up (not the sum of
    their fields [totalHoursToday]), divided by their number and rounded
    to one decimal by [toFixed(1)]; it is 0 when there is no such user.
    With a roster of three of whom one alone has 120 minutes today, it
    is 2.0; with one user at 1 minute and one at 161 minutes it is
    1.3. *)
Theorem C6_average_hours_today :
  (forall (localDay : Z -> Z) (parseLocaleDate : DateString -> JS.Num)
    (dateText : DateString -> string) (proto : JS.Prototype)
          (now : Z) (records : list AttendanceRecord) (users : list User),
     let s := processAttendance localDay parseLocaleDate dateText proto now records users in
     let active := filter activeToday (map snd (userStats s)) in
     avgHoursToday (dashboardStats s)
     = match active with
       | [] => 0%float
       | _ :: _ =>
           JS.toFixed1
             (PrimFloat.div
                (fold_left
                   (fun a st =>
                      PrimFloat.add a (hoursShare (totalMinutesToday st)))
                   active 0%float)
                (JS.ofZ (Z.of_nat (length active))))
       end)
  /\
  (let s := processAttendance utcDay utcParse utcText JS.builtin (at_ 1 12 0) oneActiveUser
              [alice; bob; carol] in
   totalUsers (dashboardStats s) = 3 /\
   map (fun kv => (fst kv, totalMinutesToday (snd kv))) (userStats s)
   = [("alice"%string, 120); ("bob"%string, 0)] /\
   avgHoursToday (dashboardStats s) = 2%float)
  /\
  (let s := processAttendance utcDay utcParse utcText JS.builtin (at_ 0 20 0)
              unevenDay [alice; bob] in
   map (fun kv => (fst kv, totalMinutesToday (snd kv))) (userStats s)
   = [("bob"%string, 161); ("alice"%string, 1)] /\
   avgHoursToday (dashboardStats s) = PrimFloat.div (JS.ofZ 13) (JS.ofZ 10)).
Proof.
  split; [|split].
  - intros localDay parseLocaleDate dateText proto now records users s active.
    destruct (output_closed localDay parseLocaleDate dateText proto now records users)
      as (_ & _ & H).
    fold s in H. fold active in H. rewrite H, fold_addShare. fold active.
    destruct active; reflexivity.
  - vm_compute. repeat split; reflexivity.
  - vm_compute. repeat split; reflexivity.
Qed.

(** ** The clock *)

(** *** C3 *)

(** C3 (as amended): the effect takes its [today] from the clock
    reading of line 177, and besides the events and the roster it
    depends on the names that [Object.prototype] holds.  When no event
    is filed on [Object.prototype], a run leaves those names as it found
    them, and a second run on the same events and roster whose clock
    reading falls on the same local date produces the same sessions,
    user statistics and dashboard figures as the first. *)
Theorem C3_second_run_repeats_the_first
    (localDay : Z -> Z) (parseLocaleDate : DateString -> JS.Num)
    (dateText : DateString -> string) (proto : JS.Prototype)
    (now1 now2 : Z) (records : list AttendanceRecord) (users : list User)
    (st : DashboardState) :
  Unpolluted proto records ->
  toLocaleDateString localDay (Some now1)
  = toLocaleDateString localDay (Some now2) ->
  let first :=
    attendanceEffect localDay parseLocaleDate dateText proto now1 records
      users st in
  let proto' := prototypeAfter localDay dateText proto records users in
  proto' = proto /\
  attendanceEffect localDay parseLocaleDate dateText proto' now2 records
    users first
  = first.
Proof.
  intros Hclean Hday first proto'.
  assert (Hproto : proto' = proto).
  { unfold proto', prototypeAfter.
    destruct ((0 <? length records)%nat && (0 <? length users)%nat);
      [|reflexivity].
    exact (proj1 (@groupRecords_static localDay dateText proto records
                    Hclean)). }
  split; [exact Hproto|]. rewrite Hproto. unfold first, attendanceEffect.
  destruct ((0 <? length records)%nat && (0 <? length users)%nat);
    [|reflexivity].
  unfold processAttendance. now rewrite Hday.
Qed.

(** ** The roster and the statistics *)

(** *** C4 *)

(** C4 (as amended): when the guarded block runs, that is with at least
    one record and one roster member, and no record is filed on
    [Object.prototype], then for a user id that is no name on
    [Object.prototype] the statistics hold an entry exactly when the
    user is on the roster and has at least one punch record; a roster
    member without records has no entry (the reader of the statistics
    falls back to zeros for a missing entry). *)
Theorem C4_stats_only_for_users_with_records
    (localDay : Z -> Z) (parseLocaleDate : DateString -> JS.Num)
    (dateText : DateString -> string) (proto : JS.Prototype)
    (now : Z) (records : list AttendanceRecord) (users : list User)
    (st : DashboardState) (u : string) :
  records <> [] -> users <> [] ->
  Unpolluted proto records -> JS.inherits proto u = false ->
  let s := attendanceEffect localDay parseLocaleDate dateText proto now
             records users st in
  (JS.get String.eqb u (userStats s) <> None <->
   findUser users u <> None /\ exists r, In r records /\ rec_userId r = u)
  /\
  ((forall r, In r records -> rec_userId r <> u) ->
   JS.get String.eqb u (userStats s) = None).
Proof.
  intros Hrecords Husers Hclean Hu s.
  assert (Hs : s = processAttendance localDay parseLocaleDate dateText proto
                     now records users).
  { unfold s, attendanceEffect.
    destruct records; [congruence|]. destruct users; [congruence|].
    reflexivity. }
  rewrite Hs.
  pose proof (output_stats localDay parseLocaleDate dateText proto now records users u) as H.
  destruct (@groupRecords_static localDay dateText proto records Hclean)
    as (_ & _ & Hkeys).
  set (s' := processAttendance localDay parseLocaleDate dateText proto now
               records users) in *.
  assert (Hiff : JS.get String.eqb u (userStats s') <> None <->
                 findUser users u <> None /\
                 exists r, In r records /\ rec_userId r = u).
  { destruct (JS.get String.eqb u (userStats s')) as [e|].
    - destruct H as ((user & Hfind & _) & (_ & Hr) & _).
      split; [|discriminate].
      intros _. split; [congruence|exact Hr].
    - split; [congruence|]. intros [H1 H2].
      destruct H as [H|H]; [tauto|]. exfalso. apply H. apply Hkeys. auto. }
  split; [exact Hiff|].
  intro Hnone. destruct (JS.get String.eqb u (userStats s')) eqn:E;
    [|reflexivity].
  assert (Hsome : Some u0 <> None) by discriminate.
  apply Hiff in Hsome as [_ (r & Hr & Hur)]. exfalso. exact (Hnone r Hr Hur).
Qed.

(** ** Empty inputs *)

(** *** C8 *)

(** C8 (as amended): with no record or with an empty roster the effect
    is not an error and writes nothing: the sessions, the user
    statistics and the dashboard figures stay what they were, which is
    the empty list and zeros if nothing was computed before. *)
Theorem C8_empty_input_leaves_state
    (localDay : Z -> Z) (parseLocaleDate : DateString -> JS.Num)
    (dateText : DateString -> string) (proto : JS.Prototype)
    (now : Z) (records : list AttendanceRecord) (users : list User)
    (st : DashboardState) :
  attendanceEffect localDay parseLocaleDate dateText proto now [] users st = st /\
  attendanceEffect localDay parseLocaleDate dateText proto now records [] st = st /\
  processedAttendance
    (attendanceEffect localDay parseLocaleDate dateText proto now [] users initialState) = [] /\
  userStats
    (attendanceEffect localDay parseLocaleDate dateText proto now records [] initialState) = [] /\
  dashboardStats
    (attendanceEffect localDay parseLocaleDate dateText proto now [] [] initialState)
  = mkDashboardStats 0 0 0 0%float.
Proof.
  unfold attendanceEffect. simpl. rewrite andb_false_r. auto.
Qed.

(** ** Instances *)


(** Both clock readings fall on day 0. *)
Lemma C3_same_day_instance :
  let first :=
    attendanceEffect utcDay utcParse utcText JS.builtin (at_ 0 8 0) fullDay
      [alice] initialState in
  let proto' := prototypeAfter utcDay utcText JS.builtin fullDay [alice] in
  proto' = JS.builtin /\
  attendanceEffect utcDay utcParse utcText proto' (at_ 0 20 0) fullDay
    [alice] first
  = first.
Proof.
  apply C3_second_run_repeats_the_first.
  - repeat constructor.
  - reflexivity.
Defined.

(** The same events, roster and clock reading twice, with a punch under
    the user id [__proto__] among the events: the first run shows
    alice's session and leaves the date string of the day on
    [Object.prototype]; the second run finds it there, files alice's
    punches under it and shows no session. *)
Lemma C3_second_run_differs :
  let first :=
    attendanceEffect utcDay utcParse utcText JS.builtin (at_ 0 20 0)
      protoPunch [alice] initialState in
  let proto' := prototypeAfter utcDay utcText JS.builtin protoPunch [alice] in
  let second :=
    attendanceEffect utcDay utcParse utcText proto' (at_ 0 20 0)
      protoPunch [alice] first in
  processedAttendance first = [fullDaySession] /\
  processedAttendance second = [] /\
  second <> first.
Proof.
  split; [vm_compute; reflexivity|]. split; [vm_compute; reflexivity|].
  intro H. apply (f_equal processedAttendance) in H.
  vm_compute in H. discriminate.
Qed.

(** Bob is on the roster and has no record: no entry. *)
Lemma C4_roster_member_without_entry :
  In bob [alice; bob] /\
  JS.get String.eqb (user_id bob)
    (userStats (attendanceEffect utcDay utcParse utcText JS.builtin (at_ 0 20 0) fullDay
                  [alice; bob] initialState))
  = None.
Proof. split; [simpl; auto|reflexivity]. Qed.

Lemma C4_instance :
  JS.get String.eqb "bob"%string
    (userStats (attendanceEffect utcDay utcParse utcText JS.builtin
                  (at_ 0 20 0) fullDay [alice; bob] initialState))
  = None.
Proof.
  apply (proj2 (@C4_stats_only_for_users_with_records utcDay utcParse utcText
                  JS.builtin (at_ 0 20 0) fullDay [alice; bob] initialState
                  "bob"%string ltac:(discriminate) ltac:(discriminate)
                  ltac:(repeat constructor) eq_refl)).
  intros r [<-|[<-|[]]]; discriminate.
Defined.

(** A check-in of somebody off the roster yields no session. *)
Lemma C5_stranger_not_counted :
  let sessions :=
    processedAttendance
      (attendanceEffect utcDay utcParse utcText JS.builtin (at_ 0 20 0) strangerCheckIn [alice]
         initialState) in
  length (filter (fun e => match checkIn e with
                           | Some _ => true | None => false end) sessions)
  <> length (filter isCheckIn strangerCheckIn).
Proof. vm_compute. discriminate. Qed.

Lemma C5_instance :
  Permutation
    (checkOutsOf
       (processedAttendance
          (processAttendance utcDay utcParse utcText JS.builtin (at_ 0 20 0) fullDay [alice])))
    (filter (fun r => isCheckOut r && onRoster [alice] r) fullDay).
Proof.
  assert (H : NoDup (map rec_id fullDay)).
  { repeat constructor; simpl; intuition discriminate. }
  assert (Hplain : PlainKeys utcDay utcText JS.builtin fullDay)
    by (repeat constructor).
  exact (proj1 (proj2 (proj2
    (@C5_conservation_on_roster utcDay utcParse utcText JS.builtin (at_ 0 20 0) fullDay
       [alice] H Hplain)))).
Defined.

(** A check-in without a readable timestamp: the effect completes and
    shows it as an open session under the invalid date. *)
Lemma C7_bad_timestamp_is_included :
  attendanceEffect utcDay utcParse utcText JS.builtin (at_ 0 20 0) [badCheckIn] [alice]
    initialState
  = mkState
      [mkProcessed "alice" "Alice" "alice@example.com" InvalidDate
         (Some badCheckIn) None None]
      [("alice"%string,
        mkUserStats "Alice" "alice@example.com" 0 0%float 0 0%float)]
      (mkDashboardStats 1 1 0 0%float).
Proof. vm_compute. reflexivity. Qed.

Lemma C7_instance :
  exists e,
    In e (processedAttendance
            (processAttendance utcDay utcParse utcText JS.builtin (at_ 0 20 0) [badCheckIn]
               [alice])) /\
    checkIn e = Some badCheckIn /\ checkOut e = None /\
    duration e = None /\ date e = InvalidDate.
Proof.
  apply (proj1 (@C7_invalid_timestamp_kept_unpaired utcDay utcParse utcText JS.builtin
                  (at_ 0 20 0) [badCheckIn] [alice] badCheckIn
                  (or_introl eq_refl) eq_refl eq_refl
                  ltac:(repeat constructor) eq_refl)).
  reflexivity.
Defined.

(** After a day was processed, a run without records leaves its
    sessions in place. *)
Lemma C8_stale_after_empty_input :
  let st := attendanceEffect utcDay utcParse utcText JS.builtin (at_ 0 20 0) fullDay [alice]
              initialState in
  processedAttendance (attendanceEffect utcDay utcParse utcText JS.builtin (at_ 0 20 0) []
                         [alice] st)
  <> [].
Proof. vm_compute. discriminate. Qed.

(** One millisecond before and at midnight. *)
Lemma C9_instance :
  exists e1 e2,
    Permutation
      (processedAttendance
         (processAttendance utcDay utcParse utcText JS.builtin (at_ 1 8 0)
            [punch "e2" "alice" "check-out" 86400000;
             punch "e1" "alice" "check-in" 86399999] [alice]))
      [e1; e2] /\
    checkIn e1 = Some (punch "e1" "alice" "check-in" 86399999) /\
    checkOut e1 = None /\ duration e1 = None /\
    date e1 = LocalDate (utcDay 86399999) /\
    checkIn e2 = None /\
    checkOut e2 = Some (punch "e2" "alice" "check-out" 86400000) /\
    duration e2 = None /\ date e2 = LocalDate (utcDay 86400000).
Proof.
  apply (proj1 (proj2 (proj2 C9_no_pairing_across_dates))).
  - apply perm_swap.
  - reflexivity.
  - repeat constructor.
  - vm_compute. discriminate.
Defined.

(** The punches of 23:50 and 00:10 by somebody who is not on the roster
    give no session at all. *)
Lemma C9_off_roster_no_session :
  processedAttendance
    (attendanceEffect utcDay utcParse utcText JS.builtin (at_ 1 8 0)
       overMidnight [bob] initialState)
  = [].
Proof. vm_compute. reflexivity. Qed.

(** One and 161 minutes: line 270 adds 1/60 and 161/60 and the average
    comes to 1.3, whereas the fields [totalHoursToday] are 1/60 and
    2 + 41/60 and their mean rounds to 1.4. *)
Lemma C6_not_the_mean_of_the_hour_fields :
  let s := attendanceEffect utcDay utcParse utcText JS.builtin (at_ 0 20 0)
             unevenDay [alice; bob] initialState in
  map (fun kv => totalMinutesToday (snd kv)) (userStats s) = [161; 1] /\
  avgHoursToday (dashboardStats s) = PrimFloat.div (JS.ofZ 13) (JS.ofZ 10) /\
  meanOfHoursToday (userStats s) = PrimFloat.div (JS.ofZ 14) (JS.ofZ 10) /\
  avgHoursToday (dashboardStats s) <> meanOfHoursToday (userStats s).
Proof.
  split; [vm_compute; reflexivity|]. split; [vm_compute; reflexivity|].
  split; [vm_compute; reflexivity|].
  intro H. apply (f_equal (fun x => PrimFloat.eqb x (PrimFloat.div (JS.ofZ 13) (JS.ofZ 10)))) in H.
  vm_compute in H. discriminate.
Qed.

Lemma C10_instance :
  at_ 0 9 0 < at_ 0 9 0 + 10000 /\
  duration
    (mkProcessed "alice" "Alice" "alice@example.com" (LocalDate 0)
       (Some (punch "e1" "alice" "check-in" (at_ 0 9 0)))
       (Some (punch "e2" "alice" "check-out" (at_ 0 9 0 + 10000)))
       (Some 0))
  = Some 0 /\
  entryMinutes
    (mkProcessed "alice" "Alice" "alice@example.com" (LocalDate 0)
       (Some (punch "e1" "alice" "check-in" (at_ 0 9 0)))
       (Some (punch "e2" "alice" "check-out" (at_ 0 9 0 + 10000)))
       (Some 0))
  = 0.
Proof.
  apply (proj1 C10_short_gap_rounds_to_zero utcDay utcParse utcText JS.builtin (at_ 0 12 0)
           shortVisit [alice] _
           (punch "e1" "alice" "check-in" (at_ 0 9 0))
           (punch "e2" "alice" "check-out" (at_ 0 9 0 + 10000))
           (at_ 0 9 0) (at_ 0 9 0 + 10000)).
  - vm_compute. left. reflexivity.
  - reflexivity.
  - reflexivity.
  - reflexivity.
  - reflexivity.
  - vm_compute. reflexivity.
Defined.

(** * Further properties of the effect and of the screens *)

(** ** Who a session belongs to *)

Lemma findUser_found users u user :
  findUser users u = Some user -> user_id user = u /\ In user users.
Proof.
  unfold findUser, JS.find. intro H. apply find_some in H as [H1 H2].
  apply String.eqb_eq in H2. auto.
Qed.

Section Naming.
Variables (user : User) (uid : string) (today : DateString).

Let Named (e : ProcessedAttendanceRecord) : Prop :=
  userId e = uid /\
  userName e = orUnknown (user_name user) /\
  userEmail e = orUnknown (user_email user).

Lemma pairCheckIn_named day c st :
  Forall Named (checkInsAndOuts st) ->
  Forall Named (checkInsAndOuts (pairCheckIn user uid day today c st)).
Proof.
  intro H.
  destruct (pairCheckIn_cases user uid day today c st)
    as [[_ ->]|(l1 & co & l2 & _ & _ & _ & ->)]; simpl;
    (apply Forall_app; split; [exact H|]);
    constructor; try constructor; repeat split.
Qed.

Lemma pairLoop_step day fuel i st :
  pairLoop user uid day today (S fuel) i st
  = match nth_error (dayRecords st) i with
    | None => Some st
    | Some record =>
        if isCheckIn record
        then pairLoop user uid day today fuel (S i)
               (pairCheckIn user uid day today record st)
        else pairLoop user uid day today fuel (S i) st
    end.
Proof. reflexivity. Qed.

Lemma pairLoop_named day fuel : forall i st st',
  pairLoop user uid day today fuel i st = Some st' ->
  Forall Named (checkInsAndOuts st) ->
  Forall Named (checkInsAndOuts st').
Proof.
  induction fuel as [|fuel IH]; intros i st st' H Hst; [discriminate|].
  rewrite pairLoop_step in H.
  destruct (nth_error (dayRecords st) i) as [r|].
  - destruct (isCheckIn r).
    + apply (IH _ _ _ H). now apply pairCheckIn_named.
    + now apply (IH _ _ _ H).
  - now injection H as <-.
Qed.

Lemma pairDay_named day d a b :
  Forall Named (checkInsAndOuts (pairDay user uid day today d a b)).
Proof.
  unfold pairDay. cbn [checkInsAndOuts]. rewrite fold_pushOrphan.
  apply Forall_app. split.
  - destruct (pairLoop user uid day today (S (length d)) 0
                (mkDayLoop d [] a b)) as [st|] eqn:E.
    + apply (pairLoop_named _ _ _ _ E). constructor.
    + constructor.
  - apply Forall_forall. intros e He. apply in_map_iff in He as (r & <- & _).
    repeat split.
Qed.

Lemma processDates_named days : forall p a b,
  Forall Named p ->
  Forall Named
    (processed (fold_left (processDate user uid today) days
                  (mkUserLoop p a b))).
Proof.
  induction days as [|e days IH]; intros p a b Hp; [exact Hp|].
  cbn [fold_left]. rewrite processDate_shape. cbv zeta. apply IH.
  apply Forall_app. split; [exact Hp|apply pairDay_named].
Qed.

End Naming.

Lemma userSessions_named users today entry :
  Forall (fun e => exists user,
            findUser users (userId e) = Some user /\ In user users /\
            NamedAfter user e)
         (userSessions users today entry).
Proof.
  unfold userSessions. destruct (findUser users (fst entry)) as [user|] eqn:E;
    [|constructor].
  destruct (findUser_found _ _ E) as [Hid Hin].
  pose proof (@processDates_named user (fst entry) today (snd entry) [] 0 0
                (Forall_nil _)) as H.
  unfold userLoop. eapply Forall_impl; [|exact H].
  intros e (H1 & H2 & H3). exists user. unfold NamedAfter.
  rewrite H1, Hid. auto.
Qed.

Lemma output_named localDay parseLocaleDate dateText proto now records users :
  Forall (fun e => exists user,
            findUser users (userId e) = Some user /\ In user users /\
            NamedAfter user e)
         (processedAttendance
            (processAttendance localDay parseLocaleDate dateText proto now records users)).
Proof.
  apply (Forall_perm
           (Permutation_sym
              (output_perm localDay parseLocaleDate dateText proto now records users))).
  apply Forall_forall. intros e He.
  apply in_flat_map in He as (entry & _ & He).
  pose proof (userSessions_named users
                (toLocaleDateString localDay (Some now)) entry) as H.
  rewrite Forall_forall in H. now apply H.
Qed.

Lemma output_records
    (localDay : Z -> Z) (parseLocaleDate : DateString -> JS.Num)
    (dateText : DateString -> string) (proto : JS.Prototype)
    (now : Z) (records : list AttendanceRecord) (users : list User) :
  forall e,
    In e (processedAttendance
            (processAttendance localDay parseLocaleDate dateText proto now records users)) ->
    (checkIn e <> None \/ checkOut e <> None) /\
    (forall r, checkIn e = Some r \/ checkOut e = Some r ->
       In r records /\ rec_userId r = userId e /\
       toLocaleDateString localDay (getTime r) = date e).
Proof.
  intros e He.
  pose proof (output_sessions localDay parseLocaleDate dateText proto now records users)
    as Hall.
  rewrite Forall_forall in Hall.
  destruct (Hall e He) as [(_ & _ & Hshape) Hfrom].
  split.
  - destruct (checkIn e), (checkOut e); try tauto;
      solve [left; discriminate | right; discriminate].
  - intros r Hr. destruct (Hfrom r Hr) as [H1 H2].
    split; [|now split].
    exact (@output_from_input localDay parseLocaleDate dateText proto now
             records users e r He Hr).
Qed.

(** Every session has an endpoint, belongs to a user of the roster whose
    name and e-mail it shows (['Unknown'] for an empty one), and its
    endpoints are records of the input that carry the session's user id
    and print as the session's date. *)
Theorem session_provenance
    (localDay : Z -> Z) (parseLocaleDate : DateString -> JS.Num)
    (dateText : DateString -> string) (proto : JS.Prototype)
    (now : Z) (records : list AttendanceRecord) (users : list User) :
  forall e,
    In e (processedAttendance
            (processAttendance localDay parseLocaleDate dateText proto now records users)) ->
    (checkIn e <> None \/ checkOut e <> None) /\
    (exists user,
       findUser users (userId e) = Some user /\ In user users /\
       NamedAfter user e) /\
    (forall r, checkIn e = Some r \/ checkOut e = Some r ->
       In r records /\ rec_userId r = userId e /\
       toLocaleDateString localDay (getTime r) = date e).
Proof.
  intros e He.
  destruct (output_records localDay parseLocaleDate dateText proto now records users e He)
    as [Hend Hrec].
  pose proof (output_named localDay parseLocaleDate dateText proto now records users)
    as Hnamed.
  rewrite Forall_forall in Hnamed.
  split; [exact Hend|]. split; [now apply Hnamed|exact Hrec].
Qed.

(** ** Bounds on minutes *)

Lemma WellFormed_minutes uid day e :
  WellFormed uid day e -> 0 <= entryMinutes e.
Proof.
  intros (_ & _ & H). unfold entryMinutes.
  destruct (checkIn e) as [ci|], (checkOut e) as [co|].
  - destruct H as (_ & Hm & ->).
    apply isMatchFor_times in Hm as (_ & ti & to & _ & _ & Hlt & ->).
    apply roundDiv_nonneg; lia.
  - destruct H as (_ & ->). lia.
  - destruct H as (_ & ->). lia.
  - destruct H.
Qed.

Lemma sumMinutes_filter_bounds p l :
  Forall (fun e => 0 <= entryMinutes e) l ->
  0 <= sumMinutes (filter p l) <= sumMinutes l.
Proof.
  induction 1 as [|e l He _ IH]; simpl; [unfold sumMinutes; simpl; lia|].
  destruct (p e); rewrite ?sumMinutes_cons; lia.
Qed.

Lemma output_minutes_nonneg localDay parseLocaleDate dateText proto now records users :
  Forall (fun e => 0 <= entryMinutes e)
         (processedAttendance
            (processAttendance localDay parseLocaleDate dateText proto now records users)).
Proof.
  eapply Forall_impl;
    [|exact (output_sessions localDay parseLocaleDate dateText proto now records users)].
  intros e [H _]. exact (WellFormed_minutes H).
Qed.

(** A user's minutes of today are part of the user's minutes of all
    time, and neither is negative. *)
Theorem today_within_all_time
    (localDay : Z -> Z) (parseLocaleDate : DateString -> JS.Num)
    (dateText : DateString -> string) (proto : JS.Prototype)
    (now : Z) (records : list AttendanceRecord) (users : list User) u st :
  JS.get String.eqb u
    (userStats (processAttendance localDay parseLocaleDate dateText proto now records users))
  = Some st ->
  0 <= totalMinutesToday st <= totalMinutesAllTime st.
Proof.
  intro Hget.
  pose proof (output_stats localDay parseLocaleDate dateText proto now records users u) as H.
  rewrite Hget in H. destruct H as (_ & _ & Hall & Htoday & _).
  rewrite Hall, Htoday.
  apply sumMinutes_filter_bounds.
  unfold sessionsOf. apply Forall_forall. intros e He.
  apply filter_In in He as [He _].
  pose proof (output_minutes_nonneg localDay parseLocaleDate dateText proto now records users)
    as Hnn.
  rewrite Forall_forall in Hnn. now apply Hnn.
Qed.

(** The sum over all statistics entries. *)
Lemma userStats_minutes_entry localDay users today u days :
  DaysOk localDay u days ->
  sumZ (map (fun kv => totalMinutesAllTime (snd kv))
          (userStatsOf users today (u, days)))
  = sumMinutes (userSessions users today (u, days)).
Proof.
  intro Hok. unfold userStatsOf, userSessions. cbn [fst snd].
  destruct (findUser users u) as [user|]; [|reflexivity].
  destruct (userLoop_facts user today 0 0 Hok) as (_ & _ & _ & H & _).
  fold (userLoop user u today days) in H. simpl. rewrite H. lia.
Qed.

Lemma sumZ_app l1 l2 : sumZ (l1 ++ l2) = sumZ l1 + sumZ l2.
Proof.
  unfold sumZ. induction l1 as [|x l1 IH]; simpl; [reflexivity|].
  rewrite IH. lia.
Qed.

Lemma userStats_minutes_sum localDay users today obj :
  BucketsOk localDay obj ->
  sumZ (map (fun kv => totalMinutesAllTime (snd kv))
          (flat_map (userStatsOf users today) obj))
  = sumMinutes (flat_map (userSessions users today) obj).
Proof.
  induction 1 as [|[u days] obj [Hd _] _ IH]; [reflexivity|].
  cbn [flat_map fst snd] in *.
  rewrite map_app, sumZ_app, sumMinutes_app, IH.
  now rewrite (userStats_minutes_entry users today Hd).
Qed.

(** No minute is lost or counted twice between the sessions and the
    statistics: the all-time minutes of all entries add up to the
    minutes of all sessions. *)
Theorem minutes_conserved
    (localDay : Z -> Z) (parseLocaleDate : DateString -> JS.Num)
    (dateText : DateString -> string) (proto : JS.Prototype)
    (now : Z) (records : list AttendanceRecord) (users : list User) :
  let s := processAttendance localDay parseLocaleDate dateText proto now records users in
  sumZ (map (fun kv => totalMinutesAllTime (snd kv)) (userStats s))
  = sumMinutes (processedAttendance s).
Proof.
  intro s. subst s.
  destruct (output_closed localDay parseLocaleDate dateText proto now records users)
    as (_ & Hstats & _).
  rewrite Hstats.
  rewrite (sumMinutes_perm
             (output_perm localDay parseLocaleDate dateText proto now records users)).
  destruct (groupRecords_invariant localDay dateText proto records) as (_ & Hok & _).
  now apply userStats_minutes_sum with (localDay := localDay).
Qed.

(** ** Sessions stay within a day *)

(** Where no local day lasts longer than 24 hours, no session lasts
    longer than 1440 minutes. *)
Theorem duration_within_a_day
    (localDay : Z -> Z) (parseLocaleDate : DateString -> JS.Num)
    (dateText : DateString -> string) (proto : JS.Prototype)
    (now : Z) (records : list AttendanceRecord) (users : list User) e d :
  (forall t1 t2, localDay t1 = localDay t2 -> t2 - t1 < 86400000) ->
  In e (processedAttendance
          (processAttendance localDay parseLocaleDate dateText proto now records users)) ->
  duration e = Some d ->
  0 <= d <= 1440.
Proof.
  intros Hday He Hd.
  pose proof (output_sessions localDay parseLocaleDate dateText proto now records users)
    as Hall.
  rewrite Forall_forall in Hall. destruct (Hall e He) as [Hwf Hfrom].
  assert (Hboth : checkIn e <> None /\ checkOut e <> None).
  { apply (WellFormed_duration Hwf). congruence. }
  destruct (checkIn e) as [ci|] eqn:Eci; [|tauto].
  destruct (checkOut e) as [co|] eqn:Eco; [|tauto].
  destruct (WellFormed_matched Hwf Eci Eco) as (ti & to & H1 & H2 & H3 & H4).
  destruct (Hfrom ci (or_introl Eci)) as [_ Hci].
  destruct (Hfrom co (or_intror Eco)) as [_ Hco].
  rewrite H1 in Hci. rewrite H2 in Hco. simpl in Hci, Hco.
  assert (Hsame : localDay ti = localDay to) by congruence.
  specialize (Hday ti to Hsame).
  rewrite Hd in H4. injection H4 as ->.
  split; [apply roundDiv_nonneg; lia|].
  unfold JS.roundDiv. apply Z.lt_succ_r. apply Z.div_lt_upper_bound; lia.
Qed.

Lemma utcDay_24h t1 t2 : utcDay t1 = utcDay t2 -> t2 - t1 < 86400000.
Proof.
  unfold utcDay. intro H.
  pose proof (Z.div_mod t1 86400000 ltac:(lia)).
  pose proof (Z.div_mod t2 86400000 ltac:(lia)).
  pose proof (Z.mod_pos_bound t1 86400000 ltac:(lia)).
  pose proof (Z.mod_pos_bound t2 86400000 ltac:(lia)).
  rewrite H in *. lia.
Qed.

(** ** The dashboard figures *)

Lemma keys_userStatsOf users today obj :
  JS.keys (flat_map (userStatsOf users today) obj)
  = filter (fun u => match findUser users u with
                     | Some _ => true | None => false end)
           (JS.keys obj).
Proof.
  induction obj as [|[u days] obj IH]; [reflexivity|].
  cbn [flat_map]. rewrite keys_app, IH. unfold userStatsOf at 1.
  cbn [fst snd JS.keys map filter].
  destruct (findUser users u); reflexivity.
Qed.

(** The statistics hold each user once, and only users of the roster. *)
Lemma userStats_keys localDay parseLocaleDate dateText proto now records users :
  let s := processAttendance localDay parseLocaleDate dateText proto now records users in
  NoDup (JS.keys (userStats s)) /\
  incl (JS.keys (userStats s)) (map user_id users).
Proof.
  intro s. subst s.
  destruct (output_closed localDay parseLocaleDate dateText proto now records users)
    as (_ & -> & _).
  rewrite keys_userStatsOf.
  destruct (groupRecords_invariant localDay dateText proto records) as (Hnd & _ & _).
  split; [now apply NoDup_filter|].
  intros u Hu. apply filter_In in Hu as [_ Hu].
  destruct (findUser users u) as [user|] eqn:E; [|discriminate].
  destruct (findUser_found _ _ E) as [<- Hin]. now apply in_map.
Qed.

Lemma session_has_stats localDay parseLocaleDate dateText proto now records users e :
  let s := processAttendance localDay parseLocaleDate dateText proto now records users in
  In e (processedAttendance s) -> In (userId e) (JS.keys (userStats s)).
Proof.
  intros s He.
  destruct (output_records localDay parseLocaleDate dateText proto now records users e He)
    as (Hend & Hrec).
  pose proof (output_named localDay parseLocaleDate dateText proto now records users)
    as Hnamed.
  rewrite Forall_forall in Hnamed.
  destruct (Hnamed e He) as (user & Hfind & _).
  pose proof (output_stats localDay parseLocaleDate dateText proto now records users
                (userId e)) as H.
  fold s in H.
  destruct (JS.get String.eqb (userId e) (userStats s)) as [st|] eqn:E.
  - apply (get_in _ String.eqb_eq) in E.
    apply in_map_iff. exists (userId e, st). auto.
  - exfalso. destruct H as [H|H]; [congruence|].
    pose proof (@output_absent localDay parseLocaleDate dateText proto now
                  records users (userId e) H) as Hnil.
    assert (Hin : In e (sessionsOf (userId e) (processedAttendance s))).
    { apply filter_In. split; [exact He|apply String.eqb_refl]. }
    fold s in Hnil. rewrite Hnil in Hin. destruct Hin.
Qed.

Lemma todayAttendance_closed localDay parseLocaleDate dateText proto now records users :
  let s := processAttendance localDay parseLocaleDate dateText proto now records users in
  todayAttendance (dashboardStats s)
  = distinctCount
      (map userId (sessionsOn (toLocaleDateString localDay (Some now))
                     (processedAttendance s))).
Proof.
  unfold processAttendance. cbn [dashboardStats todayAttendance
    processedAttendance]. unfold sessionsOn.
  destruct (filter _ _) as [|e l]; reflexivity.
Qed.


(** ** What the buckets hold *)

Lemma DateString_eqb_sym_aux a b : DateString_eqb a b = DateString_eqb b a.
Proof. destruct a, b; simpl; auto. apply Z.eqb_sym. Qed.

Section ObjLookup.
Variables (K V : Type) (eqb : K -> K -> bool).
Hypothesis eqb_eq : forall a b, eqb a b = true <-> a = b.

Lemma get_middle k k' v (l1 l2 : JS.Obj K V) :
  ~ In k (JS.keys l1) ->
  JS.get eqb k' (l1 ++ (k, v) :: l2)
  = if eqb k' k then Some v else JS.get eqb k' (l1 ++ l2).
Proof.
  induction l1 as [|[k0 v0] l1 IH]; simpl; intro H; [reflexivity|].
  rewrite IH by tauto.
  destruct (eqb k' k0) eqn:E0, (eqb k' k) eqn:E; try reflexivity.
  apply eqb_eq in E0, E. subst. tauto.
Qed.

End ObjLookup.

Section Buckets.
Variables (localDay : Z -> Z) (dateText : DateString -> string).

Let dateOf (r : AttendanceRecord) := toLocaleDateString localDay (getTime r).
Let inBucket (u : string) (d : DateString) (r : AttendanceRecord) : bool :=
  String.eqb (rec_userId r) u && DateString_eqb (dateOf r) d.

(** A record that is filed extends its own bucket at the end; every
    other bucket, and every bucket when the record is not filed, stays
    as it is. *)
Lemma bucketOf_groupRecord g r u d :
  bucketOf (recordsByUserAndDate (groupRecord localDay dateText g r)) u d
  = bucketOf (recordsByUserAndDate g) u d
    ++ (if inBucket u d r && filed localDay dateText g r then [r] else []).
Proof.
  unfold filed, inBucket, bucketOf. fold (dateOf r). unfold getUser, getDay.
  rewrite (String.eqb_sym (rec_userId r) u),
    (DateString_eqb_sym_aux (dateOf r) d).
  destruct (groupRecord_cases localDay dateText g r)
    as [(Hfresh & Hi & Hj & ->)|[(Hfresh & Hi & Hj & ->)|
        [(Hfresh & Hi & -> & _)|
        (l1 & days & l2 & Hobj & Hn &
         [(Hd & Hj & ->)|[(Hd & Hj & ->)|(d1 & b & d2 & -> & Hd & ->)]])]]];
    cbn [recordsByUserAndDate]; fold (dateOf r) in *.
  - rewrite (get_notin _ String.eqb_eq _ _ Hfresh), Hi, Hj. cbn [negb andb].
    destruct (place_split JS.arrayIndex (rec_userId r) [(dateOf r, [r])]
                (recordsByUserAndDate g)) as (l1 & l2 & Hobj & -> & _).
    rewrite Hobj in *. rewrite keys_app in Hfresh.
    rewrite (get_middle _ String.eqb_eq _ u _ _ l2)
      by (intro H; apply Hfresh, in_or_app; now left).
    destruct (String.eqb u (rec_userId r)) eqn:Eu.
    + apply String.eqb_eq in Eu. subst u.
      rewrite (get_notin _ String.eqb_eq _ (l1 ++ l2))
        by now rewrite keys_app.
      cbn [JS.get]. now destruct (DateString_eqb d (dateOf r)).
    + cbn [andb]. now rewrite app_nil_r.
  - rewrite (get_notin _ String.eqb_eq _ _ Hfresh), Hi, Hj. cbn [negb andb].
    rewrite andb_false_r, app_nil_r.
    destruct (place_split JS.arrayIndex (rec_userId r)
                (@nil (DateString * list AttendanceRecord))
                (recordsByUserAndDate g)) as (l1 & l2 & Hobj & -> & _).
    rewrite Hobj in *. rewrite keys_app in Hfresh.
    rewrite (get_middle _ String.eqb_eq _ u _ _ l2)
      by (intro H; apply Hfresh, in_or_app; now left).
    destruct (String.eqb u (rec_userId r)) eqn:Eu; [|reflexivity].
    apply String.eqb_eq in Eu. subst u.
    now rewrite (get_notin _ String.eqb_eq _ (l1 ++ l2))
      by now rewrite keys_app.
  - rewrite (get_notin _ String.eqb_eq _ _ Hfresh), Hi. cbn [negb andb].
    now rewrite andb_false_r, app_nil_r.
  - rewrite Hobj.
    rewrite (get_at _ String.eqb_eq _ _ _ _ Hn),
      (get_notin _ DateString_eqb_eq _ _ Hd), Hj. cbn [negb].
    rewrite andb_true_r, !(get_middle _ String.eqb_eq _ u _ _ l2 Hn).
    destruct (String.eqb u (rec_userId r)) eqn:Eu;
      [|cbn [andb]; now rewrite app_nil_r].
    cbn [andb].
    destruct (place_split (dateIndex dateText) (dateOf r) [r] days)
      as (e1 & e2 & Hdays & -> & _).
    subst days. rewrite keys_app in Hd.
    rewrite (get_middle _ DateString_eqb_eq _ d _ _ e2)
      by (intro H; apply Hd, in_or_app; now left).
    destruct (DateString_eqb d (dateOf r)) eqn:Ed;
      [|now rewrite app_nil_r].
    apply DateString_eqb_eq in Ed. subst d.
    now rewrite (get_notin _ DateString_eqb_eq _ (e1 ++ e2))
      by now rewrite keys_app.
  - rewrite Hobj.
    rewrite (get_at _ String.eqb_eq _ _ _ _ Hn),
      (get_notin _ DateString_eqb_eq _ _ Hd), Hj. cbn [negb].
    now rewrite andb_false_r, app_nil_r.
  - rewrite Hobj.
    rewrite (get_at _ String.eqb_eq _ _ _ _ Hn),
      (get_at _ DateString_eqb_eq _ _ _ _ Hd).
    rewrite andb_true_r, !(get_middle _ String.eqb_eq _ u _ _ l2 Hn).
    destruct (String.eqb u (rec_userId r)) eqn:Eu;
      [|cbn [andb]; now rewrite app_nil_r].
    cbn [andb]. rewrite !(get_middle _ DateString_eqb_eq _ d _ _ d2 Hd).
    destruct (DateString_eqb d (dateOf r)); [reflexivity|].
    now rewrite app_nil_r.
Qed.

Lemma bucketOf_fold recs : forall g u d,
  bucketOf (recordsByUserAndDate
              (fold_left (groupRecord localDay dateText) recs g)) u d
  = bucketOf (recordsByUserAndDate g) u d
    ++ filter (inBucket u d) (filedRecords localDay dateText g recs).
Proof.
  induction recs as [|r recs IH]; intros g u d;
    cbn [fold_left filedRecords filter].
  - now rewrite app_nil_r.
  - rewrite IH, bucketOf_groupRecord, filter_app, <- app_assoc.
    f_equal. f_equal.
    destruct (filed localDay dateText g r); cbn [filter];
      [|now rewrite andb_false_r].
    rewrite andb_true_r. now destruct (inBucket u d r).
Qed.

End Buckets.

Lemma sorted_filter {A} (R : A -> A -> Prop) (p : A -> bool) l :
  StronglySorted R l -> StronglySorted R (filter p l).
Proof.
  induction 1 as [|x l Hs IH Hx]; cbn [filter]; [constructor|].
  destruct (p x); [|exact IH].
  constructor; [exact IH|]. apply Forall_forall. intros y Hy.
  apply filter_In in Hy as [Hy _]. rewrite Forall_forall in Hx.
  now apply Hx.
Qed.

Lemma filter_comm_aux {A} (p q : A -> bool) l :
  filter p (filter q l) = filter q (filter p l).
Proof.
  induction l as [|x l IH]; [reflexivity|]. cbn [filter].
  destruct (p x) eqn:Ep, (q x) eqn:Eq; cbn [filter];
    rewrite ?Ep, ?Eq, IH; reflexivity.
Qed.

Lemma filter_filter_and {A} (p q : A -> bool) l :
  filter p (filter q l) = filter (fun x => p x && q x) l.
Proof.
  induction l as [|x l IH]; [reflexivity|]. cbn [filter].
  destruct (q x) eqn:Eq; cbn [filter].
  - destruct (p x); cbn [andb]; now rewrite IH.
  - rewrite andb_false_r. exact IH.
Qed.

Lemma filter_filter_sub {A} (p q : A -> bool) l :
  (forall x, p x = true -> q x = true) ->
  filter p (filter q l) = filter p l.
Proof.
  intro H. induction l as [|x l IH]; [reflexivity|]. cbn [filter].
  destruct (p x) eqn:Ep.
  - rewrite (H x Ep). cbn [filter]. now rewrite Ep, IH.
  - destruct (q x); cbn [filter]; now rewrite ?Ep, IH.
Qed.

(** Where no record is filed on [Object.prototype], the grouping is a
    lookup table of the input for the user ids and date strings that
    are no names there: under such a user and date it files exactly the
    records of that user that print as that date, in the order of the
    input; a key exists only where there is such a record. *)
Theorem buckets_file_the_input
    (localDay : Z -> Z) (dateText : DateString -> string)
    (proto : JS.Prototype) (records : list AttendanceRecord)
    (u : string) (d : DateString) :
  Unpolluted proto records ->
  JS.inherits proto u = false -> JS.inherits proto (dateText d) = false ->
  let obj := groupRecords localDay dateText proto records in
  let filed :=
    filter (fun r => String.eqb (rec_userId r) u &&
                     DateString_eqb
                       (toLocaleDateString localDay (getTime r)) d)
           records in
  bucketOf obj u d = filed /\
  match getUser u obj with
  | Some days =>
      match getDay d days with
      | Some b => b = filed /\ b <> []
      | None => filed = []
      end
  | None => forall r, In r records -> rec_userId r <> u
  end.
Proof.
  intros Hclean Hu Hd obj filed.
  assert (Hb : bucketOf obj u d = filed).
  { unfold obj, groupRecords, grouping. rewrite bucketOf_fold.
    cbn [recordsByUserAndDate bucketOf getUser JS.get app].
    assert (Hc : prototypeNames (mkGrouping [] proto) = proto /\
               Forall (fun e : string * DayBuckets =>
                 JS.inherits proto (fst e) = false /\
                 Forall (fun d => JS.inherits proto (dateText d) = false)
                        (JS.keys (snd e)))
                 (recordsByUserAndDate (mkGrouping [] proto))).
    { split; [reflexivity|constructor]. }
    rewrite (proj1 (proj2 (@grouping_static localDay dateText proto records
                             _ Hc Hclean))).
    unfold filed. apply filter_filter_sub. intros r Hr.
    apply andb_prop in Hr as [H1 H2].
    apply String.eqb_eq in H1. apply DateString_eqb_eq in H2.
    unfold plainKeys. now rewrite H1, H2, Hu, Hd. }
  split; [exact Hb|].
  destruct (getUser u obj) as [days|] eqn:Eu.
  - destruct (getDay d days) as [b|] eqn:Ed.
    + assert (Heq : b = filed).
      { unfold bucketOf in Hb. rewrite Eu, Ed in Hb. exact Hb. }
      split; [exact Heq|].
      destruct (groupRecords_ok localDay dateText proto records)
        as (_ & _ & Hne & _).
      fold obj in Hne. unfold BucketsOk in Hne. rewrite Forall_forall in Hne.
      apply (get_in _ String.eqb_eq) in Eu.
      destruct (Hne _ Eu) as [_ Hne']. cbn [snd] in Hne'.
      rewrite Forall_forall in Hne'.
      apply (get_in _ DateString_eqb_eq) in Ed.
      exact (Hne' _ Ed).
    + unfold bucketOf in Hb. rewrite Eu, Ed in Hb. symmetry. exact Hb.
  - intros r Hr Hur.
    apply (get_none _ String.eqb_eq) in Eu. apply Eu.
    apply (proj2 (proj2 (@groupRecords_static localDay dateText proto records
                           Hclean))).
    split; [exact Hu|]. eauto.
Qed.

(** Where no record is filed on [Object.prototype], the statistics list
    each user once, in the order of [Object.keys]: the user ids that are
    array indices first, in ascending order, and then the other ids in
    the order in which they first occur in the input; the ids are those
    of the roster users with a record that are no names on
    [Object.prototype]. *)
Theorem userStats_in_key_order
    (localDay : Z -> Z) (parseLocaleDate : DateString -> JS.Num)
    (dateText : DateString -> string) (proto : JS.Prototype)
    (now : Z) (records : list AttendanceRecord) (users : list User) :
  Unpolluted proto records ->
  let s := processAttendance localDay parseLocaleDate dateText proto now records users in
  let listed u :=
    existsb (fun user => String.eqb (user_id user) u) users
    && negb (JS.inherits proto u) in
  NoDup (JS.keys (userStats s)) /\
  KeyOrdered JS.arrayIndex (userStats s) /\
  filter notIndex (JS.keys (userStats s))
  = filter (fun u => listed u && notIndex u)
           (setValues String.eqb (map rec_userId records)) /\
  (forall u, In u (JS.keys (userStats s)) <->
             listed u = true /\ exists r, In r records /\ rec_userId r = u).
Proof.
  intros Hclean s listed.
  assert (Hroster : forall u,
            existsb (fun user => String.eqb (user_id user) u) users
            = match findUser users u with Some _ => true | None => false end).
  { intro u. unfold findUser, JS.find.
    destruct (find (fun u0 => String.eqb (user_id u0) u) users) as [user|] eqn:E.
    - apply find_some in E as [H1 H2]. apply existsb_exists. eauto.
    - destruct (existsb (fun user => String.eqb (user_id user) u) users) eqn:E2;
        [|reflexivity].
      apply existsb_exists in E2 as (user & H1 & H2).
      apply find_none with (x := user) in E; [congruence|exact H1]. }
  destruct (groupRecords_ok localDay dateText proto records)
    as (Hnd & Hord & _).
  destruct (@groupRecords_static localDay dateText proto records Hclean)
    as (_ & _ & Hkeys).
  subst s.
  destruct (output_closed localDay parseLocaleDate dateText proto now records users)
    as (_ & Hstats & _).
  rewrite Hstats. unfold KeyOrdered. rewrite keys_userStatsOf.
  set (obj := groupRecords localDay dateText proto records) in *.
  split; [now apply NoDup_filter|]. split; [|split].
  - apply sorted_filter. exact Hord.
  - assert (Hc : prototypeNames (mkGrouping [] proto) = proto /\
               Forall (fun e : string * DayBuckets =>
                 JS.inherits proto (fst e) = false /\
                 Forall (fun d => JS.inherits proto (dateText d) = false)
                        (JS.keys (snd e)))
                 (recordsByUserAndDate (mkGrouping [] proto))).
    { split; [reflexivity|constructor]. }
    pose proof (@grouping_first_come localDay dateText proto records
                  (mkGrouping [] proto) [] Hc Hclean eq_refl) as Hfirst.
    cbn [recordsByUserAndDate JS.keys map In] in Hfirst.
    specialize (Hfirst (fun u _ => conj (fun H => H) (fun H => H))).
    fold (grouping localDay dateText proto records) in Hfirst.
    fold (groupRecords localDay dateText proto records) in Hfirst.
    fold obj in Hfirst. fold (setValues String.eqb (map rec_userId records))
      in Hfirst.
    rewrite filter_comm_aux, Hfirst, filter_filter_and.
    apply filter_ext. intro u. unfold listed. rewrite Hroster.
    destruct (findUser users u), (JS.inherits proto u), (notIndex u);
      reflexivity.
  - intro u. rewrite filter_In, Hkeys. unfold listed. rewrite Hroster.
    destruct (findUser users u), (JS.inherits proto u); cbn [negb andb];
      intuition congruence.
Qed.

(** ** Nothing pairable is left unpaired *)

Section Maximal.
Variables (user : User) (uid : string) (day today : DateString).

(** Every open session of the state has no later check-out left in the
    array. *)
Let Settled (st : DayLoop) : Prop :=
  Forall (fun e => forall ci, checkIn e = Some ci -> checkOut e = None ->
            Forall (fun r => isMatchFor ci r = false) (dayRecords st))
         (checkInsAndOuts st).

Lemma pairCheckIn_settled c st :
  Settled st -> Settled (pairCheckIn user uid day today c st).
Proof.
  unfold Settled. intro H.
  destruct (pairCheckIn_cases user uid day today c st)
    as [[Hnone ->]|(l1 & co & l2 & Hsplit & _ & _ & ->)];
    cbn [checkInsAndOuts dayRecords]; apply Forall_app; split.
  - exact H.
  - constructor; [|constructor]. cbn [checkIn checkOut].
    intros ci Hci _. injection Hci as <-.
    now apply findIndex_none in Hnone.
  - eapply Forall_impl; [|exact H]. intros e He ci Hci Hco.
    specialize (He ci Hci Hco). rewrite Hsplit in He.
    apply Forall_app in He as [H1 H2]. inversion H2; subst.
    apply Forall_app. now split.
  - constructor; [|constructor]. cbn [checkIn checkOut]. discriminate.
Qed.

Lemma pairAll_settled cs : forall st,
  Settled st -> Settled (pairAll user uid day today cs st).
Proof.
  induction cs as [|c cs IH]; intros st H; [exact H|].
  cbn [pairAll fold_left]. apply IH. now apply pairCheckIn_settled.
Qed.

(** In one ascending day, no session without check-in has a check-out
    later than the check-in of an open session. *)
Lemma pairDay_settled d a b e1 e2 ci co :
  Ascending d ->
  In e1 (checkInsAndOuts (pairDay user uid day today d a b)) ->
  In e2 (checkInsAndOuts (pairDay user uid day today d a b)) ->
  checkIn e1 = Some ci -> checkOut e1 = None ->
  checkIn e2 = None -> checkOut e2 = Some co ->
  JS.gt (getTime co) (getTime ci) = false.
Proof.
  intros Hasc H1 H2 Hci1 Hco1 Hci2 Hco2.
  rewrite (pairDay_entries user uid day today a b Hasc) in H1, H2.
  cbn [checkInsAndOuts] in H1, H2.
  set (st := pairAll user uid day today (filter isCheckIn d)
               (mkDayLoop d [] a b)) in *.
  assert (Hset : Settled st).
  { apply pairAll_settled. constructor. }
  assert (Hnews : Forall (fun e => checkIn e <> None) (checkInsAndOuts st)).
  { assert (Hcs : Forall (fun c => isCheckIn c = true) (filter isCheckIn d)).
    { apply Forall_forall. intros c Hc. now apply filter_In in Hc. }
    destruct (pairAll_facts user uid day today Hcs (mkDayLoop d [] a b))
      as (news & Hn & Hmap & _).
    fold st in Hn. cbn [checkInsAndOuts app] in Hn. rewrite Hn.
    clear - Hmap. revert Hmap. generalize (filter isCheckIn d).
    induction news as [|e news IH]; intros [|c cs] H; try discriminate;
      constructor.
    - simpl in H. injection H as H _. congruence.
    - simpl in H. injection H as _ H. now apply (IH cs). }
  rewrite Forall_forall in Hnews.
  apply in_app_or in H2 as [H2|H2]; [apply Hnews in H2; congruence|].
  apply in_map_iff in H2 as (r & <- & Hr). cbn [checkOut] in Hco2.
  injection Hco2 as ->. apply filter_In in Hr as [Hr Hout].
  apply in_app_or in H1 as [H1|H1].
  - unfold Settled in Hset. rewrite Forall_forall in Hset.
    specialize (Hset e1 H1 ci Hci1 Hco1). rewrite Forall_forall in Hset.
    specialize (Hset co Hr). unfold isMatchFor in Hset.
    now rewrite Hout in Hset.
  - apply in_map_iff in H1 as (r' & <- & _). discriminate.
Qed.

End Maximal.

Lemma groupRecords_dates_nodup localDay dateText proto recs :
  Forall (fun e => NoDup (JS.keys (snd e)))
         (groupRecords localDay dateText proto recs).
Proof.
  destruct (groupRecords_ok localDay dateText proto recs) as (_ & _ & _ & H).
  eapply Forall_impl; [|exact H]. now intros e [He _].
Qed.

Section Unpaired.
Variables (localDay : Z -> Z) (users : list User) (today : DateString).

Let Clear (l : list ProcessedAttendanceRecord) : Prop :=
  forall e1 e2 ci co,
    In e1 l -> In e2 l -> userId e1 = userId e2 -> date e1 = date e2 ->
    checkIn e1 = Some ci -> checkOut e1 = None ->
    checkIn e2 = None -> checkOut e2 = Some co ->
    JS.gt (getTime co) (getTime ci) = false.

Lemma userLoop_clear user uid days : forall a b,
  DaysOk localDay uid days -> NoDup (JS.keys days) ->
  Clear (processed (fold_left (processDate user uid today) days
                      (mkUserLoop [] a b))) /\
  Forall (fun e => In (date e) (JS.keys days) /\ userId e = uid)
         (processed (fold_left (processDate user uid today) days
                       (mkUserLoop [] a b))).
Proof.
  induction days as [|[d bucket] days IH]; intros a b Hok Hnd.
  - split; [intros e1 e2 ci co []|constructor].
  - inversion Hok as [|? ? Hb Hrest]; subst. cbn [fst snd] in Hb.
    cbn [JS.keys map fst] in Hnd. inversion Hnd as [|? ? Hd Hnd']; subst.
    cbn [fold_left]. rewrite processDate_shape. cbv zeta. cbn [fst snd app].
    rewrite processDate_acc. cbv zeta. cbn [processed].
    assert (Hasc : Ascending (JS.sort compareRecords bucket)).
    { apply (@sort_bucket_ascending localDay d).
      eapply Forall_impl; [|exact Hb]. now intros r [_ H]. }
    destruct (pairDay_facts user uid d today a b Hasc) as (_ & _ & Hwf & _).
    set (day := pairDay user uid d today (JS.sort compareRecords bucket) a b)
      in *.
    destruct (IH (userTotalMinutesToday day) (userTotalMinutesAllTime day)
                Hrest Hnd') as [Hclear Hdates].
    set (rest := processed (fold_left (processDate user uid today) days
                   (mkUserLoop [] (userTotalMinutesToday day)
                      (userTotalMinutesAllTime day)))) in *.
    rewrite Forall_forall in Hwf, Hdates.
    split.
    + intros e1 e2 ci co H1 H2 Hu Hdt Hci1 Hco1 Hci2 Hco2.
      apply in_app_or in H1 as [H1|H1]; apply in_app_or in H2 as [H2|H2].
      * exact (@pairDay_settled user uid d today _ a b e1 e2 ci co Hasc
                 H1 H2 Hci1 Hco1 Hci2 Hco2).
      * exfalso. apply Hd. destruct (Hwf e1 H1) as (_ & <- & _).
        rewrite Hdt. now apply Hdates.
      * exfalso. apply Hd. destruct (Hwf e2 H2) as (_ & <- & _).
        rewrite <- Hdt. now apply Hdates.
      * exact (Hclear e1 e2 ci co H1 H2 Hu Hdt Hci1 Hco1 Hci2 Hco2).
    + apply Forall_forall. intros e He. cbn [JS.keys map fst].
      apply in_app_or in He as [He|He].
      * destruct (Hwf e He) as (Hu & Hdt & _). split; [now left|exact Hu].
      * destruct (Hdates e He) as [H1 H2]. split; [now right|exact H2].
Qed.

Lemma sessions_clear obj :
  BucketsOk localDay obj ->
  Forall (fun e => NoDup (JS.keys (snd e))) obj ->
  NoDup (JS.keys obj) ->
  Clear (flat_map (userSessions users today) obj) /\
  Forall (fun e => In (userId e) (JS.keys obj))
         (flat_map (userSessions users today) obj).
Proof.
  induction 1 as [|[u days] obj [Hd _] _ IH]; intros Hdn Hnd.
  - split; [intros e1 e2 ci co []|constructor].
  - inversion Hdn as [|? ? Hdays Hdn']; subst. cbn [snd] in Hdays.
    cbn [JS.keys map fst] in Hnd. inversion Hnd as [|? ? Hu Hnd']; subst.
    destruct (IH Hdn' Hnd') as [Hclear Husers].
    cbn [flat_map fst snd] in *.
    assert (Hblock : Clear (userSessions users today (u, days)) /\
                     Forall (fun e => userId e = u)
                            (userSessions users today (u, days))).
    { unfold userSessions. cbn [fst snd].
      destruct (findUser users u) as [user|];
        [|split; [intros e1 e2 ci co []|constructor]].
      destruct (userLoop_clear user 0 0 Hd Hdays) as [H1 H2].
      split; [exact H1|]. eapply Forall_impl; [|exact H2]. now intros e [_ H]. }
    destruct Hblock as [Hb1 Hb2]. rewrite Forall_forall in Hb2, Husers.
    split.
    + intros e1 e2 ci co H1 H2 Hid Hdt Hci1 Hco1 Hci2 Hco2.
      apply in_app_or in H1 as [H1|H1]; apply in_app_or in H2 as [H2|H2].
      * exact (Hb1 e1 e2 ci co H1 H2 Hid Hdt Hci1 Hco1 Hci2 Hco2).
      * exfalso. apply Hu. rewrite <- (Hb2 e1 H1), Hid. now apply Husers.
      * exfalso. apply Hu. rewrite <- (Hb2 e2 H2), <- Hid. now apply Husers.
      * exact (Hclear e1 e2 ci co H1 H2 Hid Hdt Hci1 Hco1 Hci2 Hco2).
    + apply Forall_forall. intros e He. cbn [JS.keys map fst].
      apply in_app_or in He as [He|He].
      * left. symmetry. now apply Hb2.
      * right. now apply Husers.
Qed.

End Unpaired.

(** Among the sessions of one user on one date, an open session and a
    session without check-in never stand so that the check-out is later
    than the check-in: whenever a check-in could have been paired, it
    was. *)
Theorem no_pairable_pair_left
    (localDay : Z -> Z) (parseLocaleDate : DateString -> JS.Num)
    (dateText : DateString -> string) (proto : JS.Prototype)
    (now : Z) (records : list AttendanceRecord) (users : list User)
    e1 e2 ci co :
  let sessions :=
    processedAttendance
      (processAttendance localDay parseLocaleDate dateText proto now records users) in
  In e1 sessions -> In e2 sessions ->
  userId e1 = userId e2 -> date e1 = date e2 ->
  checkIn e1 = Some ci -> checkOut e1 = None ->
  checkIn e2 = None -> checkOut e2 = Some co ->
  JS.gt (getTime co) (getTime ci) = false.
Proof.
  intros sessions H1 H2.
  pose proof (output_perm localDay parseLocaleDate dateText proto now records users) as Hperm.
  fold sessions in Hperm.
  apply (Permutation_in _ Hperm) in H1. apply (Permutation_in _ Hperm) in H2.
  destruct (groupRecords_invariant localDay dateText proto records) as (Hnd & Hok & _).
  pose proof (groupRecords_dates_nodup localDay dateText proto records)
    as Hdn.
  destruct (sessions_clear users (toLocaleDateString localDay (Some now))
              Hok Hdn Hnd) as [Hclear _].
  exact (Hclear e1 e2 ci co H1 H2).
Qed.

(** ** Sorted output *)

Section SortFacts.
Variables (A : Type) (cmp : A -> A -> JS.Num) (D : A -> Prop).

Let le (a b : A) : Prop := JS.sortCompare (cmp a b) <= 0.

Hypothesis le_total : forall a b, D a -> D b -> le a b \/ le b a.
Hypothesis le_trans :
  forall a b c, D a -> D b -> D c -> le a b -> le b c -> le a c.

Lemma insert_sorted x l :
  D x -> Forall D l -> StronglySorted le l ->
  StronglySorted le (JS.insert cmp x l).
Proof.
  intros Hx Hl Hs. induction Hs as [|y l Hs IH Hy]; cbn [JS.insert].
  - repeat constructor.
  - inversion Hl as [|? ? Dy Dl]; subst.
    destruct (JS.sortCompare (cmp x y) <=? 0) eqn:E.
    + apply Z.leb_le in E. constructor; [now constructor|].
      constructor; [exact E|].
      rewrite Forall_forall in Hy, Dl. apply Forall_forall. intros z Hz.
      apply (le_trans Hx Dy (Dl z Hz) E). now apply Hy.
    + apply Z.leb_gt in E. constructor; [now apply IH|].
      apply (Forall_perm (Permutation_sym (insert_perm cmp x l))).
      constructor; [|exact Hy].
      destruct (le_total Hx Dy) as [H|H]; [unfold le in H; lia|exact H].
Qed.

Lemma sort_sorted l : Forall D l -> StronglySorted le (JS.sort cmp l).
Proof.
  induction 1 as [|x l Hx Hl IH]; cbn [JS.sort]; [constructor|].
  apply insert_sorted; auto.
  exact (Forall_perm (Permutation_sym (sort_perm cmp l)) Hl).
Qed.

End SortFacts.

Lemma StronglySorted_impl {A} (R S : A -> A -> Prop) (D : A -> Prop) l :
  (forall a b, D a -> D b -> R a b -> S a b) ->
  Forall D l -> StronglySorted R l -> StronglySorted S l.
Proof.
  intros H Hd Hs. induction Hs as [|x l Hs IH Hx]; constructor.
  - inversion Hd; subst. now apply IH.
  - inversion Hd as [|? ? Dx Dl]; subst.
    rewrite Forall_forall in *. intros y Hy. apply H; auto.
Qed.

(** With readable timestamps on all records, and a host that reads its
    date strings back in the order of the days, the sessions come out
    newest first: a later local day before an earlier one, and within a
    day the later check-in (or check-out, where there is no check-in)
    first. *)
Theorem sessions_newest_first
    (localDay : Z -> Z) (parseLocaleDate : DateString -> JS.Num)
    (dateText : DateString -> string) (proto : JS.Prototype)
    (now : Z) (records : list AttendanceRecord) (users : list User) :
  Forall (fun r => getTime r <> None) records ->
  parsesInOrder parseLocaleDate ->
  StronglySorted newerFirst
    (processedAttendance
       (processAttendance localDay parseLocaleDate dateText proto now records users)).
Proof.
  intros Htimes Hmono.
  assert (Hparse : forall n, exists x, parseLocaleDate (LocalDate n) = Some x).
  { intro n. destruct (Hmono (n - 1) n ltac:(lia)) as (_ & y & _ & Hy & _).
    eauto. }
  assert (Hlt : forall m n x y,
            parseLocaleDate (LocalDate m) = Some x ->
            parseLocaleDate (LocalDate n) = Some y ->
            (m < n -> x < y) /\ (m = n -> x = y) /\ (n < m -> y < x)).
  { intros m n x y Hx Hy. repeat split.
    - intro H. destruct (Hmono m n H) as (x' & y' & Hx' & Hy' & Hxy).
      congruence.
    - intros ->. congruence.
    - intro H. destruct (Hmono n m H) as (x' & y' & Hx' & Hy' & Hxy).
      congruence. }
  set (D := fun e : ProcessedAttendanceRecord =>
              (exists n, date e = LocalDate n) /\ entryTime e <> None).
  assert (HD : Forall D (processedAttendance
                 (processAttendance localDay parseLocaleDate dateText proto now records users))).
  { apply Forall_forall. intros e He.
    destruct (output_records localDay parseLocaleDate dateText proto now records users
                e He) as (Hend & Hrec).
    rewrite Forall_forall in Htimes. unfold D, entryTime.
    destruct (checkIn e) as [r|] eqn:Er.
    - destruct (Hrec r (or_introl eq_refl)) as (H1 & _ & H3).
      specialize (Htimes r H1). rewrite <- H3.
      destruct (getTime r); [|congruence]. simpl. split; [eauto|congruence].
    - destruct (checkOut e) as [r|] eqn:Er'; [|destruct Hend; congruence].
      destruct (Hrec r (or_intror eq_refl)) as (H1 & _ & H3).
      specialize (Htimes r H1). rewrite <- H3.
      destruct (getTime r); [|congruence]. simpl. split; [eauto|congruence]. }
  destruct (output_closed localDay parseLocaleDate dateText proto now records users)
    as (Hsorted & _ & _).
  rewrite Hsorted in *.
  assert (HD' : Forall D (flat_map
                  (userSessions users (toLocaleDateString localDay (Some now)))
                  (groupRecords localDay dateText proto records))).
  { exact (Forall_perm (sort_perm _ _) HD). }
  apply (@StronglySorted_impl _
           (fun a b => JS.sortCompare (compareProcessed parseLocaleDate a b) <= 0)
           newerFirst D).
  - intros a b [[na Ha1] Ha2] [[nb Hb1] Hb2]. unfold compareProcessed, newerFirst.
    rewrite Ha1, Hb1.
    destruct (Hparse na) as [da Hda]. destruct (Hparse nb) as [db Hdb].
    destruct (Hlt na nb da db Hda Hdb) as (L1 & L2 & L3).
    rewrite Hda, Hdb.
    destruct (entryTime a) as [ta|]; [|congruence].
    destruct (entryTime b) as [tb|]; [|congruence].
    simpl. destruct (da =? db) eqn:E; simpl.
    + apply Z.eqb_eq in E. lia.
    + apply Z.eqb_neq in E. lia.
  - exact HD.
  - apply (@sort_sorted _ (compareProcessed parseLocaleDate) D); [| |exact HD'].
    + intros a b [[na Ha1] Ha2] [[nb Hb1] Hb2]. unfold compareProcessed.
      rewrite Ha1, Hb1.
      destruct (Hparse na) as [da Hda]. destruct (Hparse nb) as [db Hdb].
      rewrite Hda, Hdb.
      destruct (entryTime a) as [ta|]; [|congruence].
      destruct (entryTime b) as [tb|]; [|congruence].
      simpl. rewrite (Z.eqb_sym db da).
      destruct (da =? db) eqn:E; simpl; lia.
    + intros a b c [[na Ha1] Ha2] [[nb Hb1] Hb2] [[nc Hc1] Hc2].
      unfold compareProcessed. rewrite Ha1, Hb1, Hc1.
      destruct (Hparse na) as [da Hda]. destruct (Hparse nb) as [db Hdb].
      destruct (Hparse nc) as [dc Hdc].
      rewrite Hda, Hdb, Hdc.
      destruct (entryTime a) as [ta|]; [|congruence].
      destruct (entryTime b) as [tb|]; [|congruence].
      destruct (entryTime c) as [tc|]; [|congruence].
      simpl.
      destruct (da =? db) eqn:E1, (db =? dc) eqn:E2, (da =? dc) eqn:E3;
        simpl;
        rewrite ?Z.eqb_eq, ?Z.eqb_neq in *; lia.
Qed.

(** ** The productivity card *)

(** The rows of the productivity card are the statistics entries with
    minutes today, most minutes first, and the card is empty exactly
    when there is none.  After the effect they are as many as the users
    that the average of the day is taken over, and an empty card goes
    with an average of 0. *)
Theorem productivity_rows_sorted :
  (forall st : DashboardState,
     Permutation (productivityRows st)
       (filter (fun kv => 0 <? totalMinutesToday (snd kv)) (userStats st)) /\
     StronglySorted
       (fun a b => totalMinutesToday (snd b) <= totalMinutesToday (snd a))
       (productivityRows st) /\
     Forall (fun kv => 0 < totalMinutesToday (snd kv)) (productivityRows st) /\
     (productivityShown st = false <-> productivityRows st = []))
  /\
  (forall (localDay : Z -> Z) (parseLocaleDate : DateString -> JS.Num)
    (dateText : DateString -> string) (proto : JS.Prototype)
          (now : Z) (records : list AttendanceRecord) (users : list User),
     let s := processAttendance localDay parseLocaleDate dateText proto now records users in
     length (productivityRows s)
     = length (filter activeToday (map snd (userStats s))) /\
     (productivityShown s = false ->
      avgHoursToday (dashboardStats s) = 0%float)).
Proof.
  assert (Hperm : forall st,
            Permutation (productivityRows st)
              (filter (fun kv => 0 <? totalMinutesToday (snd kv))
                      (userStats st))) by (intro st; apply sort_perm).
  assert (Hlen : forall st,
            length (filter (fun kv : string * UserStats =>
                              0 <? totalMinutesToday (snd kv)) (userStats st))
            = length (filter activeToday (map snd (userStats st)))).
  { intro st. induction (userStats st) as [|kv l IH]; [reflexivity|].
    simpl. unfold activeToday at 1.
    destruct (0 <? totalMinutesToday (snd kv)); simpl; now rewrite IH. }
  assert (Hshown : forall st,
            productivityShown st = false <-> productivityRows st = []).
  { intro st. unfold productivityShown. split.
    - intro H. apply Permutation_nil. symmetry. rewrite (Hperm st).
      rewrite filter_all_false; [reflexivity|].
      apply Forall_forall. intros kv Hkv.
      destruct (0 <? totalMinutesToday (snd kv)) eqn:E; [|reflexivity].
      assert (Hex : existsb (fun user => 0 <? totalMinutesToday user)
                      (map snd (userStats st)) = true).
      { apply existsb_exists. exists (snd kv). split; [now apply in_map|exact E]. }
      congruence.
    - intro H. destruct (existsb _ _) eqn:E; [|reflexivity].
      apply existsb_exists in E as (x & Hx & Hpos).
      apply in_map_iff in Hx as (kv & <- & Hkv).
      assert (Hin : In kv (productivityRows st)).
      { apply (Permutation_in _ (Permutation_sym (Hperm st))).
        apply filter_In. now split. }
      rewrite H in Hin. destruct Hin. }
  split.
  - intro st. split; [apply Hperm|]. split; [|split; [|apply Hshown]].
    + apply (@StronglySorted_impl _
               (fun a b => JS.sortCompare (compareProductivity a b) <= 0)
               _ (fun _ => True)).
      * intros a b _ _ H. unfold compareProductivity in H. simpl in H. lia.
      * apply Forall_forall. auto.
      * apply (@sort_sorted _ compareProductivity (fun _ => True)).
        -- intros a b _ _. unfold compareProductivity. simpl. lia.
        -- intros a b c _ _ _. unfold compareProductivity. simpl. lia.
        -- apply Forall_forall. auto.
    + apply (Forall_perm (Permutation_sym (Hperm st))).
      apply Forall_forall. intros kv Hkv. apply filter_In in Hkv as [_ H].
      now apply Z.ltb_lt.
  - intros localDay parseLocaleDate dateText proto now records users s. split.
    + rewrite (Permutation_length (Hperm s)). apply Hlen.
    + intro H. apply Hshown in H.
      destruct (output_closed localDay parseLocaleDate dateText proto now records users)
        as (_ & _ & Havg).
      fold s in Havg. rewrite Havg.
      assert (H0 : length (filter activeToday (map snd (userStats s))) = 0%nat).
      { rewrite <- Hlen, <- (Permutation_length (Hperm s)), H. reflexivity. }
      now rewrite H0.
Qed.

(** ** The history of a user *)

Section SetValues.
Variables (A : Type) (eqb : A -> A -> bool).
Hypothesis eqb_eq : forall a b, eqb a b = true <-> a = b.

Lemma setValues_from l : forall seen,
  NoDup seen ->
  let r := fold_left (fun s x => if existsb (eqb x) s then s else s ++ [x])
                     l seen in
  NoDup r /\ forall x, In x r <-> In x seen \/ In x l.
Proof.
  induction l as [|y l IH]; intros seen Hnd; cbn [fold_left].
  - split; [exact Hnd|]. intro x. simpl. tauto.
  - destruct (existsb (eqb y) seen) eqn:E.
    + destruct (IH seen Hnd) as [H1 H2]. split; [exact H1|].
      intro x. rewrite H2. simpl.
      apply existsb_exists in E as (z & Hz & Ez). apply eqb_eq in Ez. subst z.
      split; [tauto|]. intros [H|[<-|H]]; auto.
    + assert (Hy : ~ In y seen).
      { intro H. assert (existsb (eqb y) seen = true); [|congruence].
        apply existsb_exists. exists y. split; [exact H|now apply eqb_eq]. }
      destruct (IH (seen ++ [y])) as [H1 H2].
      { apply NoDup_app. repeat split; auto.
        - repeat constructor. simpl. tauto.
        - intros x Hx [<-|[]]. contradiction. }
      split; [exact H1|]. intro x. rewrite H2, in_app_iff. simpl. tauto.
Qed.

Lemma setValues_spec l :
  NoDup (setValues eqb l) /\ forall x, In x (setValues eqb l) <-> In x l.
Proof.
  destruct (setValues_from l (NoDup_nil A)) as [H1 H2].
  split; [exact H1|]. intro x. unfold setValues. rewrite H2. simpl. tauto.
Qed.

End SetValues.

Lemma sumZ_perm l l' : Permutation l l' -> sumZ l = sumZ l'.
Proof. unfold sumZ. induction 1; simpl; lia. Qed.

Lemma dayTotalMinutes_sum rows : dayTotalMinutes rows = sumMinutes rows.
Proof.
  unfold dayTotalMinutes.
  assert (H : forall acc,
            fold_left (fun total record =>
                         total + match duration record with
                                 | Some d => d | None => 0 end) rows acc
            = acc + sumMinutes rows).
  { induction rows as [|e rows IH]; intro acc; cbn [fold_left].
    - unfold sumMinutes. simpl. lia.
    - rewrite IH, sumMinutes_cons. unfold entryMinutes. lia. }
  rewrite H. lia.
Qed.

(** The minutes of a list split over distinct dates that cover it. *)
Lemma sumMinutes_by_date ks : forall l,
  NoDup ks -> Forall (fun e => In (date e) ks) l ->
  sumZ (map (fun d => sumMinutes (groupRows l d)) ks) = sumMinutes l.
Proof.
  intros l Hnd. induction 1 as [|e l He Hl IH].
  - unfold sumZ. clear Hnd. induction ks as [|k ks IHk]; [reflexivity|].
    cbn [map fold_right]. rewrite IHk. reflexivity.
  - rewrite sumMinutes_cons, <- IH.
    clear IH Hl. revert He. induction Hnd as [|k ks Hk Hnd IHk]; intro He;
      [destruct He|].
    unfold sumZ in *. cbn [map fold_right]. unfold groupRows at 1 3.
    cbn [filter].
    destruct (DateString_eqb (date e) k) eqn:E.
    + apply DateString_eqb_eq in E. rewrite sumMinutes_cons.
      assert (Hrest : fold_right Z.add 0
                (map (fun d => sumMinutes (groupRows (e :: l) d)) ks)
              = fold_right Z.add 0
                (map (fun d => sumMinutes (groupRows l d)) ks)).
      { f_equal. apply map_ext_in. intros d Hd. unfold groupRows.
        cbn [filter].
        destruct (DateString_eqb (date e) d) eqn:E'; [|reflexivity].
        apply DateString_eqb_eq in E'. congruence. }
      rewrite Hrest. fold (groupRows l k). lia.
    + destruct He as [He|He];
        [subst k; now rewrite DateString_eqb_refl in E|].
      rewrite (IHk He). fold (groupRows l k). lia.
Qed.

(** On the detail screen of a user the sessions are split into one
    group per date that has a session, each date once, and the totals in
    the group headers add up to the minutes of all the user's sessions:
    to the user's all-time minutes when the user has statistics, the
    group of today showing the minutes of today; a user without
    statistics has no session to show. *)
Theorem history_groups_add_up
    (localDay : Z -> Z) (parseLocaleDate : DateString -> JS.Num)
    (dateText : DateString -> string) (proto : JS.Prototype)
    (now : Z) (records : list AttendanceRecord) (users : list User)
    (selectedUser : string) :
  let s := processAttendance localDay parseLocaleDate dateText proto now records users in
  let today := toLocaleDateString localDay (Some now) in
  let attendance := userAttendance s selectedUser in
  let groups := dateGroups parseLocaleDate attendance in
  NoDup groups /\
  (forall d, In d groups <-> groupRows attendance d <> []) /\
  sumZ (map (fun d => dayTotalMinutes (groupRows attendance d)) groups)
  = sumMinutes attendance /\
  match JS.get String.eqb selectedUser (userStats s) with
  | Some st =>
      sumZ (map (fun d => dayTotalMinutes (groupRows attendance d)) groups)
      = totalMinutesAllTime st /\
      dayTotalMinutes (groupRows attendance today) = totalMinutesToday st
  | None => attendance = []
  end.
Proof.
  intros s today attendance groups.
  destruct (setValues_spec DateString_eqb DateString_eqb_eq
              (map date attendance)) as [Hnd Hin].
  assert (Hperm : Permutation groups
                    (setValues DateString_eqb (map date attendance)))
    by apply sort_perm.
  assert (Hgroups : NoDup groups)
    by exact (Permutation_NoDup (Permutation_sym Hperm) Hnd).
  assert (Hmem : forall d, In d groups <-> In d (map date attendance)).
  { intro d. rewrite <- Hin. split; apply Permutation_in;
      [exact Hperm|exact (Permutation_sym Hperm)]. }
  assert (Hsum : sumZ (map (fun d => dayTotalMinutes (groupRows attendance d))
                         groups) = sumMinutes attendance).
  { rewrite (map_ext _ (fun d => sumMinutes (groupRows attendance d)))
      by (intro d; apply dayTotalMinutes_sum).
    apply sumMinutes_by_date; [exact Hgroups|].
    apply Forall_forall. intros e He. apply Hmem. now apply in_map. }
  split; [exact Hgroups|]. split; [|split; [exact Hsum|]].
  - intro d. rewrite Hmem. unfold groupRows. split.
    + intros Hd E. apply in_map_iff in Hd as (e & <- & He).
      assert (Hf : In e (filter (fun record =>
                     DateString_eqb (date record) (date e)) attendance)).
      { apply filter_In. split; [exact He|apply DateString_eqb_refl]. }
      rewrite E in Hf. destruct Hf.
    + intro Hne.
      destruct (filter (fun record => DateString_eqb (date record) d)
                       attendance) as [|e l] eqn:E; [congruence|].
      assert (He : In e (e :: l)) by now left.
      rewrite <- E in He. apply filter_In in He as [He Hd].
      apply DateString_eqb_eq in Hd. subst d. now apply in_map.
  - pose proof (output_stats localDay parseLocaleDate dateText proto now records users
                  selectedUser) as H.
    fold s in H.
    destruct (JS.get String.eqb selectedUser (userStats s)) as [st|] eqn:E.
    + destruct H as (_ & _ & Hall & Htoday & _). split.
      * rewrite Hsum, Hall. reflexivity.
      * rewrite dayTotalMinutes_sum, Htoday. reflexivity.
    + destruct attendance as [|e l] eqn:Ea; [reflexivity|]. exfalso.
      assert (He : In e attendance) by (rewrite Ea; now left).
      unfold attendance, userAttendance in He.
      apply filter_In in He as [He Hu]. apply String.eqb_eq in Hu.
      pose proof (session_has_stats localDay parseLocaleDate dateText proto now records users
                    e He) as Hk.
      fold s in Hk. rewrite Hu in Hk.
      apply (get_none _ String.eqb_eq) in E. contradiction.
Qed.


(** ** Duration texts *)

(** [formatDuration] (lines 421-434) and the duration cell of a row
    (lines 524 and 734). *)

Lemma chars_append s1 s2 :
  list_ascii_of_string (String.append s1 s2)
  = list_ascii_of_string s1 ++ list_ascii_of_string s2.
Proof. induction s1 as [|c s1 IH]; simpl; [reflexivity|now rewrite IH]. Qed.

Lemma chars_inj s1 s2 :
  list_ascii_of_string s1 = list_ascii_of_string s2 -> s1 = s2.
Proof.
  intro H. rewrite <- (string_of_list_ascii_of_string s1),
    <- (string_of_list_ascii_of_string s2). now rewrite H.
Qed.

Lemma numberToString_inj a b : numberToString a = numberToString b -> a = b.
Proof.
  assert (Hread : forall d, exists d',
             NilZero.int_of_string (NilZero.string_of_int d) = Some d' /\
             Z.of_int d' = Z.of_int d).
  { intros [u|u]; destruct u;
      try (eexists; split; [apply NilZero.isi; discriminate|reflexivity]).
    - eexists; split; [apply NilZero.isi_posnil|reflexivity].
    - eexists; split; [apply NilZero.isi_negnil|reflexivity]. }
  unfold numberToString. intro H.
  destruct (Hread (Z.to_int a)) as (da & Ha & Hza).
  destruct (Hread (Z.to_int b)) as (db & Hb & Hzb).
  rewrite H, Hb in Ha. injection Ha as <-.
  rewrite !DecimalZ.of_to in *. congruence.
Qed.

Lemma numberToString_chars n :
  Forall (fun c => c <> " "%char) (list_ascii_of_string (numberToString n)).
Proof.
  assert (Hu : forall d, Forall (fun c => c <> " "%char)
                 (list_ascii_of_string (NilEmpty.string_of_uint d))).
  { induction d; simpl; constructor; auto; discriminate. }
  assert (Hz : forall d, Forall (fun c => c <> " "%char)
                 (list_ascii_of_string (NilZero.string_of_uint d))).
  { intro d. destruct d; try apply Hu. simpl. constructor; [discriminate|constructor]. }
  unfold numberToString. destruct (Z.to_int n) as [d|d]; simpl.
  - apply Hz.
  - constructor; [discriminate|apply Hz].
Qed.

Lemma split_at_space (n1 n2 r1 r2 : list ascii) :
  Forall (fun c => c <> " "%char) n1 -> Forall (fun c => c <> " "%char) n2 ->
  n1 ++ " "%char :: r1 = n2 ++ " "%char :: r2 -> n1 = n2 /\ r1 = r2.
Proof.
  intro H1. revert n2. induction H1 as [|c n1 Hc H1 IH]; intros n2 H2 E.
  - destruct H2 as [|c2 n2 Hc2 H2]; simpl in E.
    + injection E as ->. auto.
    + injection E as E _. congruence.
  - destruct H2 as [|c2 n2 Hc2 H2]; simpl in E.
    + injection E as E _. congruence.
    + injection E as -> E. destruct (IH n2 H2 E) as [-> ->]. auto.
Qed.

Lemma formatDuration_chars m :
  list_ascii_of_string (formatDuration (Some m))
  = list_ascii_of_string
      (numberToString (if m / 60 =? 0 then Z.rem m 60 else m / 60))
    ++ " "%char ::
       (if m / 60 =? 0 then list_ascii_of_string "min"
        else if Z.rem m 60 =? 0 then list_ascii_of_string "hr"
        else list_ascii_of_string "hr " ++
             list_ascii_of_string (numberToString (Z.rem m 60)) ++
             list_ascii_of_string " min").
Proof.
  unfold formatDuration.
  destruct (m / 60 =? 0); [|destruct (Z.rem m 60 =? 0)];
    rewrite ?chars_append; reflexivity.
Qed.

Lemma hours_mins_inj a b :
  a / 60 = b / 60 -> Z.rem a 60 = Z.rem b 60 -> a = b.
Proof.
  intros H1 H2.
  Z.to_euclidean_division_equations. lia.
Qed.

Lemma formatDuration_inj a b :
  formatDuration (Some a) = formatDuration (Some b) -> a = b.
Proof.
  intro H. apply (f_equal list_ascii_of_string) in H.
  rewrite !formatDuration_chars in H.
  apply split_at_space in H; try apply numberToString_chars.
  destruct H as [Hn Hr]. apply chars_inj, numberToString_inj in Hn.
  destruct (a / 60 =? 0) eqn:Ea, (b / 60 =? 0) eqn:Eb;
    rewrite ?Z.eqb_eq, ?Z.eqb_neq in *.
  - apply hours_mins_inj; congruence.
  - destruct (Z.rem b 60 =? 0); discriminate Hr.
  - destruct (Z.rem a 60 =? 0); discriminate Hr.
  - destruct (Z.rem a 60 =? 0) eqn:Ma, (Z.rem b 60 =? 0) eqn:Mb;
      rewrite ?Z.eqb_eq, ?Z.eqb_neq in *.
    + apply hours_mins_inj; congruence.
    + discriminate Hr.
    + discriminate Hr.
    + simpl in Hr. injection Hr as Hr. apply app_inv_tail in Hr.
      apply chars_inj, numberToString_inj in Hr.
      now apply hours_mins_inj.
Qed.

Lemma formatDuration_space m :
  In " "%char (list_ascii_of_string (formatDuration (Some m))).
Proof. rewrite formatDuration_chars. apply in_elt. Qed.

Lemma formatDuration_not_dash m :
  formatDuration (Some m) <> formatDuration None /\
  formatDuration (Some m) <> dash.
Proof.
  split; intro H; pose proof (formatDuration_space m) as Hs; rewrite H in Hs;
    simpl in Hs; repeat destruct Hs as [Hs|Hs]; try discriminate Hs; auto.
Qed.

(** The texts of [formatDuration] tell the minutes apart: two numbers of
    minutes print alike only if they are equal, and no number prints as
    ['N/A'] or as the dash.  So the duration cell of a row shows the dash
    exactly when the row counts no minutes, rows with the same text count
    the same minutes, and after the effect the dash stands for a missing
    endpoint or a gap that rounds to 0. *)
Theorem duration_texts_tell_minutes_apart :
  (forall a b : Z, formatDuration (Some a) = formatDuration (Some b) <-> a = b)
  /\
  (forall a : Z, formatDuration (Some a) <> formatDuration None /\
                 formatDuration (Some a) <> dash) /\
  (forall e, durationCell e = dash <-> entryMinutes e = 0) /\
  (forall e1 e2, durationCell e1 = durationCell e2 ->
                 entryMinutes e1 = entryMinutes e2) /\
  (forall (localDay : Z -> Z) (parseLocaleDate : DateString -> JS.Num)
    (dateText : DateString -> string) (proto : JS.Prototype)
          (now : Z) (records : list AttendanceRecord) (users : list User) e,
     In e (processedAttendance
             (processAttendance localDay parseLocaleDate dateText proto now records users)) ->
     (durationCell e = dash <->
      checkIn e = None \/ checkOut e = None \/ duration e = Some 0)).
Proof.
  assert (Hdash : forall e, durationCell e = dash <-> entryMinutes e = 0).
  { intro e. unfold durationCell, entryMinutes.
    destruct (duration e) as [d|]; [|tauto].
    destruct (d =? 0) eqn:E; rewrite ?Z.eqb_eq, ?Z.eqb_neq in E; [tauto|].
    split; [|tauto]. intro H.
    now apply (proj2 (formatDuration_not_dash d)) in H. }
  split; [|split; [|split; [|split]]].
  - intros a b. split; [apply formatDuration_inj|now intros ->].
  - apply formatDuration_not_dash.
  - exact Hdash.
  - intros e1 e2 H.
    destruct (Z.eq_dec (entryMinutes e1) 0) as [H1|H1].
    + rewrite H1. symmetry. apply Hdash. rewrite <- H. now apply Hdash.
    + assert (H2 : entryMinutes e2 <> 0).
      { intro H2. apply H1, Hdash. rewrite H. now apply Hdash. }
      unfold durationCell, entryMinutes in *.
      destruct (duration e1) as [d1|]; [|tauto].
      destruct (duration e2) as [d2|]; [|tauto].
      apply Z.eqb_neq in H1, H2. rewrite H1, H2 in H.
      now apply formatDuration_inj.
  - intros localDay parseLocaleDate dateText proto now records users e He.
    pose proof (output_sessions localDay parseLocaleDate dateText proto now records users)
      as Hall.
    rewrite Forall_forall in Hall. destruct (Hall e He) as [Hwf _].
    pose proof (WellFormed_duration Hwf) as Hd.
    rewrite Hdash. unfold entryMinutes.
    destruct (duration e) as [d|].
    + assert (Hboth : checkIn e <> None /\ checkOut e <> None)
        by (apply Hd; discriminate).
      split.
      * intros ->. auto.
      * intros [H|[H|H]]; [tauto|tauto|congruence].
    + split; [|reflexivity]. intros _.
      destruct (checkIn e); [|now left].
      destruct (checkOut e); [|now right; left].
      exfalso. assert (H : @None Z <> None) by (apply Hd; split; discriminate).
      now apply H.
Qed.

(** ** The attendance card of today *)

Lemma sessionsOn_sessionsOf d u l :
  sessionsOn d (sessionsOf u l) = sessionsOf u (sessionsOn d l).
Proof.
  unfold sessionsOn, sessionsOf. induction l as [|e l IH]; [reflexivity|].
  cbn [filter].
  destruct (String.eqb (userId e) u) eqn:E1,
           (DateString_eqb (date e) d) eqn:E2;
    cbn [filter]; rewrite ?E1, ?E2, IH; reflexivity.
Qed.

Lemma in_get V (o : JS.Obj string V) k v :
  NoDup (JS.keys o) -> In (k, v) o -> JS.get String.eqb k o = Some v.
Proof.
  intros Hnd Hin. apply in_split in Hin as (l1 & l2 & ->).
  apply (get_at _ String.eqb_eq). unfold JS.keys in Hnd.
  rewrite map_app in Hnd. cbn [map fst] in Hnd.
  apply NoDup_remove_2 in Hnd. intro H. apply Hnd, in_or_app. now left.
Qed.

Lemma userStats_today_entry localDay users today u days :
  DaysOk localDay u days ->
  sumZ (map (fun kv => totalMinutesToday (snd kv))
          (userStatsOf users today (u, days)))
  = sumMinutes (sessionsOn today (userSessions users today (u, days))).
Proof.
  intro Hok. unfold userStatsOf, userSessions. cbn [fst snd].
  destruct (findUser users u) as [user|]; [|reflexivity].
  destruct (userLoop_facts user today 0 0 Hok) as (_ & _ & _ & _ & H).
  fold (userLoop user u today days) in H. simpl. rewrite H. lia.
Qed.

Lemma userStats_today_sum localDay users today obj :
  BucketsOk localDay obj ->
  sumZ (map (fun kv => totalMinutesToday (snd kv))
          (flat_map (userStatsOf users today) obj))
  = sumMinutes (sessionsOn today (flat_map (userSessions users today) obj)).
Proof.
  induction 1 as [|[u days] obj [Hd _] _ IH]; [reflexivity|].
  cbn [flat_map fst snd] in *.
  rewrite map_app, sumZ_app, sessionsOn_app, sumMinutes_app, IH.
  now rewrite (userStats_today_entry users today Hd).
Qed.

(** Rendered on the local day on which the effect ran, the attendance
    card of today lists the sessions that the effect dated today: their
    distinct users are the figure of today's attendance, their minutes
    add up to the minutes of today of all statistics entries, and when
    the card has no row the productivity card has none either. *)
Theorem today_card_agrees_with_figures
    (localDay : Z -> Z) (parseLocaleDate : DateString -> JS.Num)
    (dateText : DateString -> string) (proto : JS.Prototype)
    (now renderNow : Z) (records : list AttendanceRecord)
    (users : list User) :
  localDay renderNow = localDay now ->
  let s := processAttendance localDay parseLocaleDate dateText proto now records users in
  let rows := todayRows localDay renderNow s in
  rows = sessionsOn (toLocaleDateString localDay (Some now))
           (processedAttendance s) /\
  todayAttendance (dashboardStats s) = distinctCount (map userId rows) /\
  sumZ (map (fun kv => totalMinutesToday (snd kv)) (userStats s))
  = sumMinutes rows /\
  (rows = [] -> productivityShown s = false).
Proof.
  intros Hday s rows.
  assert (Hrows : rows = sessionsOn (toLocaleDateString localDay (Some now))
                           (processedAttendance s)).
  { unfold rows, todayRows, sessionsOn, toLocaleDateString.
    cbn. now rewrite Hday. }
  split; [exact Hrows|]. rewrite Hrows. clear Hrows rows.
  split; [apply todayAttendance_closed|].
  split.
  - subst s.
    destruct (output_closed localDay parseLocaleDate dateText proto now records users)
      as (_ & Hstats & _).
    rewrite Hstats.
    pose proof (output_perm localDay parseLocaleDate dateText proto now records users)
      as Hperm.
    apply (Permutation_filter
             (fun e => DateString_eqb (date e)
                         (toLocaleDateString localDay (Some now)))) in Hperm.
    fold (sessionsOn (toLocaleDateString localDay (Some now))
            (processedAttendance
               (processAttendance localDay parseLocaleDate dateText proto now records users)))
      in Hperm.
    rewrite (sumMinutes_perm Hperm).
    destruct (groupRecords_invariant localDay dateText proto records) as (_ & Hok & _).
    now apply userStats_today_sum with (localDay := localDay).
  - intro Hnil. unfold productivityShown.
    apply not_true_is_false. intro H.
    apply existsb_exists in H as (st & Hin & Hpos).
    apply in_map_iff in Hin as ([u st'] & <- & Hin). cbn [snd] in Hpos.
    pose proof (proj1 (userStats_keys localDay parseLocaleDate dateText proto now records
                         users)) as Hnd. fold s in Hnd.
    pose proof (output_stats localDay parseLocaleDate dateText proto now records users u)
      as Hs. fold s in Hs.
    rewrite (@in_get _ _ _ _ Hnd Hin) in Hs. destruct Hs as (_ & _ & _ & Hs & _).
    rewrite sessionsOn_sessionsOf, Hnil in Hs. cbn in Hs.
    apply Z.ltb_lt in Hpos. lia.
Qed.

(** ** Names on the prototype *)

(** A user whose id is a name on [Object.prototype] when the effect
    starts gets no statistics entry and no session, whether on the
    roster or not and whatever the records are. *)
Theorem inherited_user_id_is_dropped
    (localDay : Z -> Z) (parseLocaleDate : DateString -> JS.Num)
    (dateText : DateString -> string) (proto : JS.Prototype)
    (now : Z) (records : list AttendanceRecord) (users : list User)
    (u : string) :
  JS.inherits proto u = true ->
  let s := processAttendance localDay parseLocaleDate dateText proto now
             records users in
  JS.get String.eqb u (userStats s) = None /\
  sessionsOf u (processedAttendance s) = [].
Proof.
  intros Hu s.
  assert (Hkey : ~ In u (JS.keys (groupRecords localDay dateText proto
                                    records))).
  { intro Hin.
    pose proof (@grouping_keys_plain localDay dateText proto records
                  (mkGrouping [] proto) (fun n H => H) (Forall_nil _)) as H.
    rewrite Forall_forall in H. specialize (H u Hin). congruence. }
  split.
  - pose proof (output_stats localDay parseLocaleDate dateText proto now
                  records users u) as H.
    fold s in H.
    destruct (JS.get String.eqb u (userStats s)); [|reflexivity].
    destruct H as (_ & (Hin & _) & _). contradiction.
  - exact (@output_absent localDay parseLocaleDate dateText proto now
             records users u Hkey).
Qed.

(** The effect leaves on [Object.prototype] the names that it found and
    adds nothing but date strings of records that carry the user id
    [__proto__]; without such a record it adds nothing. *)
Theorem prototype_only_grows
    (localDay : Z -> Z) (dateText : DateString -> string)
    (proto : JS.Prototype)
    (records : list AttendanceRecord) (users : list User) :
  exists added,
    prototypeAfter localDay dateText proto records users = proto ++ added /\
    Forall (fun n =>
              exists r, In r records /\ rec_userId r = "__proto__"%string /\
                        n = dateText (toLocaleDateString localDay (getTime r)))
           added /\
    ((forall r, In r records -> rec_userId r <> "__proto__"%string) ->
     added = []).
Proof.
  unfold prototypeAfter.
  destruct ((0 <? length records)%nat && (0 <? length users)%nat).
  - destruct (@grouping_names localDay dateText records (mkGrouping [] proto))
      as (added & H1 & H2).
    exists added. split; [exact H1|]. split; [exact H2|].
    intro Hnone. destruct added as [|n added]; [reflexivity|].
    inversion H2 as [|? ? (r & Hr & Hid & _) _]; subst.
    exfalso. exact (Hnone r Hr Hid).
  - exists []. rewrite app_nil_r. repeat split. constructor.
Qed.

(** ** Instances of the further properties *)

Lemma session_provenance_instance :
  (checkIn fullDaySession <> None \/ checkOut fullDaySession <> None) /\
  (exists user,
     findUser [alice] (userId fullDaySession) = Some user /\
     In user [alice] /\ NamedAfter user fullDaySession) /\
  (forall r, checkIn fullDaySession = Some r \/ checkOut fullDaySession = Some r ->
     In r fullDay /\ rec_userId r = userId fullDaySession /\
     toLocaleDateString utcDay (getTime r) = date fullDaySession).
Proof.
  apply (@session_provenance utcDay utcParse utcText JS.builtin (at_ 0 20 0) fullDay [alice]
           fullDaySession).
  vm_compute. left. reflexivity.
Defined.

Lemma today_within_all_time_instance :
  JS.get String.eqb "alice"%string
    (userStats (processAttendance utcDay utcParse utcText JS.builtin (at_ 0 20 0) fullDay [alice]))
  = Some fullDayStats /\
  0 <= totalMinutesToday fullDayStats <= totalMinutesAllTime fullDayStats.
Proof.
  assert (H : JS.get String.eqb "alice"%string
                (userStats (processAttendance utcDay utcParse utcText JS.builtin (at_ 0 20 0)
                              fullDay [alice]))
              = Some fullDayStats) by (vm_compute; reflexivity).
  split; [exact H|].
  exact (@today_within_all_time utcDay utcParse utcText JS.builtin (at_ 0 20 0) fullDay [alice]
           "alice"%string fullDayStats H).
Defined.

Lemma duration_within_a_day_instance :
  In fullDaySession
    (processedAttendance
       (processAttendance utcDay utcParse utcText JS.builtin (at_ 0 20 0) fullDay [alice])) /\
  duration fullDaySession = Some 480 /\ 0 <= 480 <= 1440.
Proof.
  assert (H : In fullDaySession
                (processedAttendance
                   (processAttendance utcDay utcParse utcText JS.builtin (at_ 0 20 0) fullDay
                      [alice])))
    by (vm_compute; left; reflexivity).
  split; [exact H|]. split; [reflexivity|].
  exact (@duration_within_a_day utcDay utcParse utcText JS.builtin (at_ 0 20 0) fullDay [alice]
           fullDaySession 480 utcDay_24h H eq_refl).
Defined.

Lemma no_pairable_pair_left_instance :
  JS.gt (getTime (punch "e1" "alice" "check-out" (at_ 0 8 0)))
        (getTime (punch "e2" "alice" "check-in" (at_ 0 9 0))) = false.
Proof.
  apply (@no_pairable_pair_left utcDay utcParse utcText JS.builtin (at_ 0 20 0) outBeforeIn
           [alice] openSession strayCheckOut).
  - vm_compute. auto.
  - vm_compute. auto.
  - reflexivity.
  - reflexivity.
  - reflexivity.
  - reflexivity.
  - reflexivity.
  - reflexivity.
Defined.

Lemma sessions_newest_first_instance :
  StronglySorted newerFirst
    (processedAttendance
       (processAttendance utcDay utcParse utcText JS.builtin (at_ 1 20 0) oneActiveUser
          [alice; bob])).
Proof.
  apply sessions_newest_first.
  - repeat constructor; discriminate.
  - intros m n H. exists (m * 86400000), (n * 86400000).
    repeat split. lia.
Defined.

Lemma today_card_instance :
  let s := processAttendance utcDay utcParse utcText JS.builtin (at_ 1 20 0) oneActiveUser
             [alice; bob] in
  let rows := todayRows utcDay (at_ 1 21 30) s in
  rows = sessionsOn (toLocaleDateString utcDay (Some (at_ 1 20 0)))
           (processedAttendance s) /\
  todayAttendance (dashboardStats s) = distinctCount (map userId rows) /\
  sumZ (map (fun kv => totalMinutesToday (snd kv)) (userStats s))
  = sumMinutes rows /\
  (rows = [] -> productivityShown s = false).
Proof.
  apply (@today_card_agrees_with_figures utcDay utcParse utcText JS.builtin (at_ 1 20 0)
           (at_ 1 21 30) oneActiveUser [alice; bob]).
  reflexivity.
Defined.

Lemma buckets_file_the_input_instance :
  bucketOf (groupRecords utcDay utcText JS.builtin oneActiveUser)
    "alice" (LocalDate 1)
  = [punch "e3" "alice" "check-out" (at_ 1 11 0);
     punch "e2" "alice" "check-in" (at_ 1 9 0)].
Proof.
  refine (proj1 (@buckets_file_the_input utcDay utcText JS.builtin
                   oneActiveUser "alice"%string (LocalDate 1) _ _ _)).
  - repeat constructor.
  - reflexivity.
  - reflexivity.
Defined.

Lemma userStats_in_key_order_instance :
  let s := processAttendance utcDay utcParse utcText JS.builtin (at_ 0 20 0)
             numberedUsers [bob; ten; nine] in
  JS.keys (userStats s) = ["9"; "10"; "bob"]%string /\
  NoDup (JS.keys (userStats s)) /\
  KeyOrdered JS.arrayIndex (userStats s).
Proof.
  split; [vm_compute; reflexivity|].
  assert (H : Unpolluted JS.builtin numberedUsers) by (repeat constructor).
  pose proof (@userStats_in_key_order utcDay utcParse utcText JS.builtin
                (at_ 0 20 0) numberedUsers [bob; ten; nine] H) as (H1 & H2 & _).
  split; [exact H1|exact H2].
Defined.

(** Connie is on the roster and punched in and out; her id is the name
    of a builtin property. *)
Lemma inherited_user_id_is_dropped_instance :
  let s := processAttendance utcDay utcParse utcText JS.builtin (at_ 0 20 0)
             connieDay [connie] in
  processedAttendance s = [] /\
  JS.get String.eqb "constructor"%string (userStats s) = None /\
  sessionsOf "constructor"%string (processedAttendance s) = [].
Proof.
  split; [vm_compute; reflexivity|].
  apply (@inherited_user_id_is_dropped utcDay utcParse utcText JS.builtin
           (at_ 0 20 0) connieDay [connie] "constructor"%string).
  reflexivity.
Defined.
